(** * A shallow embedding of [src/models/mlp.py]

    The coordinate network of the CT reconstruction project: activation
    catalogue, sine initialisation, ray quadrature, and the
    training / validation controller of the [MLP] Lightning module.

    Conventions of the embedding.
    - A tensor is its shape together with its entries in row-major
      (contiguous) order.  Entries of float tensors are real numbers and
      the arithmetic on them is exact.  The forward pass and the ray
      integrator are also read over IEEE 754 binary32, with rounding,
      overflow and special values, in a section of its own; that reading
      decides the statements that depend on rounding.  Integer and boolean
      tensors have types of their own.
    - Python exceptions are values of [PyError]; a computation that may raise
      returns a [Result].
    - Methods that mutate [self] thread the mutable part of the module
      ([Mut]) explicitly; the mutation done before an exception is kept.
    - Random draws come from a [Generator], a stream with a cursor.
    - Device placement, gradient tracking, [detach] and [cpu] do not change
      values and are left out.  The encoder, the dataset, the logger and the
      PSNR metric are collaborators: they appear as parameters and as
      emitted events. *)

From Stdlib Require Import String List ZArith Arith Bool Lia.
From Stdlib Require Import Reals Lra.
From Stdlib Require Import SpecFloat DecimalString.
Import ListNotations.

Set Warnings "-register-all".

Local Open Scope string_scope.
Local Open Scope list_scope.
Local Open Scope R_scope.

(** ** Exceptions and results *)

Inductive PyError : Type :=
| TypeError (msg : string)
| ValueError (msg : string)
| RuntimeError (msg : string)
| IndexError (msg : string)
| UnboundLocalError (var : string)
| ZeroDivisionError (msg : string)
| AttributeError (msg : string).

Inductive Result (A : Type) : Type :=
| Ok (a : A)
| Raise (e : PyError).

Arguments Ok {A} a.
Arguments Raise {A} e.

Definition bind {A B : Type} (r : Result A) (k : A -> Result B) : Result B :=
  match r with
  | Ok a => k a
  | Raise e => Raise e
  end.

Declare Scope result_scope.
Delimit Scope result_scope with result.
Notation "'let*' x ':=' c 'in' k" := (bind c (fun x => k))
  (at level 10, x pattern, c at level 100, k at level 200) : result_scope.
Local Open Scope result_scope.

Definition is_ok {A : Type} (r : Result A) : bool :=
  match r with Ok _ => true | Raise _ => false end.

Definition error_message (e : PyError) : string :=
  match e with
  | TypeError msg | ValueError msg | RuntimeError msg | IndexError msg
  | UnboundLocalError msg | ZeroDivisionError msg | AttributeError msg => msg
  end.

(** A function compiled with [@torch.jit.script] runs in the TorchScript
    interpreter: whatever an operation raises inside it reaches the caller
    as a [RuntimeError].  The message kept here is the one of the operation;
    the interpreter adds its own trace around it. *)
Definition torchscript {A : Type} (r : Result A) : Result A :=
  match r with
  | Ok a => Ok a
  | Raise e => Raise (RuntimeError (error_message e))
  end.

(** ** Tensors *)

Record Tensor : Type := mkTensor { shape : list nat; data : list R }.

Definition numel (s : list nat) : nat := fold_right Nat.mul 1%nat s.

(** [chunks n k d]: the [n] consecutive blocks of [k] entries of [d]. *)
Fixpoint chunks {A : Type} (n k : nat) (d : list A) : list (list A) :=
  match n with
  | O => []
  | S n' => firstn k d :: chunks n' k (skipn k d)
  end.

(** ** Activation catalogue (lines 11-36) *)

Inductive Activation : Type :=
| ReLU | LeakyReLU | Sigmoid | Tanh | ELU | Identity | Sine.

(** Elementwise transform computed by each activation module, with the
    default parameters of [torch.nn] (no keyword argument is ever passed by
    the callers).  [Sine.forward] is [torch.sin(30 * input)]. *)
Definition activation_apply (a : Activation) (x : R) : R :=
  match a with
  | ReLU => Rmax 0 x
  | LeakyReLU => Rmax 0 x + 0.01 * Rmin 0 x
  | Sigmoid => 1 / (1 + exp (- x))
  | Tanh => tanh x
  | ELU => Rmax 0 x + Rmin 0 (exp x - 1)
  | Identity => x
  | Sine => sin (30 * x)
  end.

(** The configuration dictionary [args_dict], with the keys that the
    module reads: [args_dict['training'][...]] and [args_dict['model'][...]].
    The field [encoder] is [None] when no encoder is configured. *)
Module Args.
Record Config : Type := mkConfig {
  learning_rate : R;
  imagefit_mode : bool;
  regularization_weight : R;
  device : string;
  num_freq_bands : nat;
  num_hidden_layers : nat;
  num_hidden_features : nat;
  activation_function : string;
  latent_size : nat;
  encoder : option string
}.
End Args.
Abbreviation Config := Args.Config.

Definition get_activation_function (activation_function : string)
    (args_dict : Config) : Result Activation :=
  if activation_function =? "relu" then Ok ReLU
  else if activation_function =? "leaky_relu" then Ok LeakyReLU
  else if activation_function =? "sigmoid" then Ok Sigmoid
  else if activation_function =? "tanh" then Ok Tanh
  else if activation_function =? "elu" then Ok ELU
  else if activation_function =? "none" then Ok Identity
  else if activation_function =? "sine" then Ok Sine
  else Raise (ValueError (("Unknown activation function: " ++ activation_function)%string)).

(** The catalogue as the specification lists it. *)
Definition supported_activations : list (string * Activation) :=
  [ ("none", Identity); ("relu", ReLU); ("leaky_relu", LeakyReLU);
    ("sigmoid", Sigmoid); ("tanh", Tanh); ("elu", ELU); ("sine", Sine) ].

Fixpoint lookup_activation (name : string) (l : list (string * Activation))
  : option Activation :=
  match l with
  | [] => None
  | (k, a) :: l' => if name =? k then Some a else lookup_activation name l'
  end.


(** ** Tensor operations of the library, as far as the module uses them *)

Definition shape_at (s : list nat) (i : nat) : Result nat :=
  match nth_error s i with
  | Some n => Ok n
  | None => Raise (IndexError "tuple index out of range")
  end.

(** [Tensor.view]: at most one size may be [-1] and is then inferred from the
    number of entries (the library's [infer_size]). *)
Definition infer_size (sizes : list Z) (n : nat) : Result (list nat) :=
  if existsb (fun z => (z <? -1)%Z) sizes then
    Raise (RuntimeError "invalid shape dimension")
  else if (1 <? count_occ Z.eq_dec sizes (-1)%Z)%nat then
    Raise (RuntimeError "only one dimension can be inferred")
  else
    let newsize :=
      numel (map Z.to_nat (filter (fun z => negb (z =? -1)%Z) sizes)) in
    let infer := existsb (fun z => (z =? -1)%Z) sizes in
    if (n =? newsize)%nat
       || (infer && (0 <? newsize)%nat && (n mod newsize =? 0)%nat) then
      if infer then
        if (newsize =? 0)%nat then
          Raise (RuntimeError
                   "cannot reshape tensor of 0 elements: the unspecified dimension is ambiguous")
        else
          Ok (map (fun z => if (z =? -1)%Z then (n / newsize)%nat
                            else Z.to_nat z) sizes)
      else Ok (map Z.to_nat sizes)
    else Raise (RuntimeError "shape is invalid for input size").

Definition view (t : Tensor) (sizes : list Z) : Result Tensor :=
  let* s := infer_size sizes (length (data t)) in
  Ok (mkTensor s (data t)).

Definition zip_app {A : Type} (a b : list (list A)) : list (list A) :=
  map (fun p => fst p ++ snd p) (combine a b).

(** Tensors of shape [[0]] are skipped by [torch.cat] (legacy behaviour). *)
Definition cat_skipped (t : Tensor) : bool :=
  match shape t with
  | [n] => (n =? 0)%nat
  | _ => false
  end.

Definition same_except (dim : nat) (s1 s2 : list nat) : bool :=
  (length s1 =? length s2)%nat
  && forallb (fun i => (i =? dim)%nat || (nth i s1 O =? nth i s2 O)%nat)
       (seq 0 (length s1)).

(** Concatenation along [dim] of tensors that agree on all other sizes:
    for every index of the leading dimensions, the blocks of the operands
    one after the other.  On an empty list the library raises; the class of
    that exception differs between releases ([RuntimeError] up to 2.1,
    [ValueError] later) and the repository pins none, so no statement below
    names it. *)
Definition cat_tensors (ts : list Tensor) (dim : nat) : Result Tensor :=
  match filter (fun t => negb (cat_skipped t)) ts with
  | [] =>
      match ts with
      | [] => Raise (RuntimeError "torch.cat(): expected a non-empty list of Tensors")
      | _ => Ok (mkTensor [O] [])
      end
  | t0 :: rest =>
      let s0 := shape t0 in
      if (length s0 =? 0)%nat then
        Raise (RuntimeError "zero-dimensional tensor cannot be concatenated")
      else if (length s0 <=? dim)%nat then
        Raise (IndexError "Dimension out of range")
      else if negb (forallb (fun t => (length (shape t) =? length s0)%nat) rest) then
        Raise (RuntimeError "Tensors must have same number of dimensions")
      else if negb (forallb (fun t => same_except dim s0 (shape t)) rest) then
        Raise (RuntimeError "Sizes of tensors must match except in the cat dimension")
      else
        let outer := numel (firstn dim s0) in
        let blocks (t : Tensor) :=
          chunks outer (numel (skipn dim (shape t))) (data t) in
        let total :=
          fold_right Nat.add O (map (fun t => nth dim (shape t) O) (t0 :: rest)) in
        Ok (mkTensor (firstn dim s0 ++ total :: skipn (S dim) s0)
              (concat (fold_right (fun t acc => zip_app (blocks t) acc)
                         (repeat [] outer) (t0 :: rest))))
  end.

(** [torch.cat] on a Python list whose elements may be [None]: argument
    parsing rejects a non-tensor element before anything is computed. *)
Definition torch_cat (ts : list (option Tensor)) (dim : nat) : Result Tensor :=
  if forallb (fun o => match o with Some _ => true | None => false end) ts then
    cat_tensors (flat_map (fun o => match o with Some t => [t] | None => [] end) ts) dim
  else
    Raise (TypeError "expected Tensor as element of the tensor list, but got NoneType").

(** ** Modules: [torch.nn.Linear], activations, [torch.nn.Sequential] *)

Record Linear : Type := mkLinear {
  in_features : nat;
  out_features : nat;
  weight : Tensor;   (* shape [out_features; in_features] *)
  bias : Tensor      (* shape [out_features] *)
}.

Definition dot (w x : list R) : R :=
  fold_left (fun acc p => acc + fst p * snd p) (combine x w) 0.

Definition linear_row (l : Linear) (x : list R) : list R :=
  map (fun p => dot (fst p) x + snd p)
    (combine (chunks (out_features l) (in_features l) (data (weight l)))
       (data (bias l))).

(** [F.linear]: [x W^T + b] on the last dimension. *)
Definition linear_forward (l : Linear) (x : Tensor) : Result Tensor :=
  match rev (shape x) with
  | [] => Raise (RuntimeError "linear: input must have at least one dimension")
  | k :: lead =>
      if (k =? in_features l)%nat then
        Ok (mkTensor (rev lead ++ [out_features l])
              (concat (map (linear_row l)
                         (chunks (numel lead) (in_features l) (data x)))))
      else Raise (RuntimeError "mat1 and mat2 shapes cannot be multiplied")
  end.

Inductive Module : Type :=
| MLinear (l : Linear)
| MActivation (a : Activation)
| MSequential (children : list Module).

(** [Sequential.forward]: the children one after the other. *)
Fixpoint sequential_forward (f : Module -> Tensor -> Result Tensor)
    (children : list Module) (x : Tensor) : Result Tensor :=
  match children with
  | [] => Ok x
  | c :: children' => let* y := f c x in sequential_forward f children' y
  end.

Fixpoint module_forward (m : Module) (x : Tensor) : Result Tensor :=
  match m with
  | MLinear l => linear_forward l x
  | MActivation a => Ok (mkTensor (shape x) (map (activation_apply a) (data x)))
  | MSequential children => sequential_forward module_forward children x
  end.

(** The coordinate encoder is an external collaborator: a declared output
    width and a map on tensors. *)
Record Encoder : Type := mkEncoder {
  output_dim : nat;
  encode : Tensor -> Result Tensor
}.

(** [torch.nn.Embedding]: the latent table. *)
Record Embedding : Type := mkEmbedding {
  num_embeddings : nat;
  embedding_dim : nat;
  table : list R    (* num_embeddings rows of embedding_dim entries *)
}.

(** The attributes of [self] that no step method assigns. *)
Record MLP : Type := mkMLP {
  projection_shape : list nat;
  lr : R;
  imagefit_mode : bool;
  l1_regularization_weight : R;
  latent_size : nat;
  encoder : option Encoder;
  lat_vecs : option Embedding;   (* only assigned in imagefit mode *)
  mlp : Module
}.

(** ** [MLP.forward] (lines 133-151) *)

Definition forward (self : MLP) (pts : Tensor) (vecs : option Tensor)
  : Result Tensor :=
  let pts_shape := shape pts in
  let* pts := (if (2 <? length pts_shape)%nat then view pts [-1; 3]%Z
               else Ok pts) in
  let* enc := (match encoder self with
               | Some e => encode e pts
               | None => Ok pts
               end) in
  let* enc := torch_cat [vecs; Some enc] 1 in
  let* out := module_forward (mlp self) enc in
  if (2 <? length pts_shape)%nat then
    view out (map Z.of_nat (removelast pts_shape) ++ [-1]%Z)
  else Ok out.

(** A call [self.forward(x)] that omits the required parameter [vecs]
    (line 258) is rejected when the arguments are bound. *)
Definition forward_missing_vecs (self : MLP) (pts : Tensor) : Result Tensor :=
  Raise (TypeError "forward() missing 1 required positional argument: 'vecs'").

(** ** Elementwise arithmetic with broadcasting, reductions *)

(** Broadcast of two shapes, compared from the last dimension backwards. *)
Fixpoint broadcast_rev (r1 r2 : list nat) : Result (list nat) :=
  match r1, r2 with
  | [], _ => Ok r2
  | _, [] => Ok r1
  | a :: r1', b :: r2' =>
      let* r := broadcast_rev r1' r2' in
      if (a =? b)%nat then Ok (a :: r)
      else if (a =? 1)%nat then Ok (b :: r)
      else if (b =? 1)%nat then Ok (a :: r)
      else Raise (RuntimeError "The size of tensor a must match the size of tensor b")
  end.

Definition broadcast_shapes (s1 s2 : list nat) : Result (list nat) :=
  let* r := broadcast_rev (rev s1) (rev s2) in Ok (rev r).

(** A shape extended on the left with ones to rank [n]. *)
Definition pad_shape (n : nat) (s : list nat) : list nat :=
  repeat 1%nat (n - length s) ++ s.

(** Entries of [f a b] for operands of equal rank whose shapes broadcast:
    a dimension of size one is repeated along the other operand. *)
Fixpoint bzip (f : R -> R -> R) (s1 s2 : list nat) (d1 d2 : list R) : list R :=
  match s1, s2 with
  | n1 :: r1, n2 :: r2 =>
      let c1 := chunks n1 (numel r1) d1 in
      let c2 := chunks n2 (numel r2) d2 in
      if (n1 =? n2)%nat then
        concat (map (fun p => bzip f r1 r2 (fst p) (snd p)) (combine c1 c2))
      else if (n1 =? 1)%nat then
        concat (map (fun y => bzip f r1 r2 d1 y) c2)
      else
        concat (map (fun x => bzip f r1 r2 x d2) c1)
  | _, _ =>
      match d1, d2 with
      | x :: _, y :: _ => [f x y]
      | _, _ => []
      end
  end.

Definition binop (f : R -> R -> R) (a b : Tensor) : Result Tensor :=
  let* s := broadcast_shapes (shape a) (shape b) in
  let n := Nat.max (length (shape a)) (length (shape b)) in
  Ok (mkTensor s
        (bzip f (pad_shape n (shape a)) (pad_shape n (shape b)) (data a) (data b))).

(** [t / k] for a Python number [k].  A zero divisor gives infinities or NaN
    in the library and no exception, which the real numbers cannot show:
    every statement made with this definition takes [k] non-zero. *)
Definition div_scalar (t : Tensor) (k : R) : Tensor :=
  mkTensor (shape t) (map (fun x => x / k) (data t)).

(** [t[:, None]] *)
Definition unsqueeze1 (t : Tensor) : Result Tensor :=
  match shape t with
  | n0 :: rest => Ok (mkTensor (n0 :: 1%nat :: rest) (data t))
  | [] => Raise (IndexError "too many indices for tensor of dimension 0")
  end.

Definition sum (d : list R) : R := fold_left Rplus d 0.

Definition vadd (a b : list R) : list R :=
  map (fun p => fst p + snd p) (combine a b).

(** [torch.sum(t, dim=1)] *)
Definition sum_dim1 (t : Tensor) : Result Tensor :=
  match shape t with
  | n0 :: n1 :: rest =>
      Ok (mkTensor (n0 :: rest)
            (concat
               (map (fun blk =>
                       fold_left vadd (chunks n1 (numel rest) blk)
                         (repeat 0 (numel rest)))
                  (chunks n0 (n1 * numel rest) (data t)))))
  | _ => Raise (IndexError "Dimension out of range")
  end.

(** ** The ray integrator: [compute_projection_values] (lines 53-65) *)

Definition compute_projection_values (num_points : Z)
    (attenuation_values lengths : Tensor) : Result Tensor :=
  torchscript (
    let dx := div_scalar lengths (IZR num_points) in
    let* dx_col := unsqueeze1 dx in
    let* prod := binop Rmult attenuation_values dx_col in
    let* attenuation_sum := sum_dim1 prod in
    Ok attenuation_sum).

(** The quadrature of one ray as the specification writes it: the sum of the
    samples times the spacing [length / n]. *)
Definition quadrature (n : R) (samples : list R) (length : R) : R :=
  sum samples * (length / n).

(** ** Indexing, slicing, norms, losses *)

(** Subscript with [nidx] entries, all of them [:] except the integer [i] at
    position [d]: [t[:, i, :]] is [select t 3 1 i], [t[i]] is
    [select t 1 0 i]. *)
Definition select (t : Tensor) (nidx d : nat) (i : Z) : Result Tensor :=
  if (length (shape t) <? nidx)%nat then
    Raise (IndexError "too many indices for tensor")
  else
    let n := nth d (shape t) O in
    let i' := (if i <? 0 then i + Z.of_nat n else i)%Z in
    if ((i' <? 0) || (Z.of_nat n <=? i'))%Z then
      Raise (IndexError "index is out of bounds for dimension")
    else
      let outer := numel (firstn d (shape t)) in
      let inner := numel (skipn (S d) (shape t)) in
      Ok (mkTensor (firstn d (shape t) ++ skipn (S d) (shape t))
            (concat (map (fun blk => nth (Z.to_nat i') (chunks n inner blk) [])
                       (chunks outer (n * inner) (data t))))).

(** [torch.linalg.norm(t, dim=1)]: the Euclidean norm along dimension 1. *)
Definition norm_dim1 (t : Tensor) : Result Tensor :=
  match shape t with
  | n0 :: n1 :: rest =>
      Ok (mkTensor (n0 :: rest)
            (concat
               (map (fun blk =>
                       map sqrt
                         (fold_left vadd
                            (map (map (fun x => x * x))
                               (chunks n1 (numel rest) blk))
                            (repeat 0 (numel rest))))
                  (chunks n0 (n1 * numel rest) (data t)))))
  | _ => Raise (IndexError "Dimension out of range")
  end.

(** [t[:, 1:]] *)
Definition slice_from1 (t : Tensor) : Result Tensor :=
  match shape t with
  | n0 :: n1 :: rest =>
      Ok (mkTensor (n0 :: (n1 - 1)%nat :: rest)
            (concat (map (skipn (numel rest))
                       (chunks n0 (n1 * numel rest) (data t)))))
  | _ => Raise (IndexError "too many indices for tensor")
  end.

(** [t[:, :-1]] *)
Definition slice_to_last (t : Tensor) : Result Tensor :=
  match shape t with
  | n0 :: n1 :: rest =>
      Ok (mkTensor (n0 :: (n1 - 1)%nat :: rest)
            (concat (map (firstn ((n1 - 1) * numel rest))
                       (chunks n0 (n1 * numel rest) (data t)))))
  | _ => Raise (IndexError "too many indices for tensor")
  end.

(** The mean of the entries.  For a tensor without entries the library
    returns NaN, which has no counterpart here; the statements exclude that
    case. *)
Definition mean (d : list R) : R := sum d / INR (length d).

(** [torch.nn.MSELoss()] and [torch.nn.L1Loss()] with the default mean
    reduction; operands of different shapes are broadcast (with a warning). *)
Definition loss_fn (input target : Tensor) : Result R :=
  let* d := binop (fun x y => (x - y) * (x - y)) input target in
  Ok (mean (data d)).

Definition l1_regularization (input target : Tensor) : Result R :=
  let* d := binop (fun x y => Rabs (x - y)) input target in
  Ok (mean (data d)).

(** [Tensor.repeat], with one repetition count per dimension *)
Fixpoint tile (s reps : list nat) (d : list R) : list R :=
  match s, reps with
  | n :: s', r :: reps' =>
      concat (repeat (concat (map (tile s' reps') (chunks n (numel s') d))) r)
  | _, _ => d
  end.

Definition mul_shapes (s reps : list nat) : list nat :=
  map (fun p => (fst p * snd p)%nat) (combine s reps).

Definition repeat_tensor (t : Tensor) (reps : list nat) : Result Tensor :=
  if (length reps <? length (shape t))%nat then
    Raise (RuntimeError
             "Number of dimensions of repeat dims can not be smaller than number of dimensions of tensor")
  else
    let s := pad_shape (length reps) (shape t) in
    Ok (mkTensor (mul_shapes s reps) (tile s reps (data t))).

(** Integer tensors: the volume indices of a batch. *)
Record ITensor : Type := mkITensor { ishape : list nat; idata : list Z }.

(** Promotion of an integer tensor where it meets a float tensor. *)
Definition to_float (t : ITensor) : Tensor :=
  mkTensor (ishape t) (map IZR (idata t)).

(** [self.lat_vecs(idxs)] *)
Definition embedding_lookup (e : Embedding) (idx : ITensor) : Result Tensor :=
  if forallb (fun z => (0 <=? z)%Z && (z <? Z.of_nat (num_embeddings e))%Z)
       (idata idx) then
    Ok (mkTensor (ishape idx ++ [embedding_dim e])
          (flat_map (fun z => nth (Z.to_nat z)
                                (chunks (num_embeddings e) (embedding_dim e)
                                   (table e)) [])
             (idata idx)))
  else Raise (IndexError "index out of range in self").

(** Boolean tensors: the validity mask. *)
Record BTensor : Type := mkBTensor { bshape : list nat; bdata : list bool }.

Definition bview (t : BTensor) (sizes : list Z) : Result BTensor :=
  let* s := infer_size sizes (length (bdata t)) in
  Ok (mkBTensor s (bdata t)).

Fixpoint shape_eqb (a b : list nat) : bool :=
  match a, b with
  | [], [] => true
  | x :: a', y :: b' => (x =? y)%nat && shape_eqb a' b'
  | _, _ => false
  end.

Fixpoint strip_ones (s : list nat) : list nat :=
  match s with
  | 1%nat :: s' => strip_ones s'
  | _ => s
  end.

Fixpoint scatter (dst : list R) (mask : list bool) (vals : list R) : list R :=
  match dst, mask with
  | x :: dst', true :: mask' =>
      match vals with
      | v :: vals' => v :: scatter dst' mask' vals'
      | [] => x :: scatter dst' mask' []
      end
  | x :: dst', false :: mask' => x :: scatter dst' mask' vals
  | _, _ => dst
  end.

(** [dst[mask] = value] *)
Definition masked_assign (dst : Tensor) (mask : BTensor) (value : Tensor)
  : Result Tensor :=
  if negb (shape_eqb (bshape mask) (shape dst)) then
    Raise (IndexError "The shape of the mask does not match the shape of the indexed tensor")
  else
    let count := count_occ bool_dec (bdata mask) true in
    let vs := strip_ones (shape value) in
    if shape_eqb vs [count] then
      Ok (mkTensor (shape dst) (scatter (data dst) (bdata mask) (data value)))
    else if (numel vs =? 1)%nat && (length vs <=? 1)%nat then
      Ok (mkTensor (shape dst)
            (scatter (data dst) (bdata mask)
               (repeat (nth 0 (data value) 0) count)))
    else Raise (RuntimeError "shape mismatch: value tensor cannot be broadcast to indexing result").

(** [dst[:, i, :] = value] *)
Definition assign_dim1 (dst : Tensor) (i : nat) (value : Tensor) : Result Tensor :=
  match shape dst with
  | [n0; n1; n2] =>
      if (n1 <=? i)%nat then Raise (IndexError "index is out of bounds for dimension")
      else
        let vs := strip_ones (shape value) in
        let* s := broadcast_shapes [n0; n2] vs in
        if negb (shape_eqb s [n0; n2]) then
          Raise (RuntimeError "The expanded size of the tensor must match the existing size")
        else
          let vals :=
            bzip (fun _ y => y) [n0; n2] (pad_shape 2 vs)
              (repeat 0 (n0 * n2)) (data value) in
          Ok (mkTensor (shape dst)
                (concat
                   (map (fun p => firstn (i * n2) (fst p) ++ snd p
                                  ++ skipn (S i * n2) (fst p))
                      (combine (chunks n0 (n1 * n2) (data dst))
                         (chunks n0 n2 vals)))))
  | _ => Raise (IndexError "too many indices for tensor")
  end.

(** [torch.linspace(-1, 1, n)] and the grid of line 253:
    [stack(meshgrid(x, x, x, indexing='ij'), dim=-1)] of shape [n; n; n; 3]. *)
Definition linspace (n : nat) : list R :=
  map (fun i => -1 + INR i * ((1 - -1) / INR (n - 1))) (seq 0 n).

Definition meshgrid3 (n : nat) : Tensor :=
  let x := linspace n in
  mkTensor [n; n; n; 3%nat]
    (flat_map (fun a => flat_map (fun b => flat_map (fun c => [a; b; c]) x) x) x).

(** ** Random initialisation *)

(** The random generator: the stream of uniform draws in [[0,1)] and of
    standard normal draws it will produce, and the number of draws consumed
    so far. *)
Record Generator : Type := mkGenerator {
  uniform_draw : nat -> R;
  normal_draw : nat -> R;
  position : nat
}.

Definition advance (g : Generator) (n : nat) : Generator :=
  mkGenerator (uniform_draw g) (normal_draw g) (position g + n).

(** [Tensor.uniform_(from, to)]: every entry becomes [u * (to - from) + from]
    for a fresh draw [u].  The library rejects [from > to]; every call of
    this module passes [-c] and [c] with [0 <= c]. *)
Definition uniform_ (t : Tensor) (from to : R) (g : Generator)
  : Tensor * Generator :=
  let n := length (data t) in
  (mkTensor (shape t)
     (map (fun i => uniform_draw g (position g + i) * (to - from) + from)
        (seq 0 n)),
   advance g n).

(** [Tensor.normal_(mean, std)]. *)
Definition normal_ (t : Tensor) (mean std : R) (g : Generator)
  : Tensor * Generator :=
  let n := length (data t) in
  (mkTensor (shape t)
     (map (fun i => normal_draw g (position g + i) * std + mean) (seq 0 n)),
   advance g n).

Definition zeros (s : list nat) : Tensor := mkTensor s (repeat 0 (numel s)).

(** [torch.nn.Linear(in_features, out_features)] with the default
    [reset_parameters]: Kaiming-uniform weights (skipped for a tensor without
    entries) and a uniform bias. *)
Definition Linear_new (fin fout : nat) (g : Generator) : Linear * Generator :=
  let w0 := zeros [fout; fin] in
  let '(w, g1) :=
    if (numel [fout; fin] =? 0)%nat then (w0, g)
    else
      let gain := sqrt (2 / (1 + sqrt 5 * sqrt 5)) in
      let std := gain / sqrt (INR fin) in
      let bound := sqrt 3 * std in
      uniform_ w0 (- bound) bound g in
  let bound := if (0 <? fin)%nat then 1 / sqrt (INR fin) else 0 in
  let '(b, g2) := uniform_ (zeros [fout]) (- bound) bound g1 in
  (mkLinear fin fout w b, g2).

(** [torch.nn.Embedding(n, d)]: standard normal entries. *)
Definition Embedding_new (n d : nat) (g : Generator) : Embedding * Generator :=
  let '(w, g') := normal_ (zeros [n; d]) 0 1 g in
  (mkEmbedding n d (data w), g').

(** [m.weight.size(-1)] *)
Definition size_last (t : Tensor) : Result nat :=
  match rev (shape t) with
  | n :: _ => Ok n
  | [] => Raise (IndexError "Dimension specified as -1 but tensor has no dimensions")
  end.

Definition set_weight (l : Linear) (w : Tensor) : Linear :=
  mkLinear (in_features l) (out_features l) w (bias l).

(** [sine_init] (lines 39-44).  Only [Linear] has a [weight] attribute;
    [6 / num_input] is a Python division and raises on zero. *)
Definition sine_init (m : Module) (g : Generator) : Result (Module * Generator) :=
  match m with
  | MLinear l =>
      let* num_input := size_last (weight l) in
      if (num_input =? 0)%nat then Raise (ZeroDivisionError "division by zero")
      else
        let '(w, g') :=
          uniform_ (weight l) (- sqrt (6 / INR num_input) / 30)
            (sqrt (6 / INR num_input) / 30) g in
        Ok (MLinear (set_weight l w), g')
  | _ => Ok (m, g)
  end.

(** [first_layer_sine_init] (lines 47-51). *)
Definition first_layer_sine_init (m : Module) (g : Generator)
  : Result (Module * Generator) :=
  match m with
  | MLinear l =>
      let* num_input := size_last (weight l) in
      if (num_input =? 0)%nat then Raise (ZeroDivisionError "division by zero")
      else
        let '(w, g') :=
          uniform_ (weight l) (- 1 / INR num_input) (1 / INR num_input) g in
        Ok (MLinear (set_weight l w), g')
  | _ => Ok (m, g)
  end.

(** [torch.nn.Module.apply]: the children first, in order, then the module
    itself. *)
Fixpoint apply_children
    (f : Module -> Generator -> Result (Module * Generator))
    (children : list Module) (g : Generator)
  : Result (list Module * Generator) :=
  match children with
  | [] => Ok ([], g)
  | c :: children' =>
      let* r1 := f c g in
      let* r2 := apply_children f children' (snd r1) in
      Ok (fst r1 :: fst r2, snd r2)
  end.

Fixpoint module_apply (fn : Module -> Generator -> Result (Module * Generator))
    (m : Module) (g : Generator) : Result (Module * Generator) :=
  match m with
  | MSequential children =>
      let* r := apply_children (module_apply fn) children g in
      fn (MSequential (fst r)) (snd r)
  | _ => fn m g
  end.

(** [self.mlp[0].apply(fn)] *)
Definition apply_first (fn : Module -> Generator -> Result (Module * Generator))
    (m : Module) (g : Generator) : Result (Module * Generator) :=
  match m with
  | MSequential (c :: cs) =>
      let* r := module_apply fn c g in
      Ok (MSequential (fst r :: cs), snd r)
  | _ => Raise (IndexError "index 0 is out of range")
  end.

(** ** The mutable part of [self], and what the step methods emit *)

Inductive LogEvent : Type :=
| LogScalar (key : string) (value : R)
| LogImage (key : string) (images : list Tensor) (caption : list string).

Record Mut : Type := mkMut {
  validation_step_outputs : list Tensor;
  validation_step_gt : list Tensor;
  vol_shape : option (list nat);
  emitted : list LogEvent
}.

(** ** [MLP.__init__] (lines 75-130) *)

(** The hidden blocks built by the loop of lines 109-112. *)
Fixpoint hidden_layers (n : nat) (args_dict : Config) (g : Generator)
  : Result (list Module * Generator) :=
  match n with
  | O => Ok ([], g)
  | S n' =>
      let H := Args.num_hidden_features args_dict in
      let '(l, g1) := Linear_new H H g in
      let* a := get_activation_function (Args.activation_function args_dict) args_dict in
      let* r := hidden_layers n' args_dict g1 in
      Ok (MSequential [MLinear l; MActivation a] :: fst r, snd r)
  end.

Definition MLP_init (get_encoder : string -> Result Encoder)
    (args_dict : Config) (projection_shape : list nat) (num_volumes : nat)
    (g : Generator) : Result (MLP * Mut * Generator) :=
  let* enc := (match Args.encoder args_dict with
               | Some name => let* e := get_encoder name in Ok (Some e)
               | None => Ok None
               end) in
  let num_input_features :=
    match enc with Some e => output_dim e | None => 3%nat end in
  let* lat :=
    (if Args.imagefit_mode args_dict then
       let '(emb, g1) := Embedding_new num_volumes (Args.latent_size args_dict) g in
       if (Args.latent_size args_dict =? 0)%nat then
         Raise (ZeroDivisionError "float division by zero")
       else
         let '(w, g2) :=
           normal_ (mkTensor [num_volumes; Args.latent_size args_dict] (table emb))
             0 (1 / sqrt (INR (Args.latent_size args_dict))) g1 in
         Ok (Some (mkEmbedding num_volumes (Args.latent_size args_dict) (data w)),
             (num_input_features + Args.latent_size args_dict)%nat, g2)
     else Ok (None, num_input_features, g)) in
  let '(lat_vecs, num_input_features, g) := lat in
  let H := Args.num_hidden_features args_dict in
  let* layers := hidden_layers (Args.num_hidden_layers args_dict) args_dict g in
  let '(first, g) := Linear_new num_input_features H (snd layers) in
  let* act := get_activation_function (Args.activation_function args_dict) args_dict in
  let '(last, g) := Linear_new H 1 g in
  let net :=
    MSequential (MLinear first :: MActivation act :: fst layers
                 ++ [MLinear last; MActivation Sigmoid]) in
  let* r :=
    (if (Args.activation_function args_dict =? "sine")%string then
       let* r1 := module_apply sine_init net g in
       apply_first first_layer_sine_init (fst r1) (snd r1)
     else Ok (net, g)) in
  Ok (mkMLP projection_shape (Args.learning_rate args_dict)
        (Args.imagefit_mode args_dict) (Args.regularization_weight args_dict)
        (Args.latent_size args_dict) enc lat_vecs (fst r),
      mkMut [] [] None [],
      snd r).

(** ** Step methods: state threading *)

Definition Step (A : Type) : Type := Mut -> Result A * Mut.

Definition ret {A : Type} (a : A) : Step A := fun s => (Ok a, s).

Definition lift {A : Type} (r : Result A) : Step A := fun s => (r, s).

Definition sbind {A B : Type} (m : Step A) (k : A -> Step B) : Step B :=
  fun s =>
    match m s with
    | (Ok a, s') => k a s'
    | (Raise e, s') => (Raise e, s')
    end.

Notation "'do*' x ':=' c 'in' k" := (sbind c (fun x => k))
  (at level 10, x pattern, c at level 100, k at level 200) : result_scope.

Definition append_outputs (t : Tensor) : Step unit :=
  fun s => (Ok tt, mkMut (validation_step_outputs s ++ [t])
                     (validation_step_gt s) (vol_shape s) (emitted s)).

Definition append_gt (t : Tensor) : Step unit :=
  fun s => (Ok tt, mkMut (validation_step_outputs s)
                     (validation_step_gt s ++ [t]) (vol_shape s) (emitted s)).

Definition clear_outputs : Step unit :=
  fun s => (Ok tt, mkMut [] (validation_step_gt s) (vol_shape s) (emitted s)).

Definition clear_gt : Step unit :=
  fun s => (Ok tt, mkMut (validation_step_outputs s) [] (vol_shape s) (emitted s)).

Definition set_vol_shape (v : list nat) : Step unit :=
  fun s => (Ok tt, mkMut (validation_step_outputs s) (validation_step_gt s)
                     (Some v) (emitted s)).

Definition emit (es : list LogEvent) : Step unit :=
  fun s => (Ok tt, mkMut (validation_step_outputs s) (validation_step_gt s)
                     (vol_shape s) (emitted s ++ es)).

(** [self.log_dict({...})], [self.log(key, value)], [self.logger.log_image] *)
Definition log_dict (entries : list (string * R)) : Step unit :=
  emit (map (fun p => LogScalar (fst p) (snd p)) entries).

Definition log (key : string) (value : R) : Step unit :=
  emit [LogScalar key value].

Definition log_image (key : string) (images : list Tensor)
    (caption : list string) : Step unit :=
  emit [LogImage key images caption].

(** Reading a local variable that no executed statement has assigned. *)
Definition read_local {A : Type} (name : string) (v : option A) : Result A :=
  match v with
  | Some a => Ok a
  | None => Raise (UnboundLocalError name)
  end.

(** ** [training_step] and [validation_step] (lines 153-228) *)

Record Batch : Type := mkBatch {
  points : Tensor;
  target : Tensor;
  idxs : ITensor
}.

(** The latent argument of lines 157 and 198:
    [self.lat_vecs(idxs).repeat(1, points.shape[1], points.shape[2], 1)
     .view(-1, self.latent_size)]. *)
Definition latent_for (self : MLP) (points : Tensor) (idxs : ITensor)
  : Result Tensor :=
  let* emb := (match lat_vecs self with
               | Some e => Ok e
               | None => Raise (AttributeError "'MLP' object has no attribute 'lat_vecs'")
               end) in
  let* lat := embedding_lookup emb idxs in
  let* p1 := shape_at (shape points) 1 in
  let* p2 := shape_at (shape points) 2 in
  let* rep := repeat_tensor lat [1%nat; p1; p2; 1%nat] in
  view rep [-1; Z.of_nat (latent_size self)]%Z.

(** The ray lengths of lines 173 and 206:
    [torch.linalg.norm(points[:,-1,:] - points[:,0,:], dim=1)]. *)
Definition ray_lengths (points : Tensor) : Result Tensor :=
  let* last := select points 3 1 (-1) in
  let* first := select points 3 1 0 in
  let* diff := binop Rminus last first in
  norm_dim1 diff.

(** The forward pass and data loss of the imagefit branches
    (lines 157-160 and 198-201): the predictions reshaped like the target,
    and the loss. *)
Definition imagefit_pass (self : MLP) (batch : Batch) : Result (Tensor * R) :=
  let points := points batch in
  let target := target batch in
  let idxs := idxs batch in
  let* vecs := latent_for self points idxs in
  let* attenuation_values := forward self points (Some vecs) in
  let* attenuation_values :=
    view attenuation_values (map Z.of_nat (shape target)) in
  let* loss := loss_fn attenuation_values target in
  Ok (attenuation_values, loss).

(** The forward pass, quadrature and losses of the projection branches
    (lines 173-178 and 206-212): [detector_value_hat], [loss] and
    [smoothness_loss]. *)
Definition projection_pass (self : MLP) (batch : Batch)
  : Result (Tensor * R * R) :=
  let points := points batch in
  let target := target batch in
  let idxs := idxs batch in
  let* lengths := ray_lengths points in
  let* out := forward self points (Some (to_float idxs)) in
  let* n0 := shape_at (shape points) 0 in
  let* n1 := shape_at (shape points) 1 in
  let* attenuation_values := view out [Z.of_nat n0; Z.of_nat n1] in
  let* detector_value_hat :=
    compute_projection_values (Z.of_nat n1) attenuation_values lengths in
  let* a_tail := slice_from1 attenuation_values in
  let* a_init := slice_to_last attenuation_values in
  let* smoothness_loss := l1_regularization a_tail a_init in
  let* loss := loss_fn detector_value_hat target in
  Ok (detector_value_hat, loss, smoothness_loss).

Definition training_step (self : MLP) (batch : Batch) (batch_idx : nat)
  : Step R :=
  if imagefit_mode self then
    do* r := lift (imagefit_pass self batch) in
    let loss := snd r in
    do* _ := log_dict [("train/loss", loss)] in
    ret loss
  else
    do* r := lift (projection_pass self batch) in
    let '(detector_value_hat, loss, smoothness_loss) := r in
    let total_loss := loss + l1_regularization_weight self * smoothness_loss in
    do* _ := log_dict [("train/loss", loss);
                       ("train/loss_total", total_loss);
                       ("train/l1_regularization", smoothness_loss)] in
    ret total_loss.

(** The local variables [total_loss] and [smoothness_loss] are assigned only
    in the projection branch; the call of [log_dict] after the conditional
    reads them in both modes. *)
Definition validation_step (self : MLP) (batch : Batch) (batch_idx : nat)
  : Step unit :=
  do* locals :=
    (if imagefit_mode self then
       do* r := lift (imagefit_pass self batch) in
       let '(attenuation_values, loss) := r in
       do* _ := append_outputs attenuation_values in
       do* _ := append_gt (target batch) in
       ret (loss, None, None)
     else
       do* r := lift (projection_pass self batch) in
       let '(detector_value_hat, loss, smoothness_loss) := r in
       do* _ := append_outputs detector_value_hat in
       do* _ := append_gt (target batch) in
       let total_loss := loss + l1_regularization_weight self * smoothness_loss in
       ret (loss, Some total_loss, Some smoothness_loss)) in
  let '(loss, total_loss, smoothness_loss) := locals in
  do* total_loss := lift (read_local "total_loss" total_loss) in
  do* smoothness_loss := lift (read_local "smoothness_loss" smoothness_loss) in
  log_dict [("val/loss", loss);
            ("val/loss_total", total_loss);
            ("val/l1_regularization", smoothness_loss)].

(** ** [on_validation_epoch_end] (lines 231-274) *)

(** What the method reads from its collaborators: the validation dataset
    ([vol], [valid_rays]), the five integers returned by
    [np.random.randint], and the PSNR metric. *)
Record Trainer : Type := mkTrainer {
  vol : Tensor;
  valid_rays : BTensor;
  randint : list nat;
  psnr : Tensor -> Tensor -> Result R
}.

Definition unsqueeze0 (t : Tensor) : Tensor :=
  mkTensor (1%nat :: shape t) (data t).

(** An integer in an f-string: its decimal digits. *)
Definition string_of_nat (n : nat) : string :=
  NilEmpty.string_of_uint (Nat.to_uint n).

(** The captions [f"pred_{i}"], [f"gt_{i}"], [f"residual_{i}"] of line 250. *)
Definition projection_captions (i : nat) : list string :=
  [("pred_" ++ string_of_nat i)%string;
   ("gt_" ++ string_of_nat i)%string;
   ("residual_" ++ string_of_nat i)%string].

(** The loop of lines 249-250. *)
Fixpoint log_projections (preds gt : Tensor) (draws : list nat) : Step unit :=
  match draws with
  | [] => ret tt
  | i :: draws' =>
      do* imgs := lift (
        let* p := select preds 1 0 (Z.of_nat i) in
        let* g := select gt 1 0 (Z.of_nat i) in
        let* g' := select gt 1 0 (Z.of_nat i) in
        let* p' := select preds 1 0 (Z.of_nat i) in
        let* r := binop Rminus g' p' in
        Ok [p; g; r]) in
      do* _ := log_image "val/projection" imgs (projection_captions i) in
      log_projections preds gt draws'
  end.

(** The loop of lines 257-260; the call of [forward] passes one argument. *)
Fixpoint reconstruct (self : MLP) (mgrid outputs : Tensor) (cols : list nat)
  : Result Tensor :=
  match cols with
  | [] => Ok outputs
  | i :: cols' =>
      let* x := select mgrid 3 1 (Z.of_nat i) in
      let* output := forward_missing_vecs self x in
      let* outputs := assign_dim1 outputs i output in
      reconstruct self mgrid outputs cols'
  end.

(** Prediction, ground truth and residual of the slice [k] along
    dimension [d] (lines 265-267). *)
Definition slice_triplet (outputs vol : Tensor) (d k : nat)
  : Result (list Tensor) :=
  let* o := select outputs 3 d (Z.of_nat k) in
  let* v := select vol 3 d (Z.of_nat k) in
  let* v' := select vol 3 d (Z.of_nat k) in
  let* o' := select outputs 3 d (Z.of_nat k) in
  let* r := binop Rminus v' o' in
  Ok [o; v; r].

Definition on_validation_epoch_end (self : MLP) (trainer : Trainer)
  : Step unit :=
  do* all_preds := (fun s => (cat_tensors (validation_step_outputs s) 0, s)) in
  do* all_gt := (fun s => (cat_tensors (validation_step_gt s) 0, s)) in
  let vol := vol trainer in
  do* _ := set_vol_shape (shape vol) in
  let vol_shape := shape vol in
  do* _ :=
    (if imagefit_mode self then
       do* preds := lift (view all_preds (map Z.of_nat vol_shape)) in
       do* gt := lift (view all_gt (map Z.of_nat vol_shape)) in
       do* imgs := lift (
         let* n2 := shape_at vol_shape 2 in
         let* p := select preds 3 0 (Z.of_nat (n2 / 2)) in
         let* n2' := shape_at vol_shape 2 in
         let* g := select gt 3 0 (Z.of_nat (n2' / 2)) in
         Ok [p; g]) in
       do* _ := log_image "val/reconstruction" imgs ["pred"; "gt"] in
       do* value := lift (psnr trainer (unsqueeze0 (unsqueeze0 preds))
                            (unsqueeze0 (unsqueeze0 gt))) in
       log "val/reconstruction" value
     else
       do* mask := lift (bview (valid_rays trainer)
                           (map Z.of_nat (projection_shape self))) in
       do* preds := lift (masked_assign (zeros (projection_shape self)) mask
                            all_preds) in
       do* gt := lift (masked_assign (zeros (projection_shape self)) mask
                         all_gt) in
       do* high := lift (shape_at (projection_shape self) 0) in
       do* _ := lift (if (high =? 0)%nat then Raise (ValueError "high <= 0")
                      else Ok tt) in
       do* _ := log_projections preds gt (randint trainer) in
       do* outputs := lift (
         let* n := shape_at (shape vol) 0 in
         let mgrid := meshgrid3 n in
         let* n2 := shape_at (shape vol) 2 in
         let* mgrid := view mgrid [-1; Z.of_nat n2; 3]%Z in
         let* m0 := shape_at (shape mgrid) 0 in
         let* m1 := shape_at (shape mgrid) 1 in
         let outputs := zeros [m0; m1; 1%nat] in
         let* outputs := reconstruct self mgrid outputs (seq 0 m1) in
         view outputs (map Z.of_nat vol_shape)) in
       do* rec_loss := lift (loss_fn outputs vol) in
       do* _ := log "val/loss_reconstruction" rec_loss in
       do* imgs := lift (
         let* n2 := shape_at vol_shape 2 in
         let* xy := slice_triplet outputs vol 0 (n2 / 2) in
         let* yz := slice_triplet outputs vol 1 (n2 / 2) in
         let* xz := slice_triplet outputs vol 2 (n2 / 2) in
         Ok (xy ++ yz ++ xz)) in
       log_image "val/reconstruction" imgs
         ["pred_xy"; "gt_xy"; "residual_xy";
          "pred_yz"; "gt_yz"; "residual_yz";
          "pred_xz"; "gt_xz"; "residual_xz"]) in
  do* _ := clear_outputs in
  clear_gt.

(** ** [lr_lambda], [test_step], [configure_optimizers]
       (lines 67-71 and 276-290) *)

(** [0.97 ** (epoch - 50)] is only evaluated for [epoch > 50].  The power is
    the one of the real numbers: the Python float underflows to [0.0] from
    epoch 24514 on, so the statements on this definition claim no strict
    positivity. *)
Definition lr_lambda (epoch : Z) : R :=
  if (epoch <=? 50)%Z then 1 else 0.97 ^ Z.to_nat (epoch - 50).

Definition test_step (self : MLP) (batch : Batch) (batch_idx : nat)
  : option unit := None.

(** What [configure_optimizers] hands to the trainer: the arguments of
    [torch.optim.AdamW] and of [CosineAnnealingWarmRestarts], and the
    stepping interval. *)
Record Optimizer : Type := mkOptimizer {
  optimizer_class : string;
  optimizer_lr : R;
  amsgrad : bool
}.

Record Scheduler : Type := mkScheduler {
  scheduler_class : string;
  T_0 : nat;
  T_mult : nat;
  interval : string
}.

Definition configure_optimizers (self : MLP) : Optimizer * Scheduler :=
  let optimizer := mkOptimizer "AdamW" (lr self) true in
  let lr_scheduler :=
    if imagefit_mode self
    then mkScheduler "CosineAnnealingWarmRestarts" 10 2 "epoch"
    else mkScheduler "CosineAnnealingWarmRestarts" 50 2 "epoch" in
  (optimizer, lr_scheduler).

(** * The arithmetic of the program: binary32 *)

(** The float tensors of the program hold IEEE 754 binary32 numbers.  The
    definitions above compute with real numbers, which is what the algebra of
    the statements needs.  Where a statement of the specification depends on
    rounding or on saturation, the same code is read here over binary32,
    every operation rounded to nearest with ties to even ([SpecFloat] with
    precision 24 and [emax] 128). *)


































(** * Vocabulary of the statements *)

(** ** Module trees *)

(** The linear layers of a module tree, in the order of the tree. *)
Fixpoint linears (m : Module) : list Linear :=
  match m with
  | MLinear l => [l]
  | MActivation _ => []
  | MSequential children => flat_map linears children
  end.

(** Everything of a module tree except the entries of the weight tensors:
    the structure, the activations, the sizes, the weight shapes and the
    bias tensors. *)
Fixpoint frame (m : Module) : Module :=
  match m with
  | MLinear l =>
      MLinear (mkLinear (in_features l) (out_features l)
                 (mkTensor (shape (weight l)) []) (bias l))
  | MActivation a => MActivation a
  | MSequential children => MSequential (map frame children)
  end.

Definition frame_linear (l : Linear) : Linear :=
  mkLinear (in_features l) (out_features l) (mkTensor (shape (weight l)) [])
    (bias l).

Definition preserves_frame
    (fn : Module -> Generator -> Result (Module * Generator)) : Prop :=
  forall m g r, fn m g = Ok r -> frame (fst r) = frame m.


(** The network assembled at line 115. *)
Definition assembled (first : Linear) (act : Activation) (layers : list Module)
    (last : Linear) : Module :=
  MSequential (MLinear first :: MActivation act :: layers
               ++ [MLinear last; MActivation Sigmoid]).

(** A linear layer whose weight tensor has the shape the constructor gives
    it, and one with one bias entry per output. *)
Definition shaped (l : Linear) : Prop :=
  shape (weight l) = [out_features l; in_features l].

Definition biased (l : Linear) : Prop :=
  length (data (bias l)) = out_features l.

(** Width of the last dimension after a module, for an input of width [w];
    [None] where a linear layer would reject its input. *)
Fixpoint sequential_width (f : Module -> nat -> option nat)
    (children : list Module) (w : nat) : option nat :=
  match children with
  | [] => Some w
  | c :: children' =>
      match f c w with
      | Some w' => sequential_width f children' w'
      | None => None
      end
  end.

Fixpoint width (m : Module) (w : nat) : option nat :=
  match m with
  | MLinear l => if (w =? in_features l)%nat then Some (out_features l) else None
  | MActivation _ => Some w
  | MSequential children => sequential_width width children w
  end.

(** What a module tree computes from one row of its input, taken alone. *)
Fixpoint sequential_row (f : Module -> list R -> list R)
    (children : list Module) (x : list R) : list R :=
  match children with
  | [] => x
  | c :: children' => sequential_row f children' (f c x)
  end.

Fixpoint module_row (m : Module) (x : list R) : list R :=
  match m with
  | MLinear l => linear_row l x
  | MActivation a => map (activation_apply a) x
  | MSequential children => sequential_row module_row children x
  end.

(** Induction on module trees, with the hypothesis on every child of a
    [Sequential]. *)
Section ModuleInduction.
Variable P : Module -> Prop.
Hypothesis HLinear : forall l, P (MLinear l).
Hypothesis HActivation : forall a, P (MActivation a).
Hypothesis HSequential : forall cs, Forall P cs -> P (MSequential cs).

Fixpoint Module_tree_ind (m : Module) : P m :=
  match m with
  | MLinear l => HLinear l
  | MActivation a => HActivation a
  | MSequential cs =>
      HSequential cs
        ((fix all (cs : list Module) : Forall P cs :=
            match cs with
            | [] => Forall_nil P
            | c :: cs' => Forall_cons c (Module_tree_ind c) (all cs')
            end) cs)
  end.
End ModuleInduction.

(** ** Bounds *)



Definition within (c : R) (w : R) : Prop := - c <= w <= c.

(** A generator whose uniform draws lie in [[0,1)]. *)
Definition fair (g : Generator) : Prop :=
  forall i : nat, 0 <= uniform_draw g i < 1.

(** The bound of [sine_init] for a layer, and of [first_layer_sine_init]. *)
Definition sine_bound (l : Linear) : R := sqrt (6 / INR (in_features l)) / 30.

Definition first_layer_bound (l : Linear) : R := 1 / INR (in_features l).

Definition weights_within (bound : Linear -> R) (l : Linear) : Prop :=
  Forall (within (bound l)) (data (weight l)).

(** ** Step actions *)

(** Step actions that leave both validation buffers as they are, step
    actions that always end in an exception, and those that do both. *)
Definition keeps_buffers {A : Type} (m : Step A) : Prop :=
  forall s, validation_step_outputs (snd (m s)) = validation_step_outputs s
            /\ validation_step_gt (snd (m s)) = validation_step_gt s.

Definition raises {A : Type} (m : Step A) : Prop :=
  forall s, is_ok (fst (m s)) = false.

Definition aborts {A : Type} (m : Step A) : Prop :=
  raises m /\ keeps_buffers m.

(** The entry logged by the loop of lines 249-250 for the draw [i], on
    predictions and ground truth of shape [n0 :: rest]: the slices
    [preds[i]] and [gt[i]] and the residual [gt[i] - preds[i]], captioned
    with the index. *)
Definition projection_images (preds gt : Tensor) (n0 : nat) (rest : list nat)
    (i : nat) : LogEvent :=
  let p := nth i (chunks n0 (numel rest) (data preds)) [] in
  let g := nth i (chunks n0 (numel rest) (data gt)) [] in
  LogImage "val/projection"
    [mkTensor rest p; mkTensor rest g;
     mkTensor rest (map (fun q => fst q - snd q) (combine g p))]
    (projection_captions i).

(** ** The projection objective as the specification words it *)

(** On the density samples [rows] (one list per ray), the ray lengths and
    the targets: the integrated detector values, the mean squared error,
    and the mean absolute difference of adjacent samples of a ray. *)
Definition detector_values (rows : list (list R)) (lengths : list R) : list R :=
  map (fun p => quadrature (INR (length (fst p))) (fst p) (snd p))
    (combine rows lengths).

Definition mean_squared_error (pred tgt : list R) : R :=
  mean (map (fun i => (nth i pred 0 - nth i tgt 0) ^ 2) (seq 0 (length pred))).

Definition adjacent_differences (row : list R) : list R :=
  map (fun i => Rabs (nth (S i) row 0 - nth i row 0)) (seq 0 (length row - 1)).

Definition mean_adjacent_difference (rows : list (list R)) : R :=
  mean (flat_map adjacent_differences rows).

(** A ray given as the list of its [M] sample points, and its length: the
    Euclidean distance between its first and its last point. *)
Definition is_ray (M : nat) (ray : list (list R)) : Prop :=
  length ray = M /\ Forall (fun p => length p = 3%nat) ray.

Definition ray_length (ray : list (list R)) : R :=
  sqrt (sum (map (fun q => (fst q - snd q) * (fst q - snd q))
               (combine (nth (length ray - 1) ray []) (nth 0 ray [])))).

(** * Inputs on which the statements are exercised *)

Definition example_generator : Generator :=
  mkGenerator (fun _ => 1 / 2) (fun _ => 0) 0.

(** One hidden block of width 2, latent vectors of size 2, no encoder. *)
Definition example_args (activation : string) (imagefit : bool) : Config :=
  Args.mkConfig (1 / 1000) imagefit (1 / 10) "cpu" 0 1 2 activation 2 None.

(** The same with hidden width [H] and latent size [L]. *)
Definition example_config (activation : string) (imagefit : bool) (H L : nat)
  : Config :=
  Args.mkConfig (1 / 1000) imagefit (1 / 10) "cpu" 0 1 H activation L None.

Definition no_encoder : string -> Result Encoder :=
  fun _ => Raise (ValueError "no encoder registered").

(** A validation set of one voxel and two rays, and a state after one
    validation batch of two rays. *)
Definition example_trainer : Trainer :=
  mkTrainer (mkTensor [1; 1; 1]%nat [1 / 2])
    (mkBTensor [2]%nat [true; true]) [0; 0; 0; 0; 0]%nat
    (fun _ _ => Ok 0).

Definition example_mut : Mut :=
  mkMut [mkTensor [2]%nat [1; 2]] [mkTensor [2]%nat [3; 4]] None [].

(** A validation set whose volume has the shape [2; 1; 2], the state after
    one imagefit batch that covers it, and an imagefit batch. *)
Definition example_volume_trainer : Trainer :=
  mkTrainer (mkTensor [2; 1; 2]%nat [0; 1; 0; 1])
    (mkBTensor [0]%nat []) [] (fun _ _ => Ok 0).

Definition example_volume_mut : Mut :=
  mkMut [mkTensor [2; 1; 2]%nat [1 / 2; 1 / 2; 1 / 2; 1 / 2]]
    [mkTensor [2; 1; 2]%nat [0; 1; 0; 1]] None [].

Definition example_imagefit_batch : Batch :=
  mkBatch (mkTensor [1; 1; 2; 3]%nat [0; 0; 0; 1; 1; 1])
    (mkTensor [1; 1; 2]%nat [0; 1]) (mkITensor [1]%nat [0%Z]).

(** A projection batch of one ray with two samples; the index tensor has
    no column, so that nothing is prepended to the coordinates. *)
Definition example_projection_batch : Batch :=
  mkBatch (mkTensor [1; 2; 3]%nat [0; 0; 0; 0; 0; 1])
    (mkTensor [1]%nat [1 / 2]) (mkITensor [2; 0]%nat []).

(** The same ray with its volume index, one index per ray. *)
Definition example_indexed_projection_batch : Batch :=
  mkBatch (mkTensor [1; 2; 3]%nat [0; 0; 0; 0; 0; 1])
    (mkTensor [1]%nat [1 / 2]) (mkITensor [1]%nat [0%Z]).

(** Evaluation of the model on such inputs: everything is computed except
    the arithmetic of the real numbers. *)
Ltac run :=
  lazy -[sqrt exp sin tanh INR IZR Rdiv Rminus Rmax Rmin Rinv Rplus Rmult Ropp
         Rabs].

(** * Properties *)

(** ** Activation catalogue *)

(** C6: for each of the seven supported names (identity is spelled [none])
    [get_activation_function] returns the corresponding unary transform, the
    sine transform being [sin (30 * x)]; for every other name it raises a
    [ValueError] (the error the specification calls UnsupportedActivation)
    whose message ends with the offending name. *)
Theorem get_activation_function_catalogue :
  forall (name : string) (args_dict : Config),
    get_activation_function name args_dict =
      match lookup_activation name supported_activations with
      | Some a => Ok a
      | None =>
          Raise (ValueError ("Unknown activation function: " ++ name)%string)
      end
    /\ (get_activation_function "sine" args_dict = Ok Sine
        /\ forall x : R, activation_apply Sine x = sin (30 * x)).
Proof.
  intros name args_dict. split.
  - unfold get_activation_function, supported_activations, lookup_activation.
    destruct (name =? "none")%string eqn:Hnone.
    + apply String.eqb_eq in Hnone. subst name. reflexivity.
    + repeat match goal with
             | |- context [(name =? ?k)%string] =>
                 destruct (name =? k)%string; try reflexivity
             end.
  - split; [reflexivity | intros x; reflexivity].
Qed.

(** ** The forward model *)

Lemma bind_ok {A B : Type} (r : Result A) (k : A -> Result B) (b : B) :
  bind r k = Ok b -> exists a, r = Ok a /\ k a = Ok b.
Proof.
  destruct r as [a | e]; simpl; intros H; [eauto | discriminate].
Qed.






(** C1: [forward] has no path for a missing latent tensor.  With [None] as
    second argument the concatenation of line 144 raises, whatever the module
    and the coordinates; the call with a single argument (line 258) is
    rejected before the body runs.  So no output of shape [B; 1] or
    [B; R; 1] is returned. *)
Theorem forward_without_latent_raises :
  forall (self : MLP) (pts : Tensor),
    is_ok (forward self pts None) = false
    /\ is_ok (forward_missing_vecs self pts) = false.
Proof.
  intros self pts. split; [| reflexivity].
  unfold forward.
  destruct (if (2 <? length (shape pts))%nat then view pts [-1; 3]%Z else Ok pts)
    as [pts' | e]; [| reflexivity].
  simpl.
  destruct (match encoder self with Some e => encode e pts' | None => Ok pts' end)
    as [enc | e]; reflexivity.
Qed.

(** ** Initialisation: what [Module.apply] preserves *)

Lemma sine_init_preserves_frame : preserves_frame sine_init.
Proof.
  intros m g r H. destruct m as [l | a | cs]; simpl in H;
    try (injection H as <-; reflexivity).
  apply bind_ok in H as (n & _ & H).
  destruct (n =? 0)%nat; [discriminate |].
  injection H as <-. reflexivity.
Qed.

Lemma first_layer_sine_init_preserves_frame :
  preserves_frame first_layer_sine_init.
Proof.
  intros m g r H. destruct m as [l | a | cs]; simpl in H;
    try (injection H as <-; reflexivity).
  apply bind_ok in H as (n & _ & H).
  destruct (n =? 0)%nat; [discriminate |].
  injection H as <-. reflexivity.
Qed.

Lemma module_apply_preserves_frame
    (fn : Module -> Generator -> Result (Module * Generator)) :
  preserves_frame fn -> preserves_frame (module_apply fn).
Proof.
  intros Hfn m. induction m as [l | a | cs IH] using Module_tree_ind;
    intros g r H.
  - exact (Hfn _ _ _ H).
  - exact (Hfn _ _ _ H).
  - simpl in H. apply bind_ok in H as (r0 & Heach & H).
    apply Hfn in H. rewrite H. simpl. f_equal.
    clear H r. revert g r0 Heach.
    induction IH as [| c cs Hc _ IHcs]; intros g r0 Heach.
    + injection Heach as <-. reflexivity.
    + apply bind_ok in Heach as (r1 & H1 & Heach).
      apply bind_ok in Heach as (r2 & H2 & Heach).
      injection Heach as <-. simpl.
      rewrite (Hc _ _ H1), (IHcs _ _ H2). reflexivity.
Qed.

Lemma apply_first_preserves_frame
    (fn : Module -> Generator -> Result (Module * Generator)) :
  preserves_frame fn -> preserves_frame (apply_first fn).
Proof.
  intros Hfn m g r H. destruct m as [l | a | [| c cs]]; try discriminate.
  simpl in H. apply bind_ok in H as (r1 & H1 & H).
  injection H as <-. simpl.
  rewrite (module_apply_preserves_frame fn Hfn _ _ _ H1). reflexivity.
Qed.



Lemma linears_frame (m : Module) :
  linears (frame m) = map frame_linear (linears m).
Proof.
  induction m as [l | a | cs IH] using Module_tree_ind; try reflexivity.
  simpl. induction IH as [| c cs Hc _ IHcs]; simpl; [reflexivity |].
  rewrite map_app, Hc, IHcs. reflexivity.
Qed.

Lemma frame_linears (m m' : Module) :
  frame m' = frame m ->
  map frame_linear (linears m') = map frame_linear (linears m).
Proof.
  intros H. rewrite <- !linears_frame, H. reflexivity.
Qed.

(** ** Initialisation: the constructor *)

Lemma Linear_new_shaped (fin fout : nat) (g : Generator) :
  shaped (fst (Linear_new fin fout g))
  /\ in_features (fst (Linear_new fin fout g)) = fin
  /\ uniform_draw (snd (Linear_new fin fout g)) = uniform_draw g.
Proof.
  unfold Linear_new.
  destruct (numel [fout; fin] =? 0)%nat; simpl; repeat split.
Qed.

Lemma hidden_layers_shaped (n : nat) (args_dict : Config) (g : Generator)
    (r : list Module * Generator) :
  hidden_layers n args_dict g = Ok r ->
  Forall shaped (flat_map linears (fst r))
  /\ uniform_draw (snd r) = uniform_draw g.
Proof.
  revert g r. induction n as [| n IH]; intros g r H; simpl in H.
  - injection H as <-. split; [constructor | reflexivity].
  - destruct (Linear_new _ _ g) as [l g1] eqn:Hl.
    apply bind_ok in H as (a & _ & H).
    apply bind_ok in H as (r' & Hr' & H).
    injection H as <-. simpl.
    destruct (IH _ _ Hr') as (Hs & Hu).
    pose proof (Linear_new_shaped (Args.num_hidden_features args_dict)
                  (Args.num_hidden_features args_dict) g) as (Hsh & _ & Hg).
    rewrite Hl in Hsh, Hg. simpl in Hsh, Hg.
    split; [constructor; assumption | congruence].
Qed.

Lemma MLP_init_inv (get_encoder : string -> Result Encoder)
    (args_dict : Config) (pshape : list nat) (num_volumes : nat)
    (g g' : Generator) (self : MLP) (mut : Mut) :
  MLP_init get_encoder args_dict pshape num_volumes g = Ok (self, mut, g') ->
  exists first act layers last g0,
    Forall shaped (linears (assembled first act layers last))
    /\ uniform_draw g0 = uniform_draw g
    /\ mut = mkMut [] [] None []
    /\ imagefit_mode self = Args.imagefit_mode args_dict
    /\ if (Args.activation_function args_dict =? "sine")%string then
         exists r1,
           module_apply sine_init (assembled first act layers last) g0 = Ok r1
           /\ apply_first first_layer_sine_init (fst r1) (snd r1)
              = Ok (mlp self, g')
       else mlp self = assembled first act layers last.
Proof.
  unfold MLP_init. intros H.
  apply bind_ok in H as (enc & _ & H).
  apply bind_ok in H as (lat & Hlat & H).
  destruct lat as [[lv nin] g1].
  assert (Hg1 : uniform_draw g1 = uniform_draw g).
  { destruct (Args.imagefit_mode args_dict).
    - destruct (Embedding_new _ _ g) as [emb ge] eqn:He.
      destruct (Args.latent_size args_dict =? 0)%nat; [discriminate |].
      unfold Embedding_new, normal_ in He. injection He as <- <-.
      unfold normal_ in Hlat. injection Hlat as _ _ <-. reflexivity.
    - injection Hlat as _ _ <-. reflexivity. }
  apply bind_ok in H as (layers & Hlayers & H).
  destruct (Linear_new nin _ (snd layers)) as [first g2] eqn:Hfirst.
  apply bind_ok in H as (act & _ & H).
  destruct (Linear_new _ 1 g2) as [last g3] eqn:Hlast.
  apply bind_ok in H as (r & Hr & H).
  injection H as <- <- <-.
  exists first, act, (fst layers), last, g3.
  destruct (hidden_layers_shaped _ _ _ _ Hlayers) as (Hsh & Hu).
  pose proof (Linear_new_shaped nin (Args.num_hidden_features args_dict)
                (snd layers)) as (Hs1 & _ & Hu1).
  pose proof (Linear_new_shaped (Args.num_hidden_features args_dict) 1 g2)
    as (Hs2 & _ & Hu2).
  rewrite Hfirst in Hs1, Hu1. rewrite Hlast in Hs2, Hu2. simpl in *.
  repeat split.
  - constructor; [exact Hs1 |]. rewrite flat_map_app. simpl.
    apply Forall_app. split; [exact Hsh | constructor; [exact Hs2 | constructor]].
  - congruence.
  - destruct (Args.activation_function args_dict =? "sine")%string.
    + apply bind_ok in Hr as (r1 & Hr1 & Hr).
      exists r1. split; [exact Hr1 |].
      rewrite Hr. destruct r; reflexivity.
    + injection Hr as <-. reflexivity.
Qed.





(** ** Saturation of the sigmoid on binary32 *)












(** ** Sine initialisation *)

Lemma uniform_between (t : Tensor) (from to : R) (g : Generator) :
  fair g -> from <= to ->
  Forall (fun w => from <= w <= to) (data (fst (uniform_ t from to g))).
Proof.
  intros Hg Hle. unfold uniform_. simpl.
  apply Forall_forall. intros w Hw.
  apply in_map_iff in Hw as (i & <- & _).
  specialize (Hg (position g + i)%nat). nra.
Qed.

Lemma uniform_within (t : Tensor) (c : R) (g : Generator) :
  fair g -> 0 <= c ->
  Forall (within c) (data (fst (uniform_ t (- c) c g))).
Proof.
  intros Hg Hc. apply (uniform_between t (- c) c g Hg). lra.
Qed.

Lemma size_last_shaped (l : Linear) :
  shaped l -> size_last (weight l) = Ok (in_features l).
Proof.
  unfold shaped, size_last. intros ->. reflexivity.
Qed.

Lemma sine_bound_nonneg (l : Linear) : 0 <= sine_bound l.
Proof.
  unfold sine_bound. pose proof (sqrt_pos (6 / INR (in_features l))). lra.
Qed.

Lemma first_layer_bound_nonneg (l : Linear) : 0 <= first_layer_bound l.
Proof.
  unfold first_layer_bound.
  destruct (in_features l) as [| n].
  - simpl. unfold Rdiv. rewrite Rinv_0. lra.
  - apply Rlt_le, Rdiv_lt_0_compat; [lra | apply lt_0_INR; lia].
Qed.

Lemma sine_init_linear (l : Linear) (g : Generator)
    (r : Module * Generator) :
  fair g -> shaped l -> sine_init (MLinear l) g = Ok r ->
  fair (snd r)
  /\ exists l', fst r = MLinear l' /\ shaped l' /\ weights_within sine_bound l'.
Proof.
  intros Hg Hl H. simpl in H. rewrite (size_last_shaped l Hl) in H. simpl in H.
  destruct (in_features l =? 0)%nat; [discriminate |].
  injection H as <-. simpl. split; [exact (fun i => Hg i) |].
  eexists. split; [reflexivity |]. split; [exact Hl |].
  unfold weights_within, sine_bound. simpl.
  replace (- sqrt (6 / INR (in_features l)) / 30)
    with (- (sqrt (6 / INR (in_features l)) / 30)) by lra.
  apply (uniform_within (weight l) _ g Hg).
  apply (sine_bound_nonneg l).
Qed.

Lemma first_layer_sine_init_linear (l : Linear) (g : Generator)
    (r : Module * Generator) :
  fair g -> shaped l -> first_layer_sine_init (MLinear l) g = Ok r ->
  exists l', fst r = MLinear l' /\ weights_within first_layer_bound l'.
Proof.
  intros Hg Hl H. simpl in H. rewrite (size_last_shaped l Hl) in H. simpl in H.
  destruct (in_features l =? 0)%nat; [discriminate |].
  injection H as <-. simpl.
  eexists. split; [reflexivity |].
  unfold weights_within, first_layer_bound. simpl.
  replace (- 1 / INR (in_features l)) with (- (1 / INR (in_features l))) by lra.
  apply (uniform_within (weight l) _ g Hg).
  apply (first_layer_bound_nonneg l).
Qed.

Section ApplyLinears.
Variable fn : Module -> Generator -> Result (Module * Generator).
Variables Pre Post : Linear -> Prop.
Hypothesis fn_linear :
  forall l g r, fair g -> Pre l -> fn (MLinear l) g = Ok r ->
                fair (snd r) /\ exists l', fst r = MLinear l' /\ Post l'.
Hypothesis fn_activation :
  forall a g r, fn (MActivation a) g = Ok r -> r = (MActivation a, g).
Hypothesis fn_sequential :
  forall cs g r, fn (MSequential cs) g = Ok r -> r = (MSequential cs, g).

Lemma module_apply_linears (m : Module) :
  forall g r, fair g -> Forall Pre (linears m) ->
              module_apply fn m g = Ok r ->
              fair (snd r) /\ Forall Post (linears (fst r)).
Proof.
  induction m as [l | a | cs IH] using Module_tree_ind;
    intros g r Hg Hpre H.
  - simpl in H, Hpre. apply Forall_inv in Hpre.
    destruct (fn_linear l g r Hg Hpre H) as (Hg' & l' & -> & Hpost).
    split; [exact Hg' | simpl; constructor; [exact Hpost | constructor]].
  - simpl in H. apply fn_activation in H. subst r.
    split; [exact Hg | constructor].
  - simpl in H. apply bind_ok in H as (r0 & Heach & H).
    apply fn_sequential in H. subst r. simpl.
    simpl in Hpre. clear -IH Hg Hpre Heach fn_linear.
    revert g r0 Hg Hpre Heach.
    induction IH as [| c cs Hc _ IHcs]; intros g r0 Hg Hpre Heach.
    + injection Heach as <-. split; [exact Hg | constructor].
    + apply bind_ok in Heach as (r1 & H1 & Heach).
      apply bind_ok in Heach as (r2 & H2 & Heach).
      injection Heach as <-. simpl in Hpre |- *.
      apply Forall_app in Hpre as (Hpc & Hpcs).
      destruct (Hc _ _ Hg Hpc H1) as (Hg1 & Hq1).
      destruct (IHcs _ _ Hg1 Hpcs H2) as (Hg2 & Hq2).
      split; [exact Hg2 | apply Forall_app; split; assumption].
Qed.
End ApplyLinears.

Lemma module_apply_sine_init (m : Module) (g : Generator)
    (r : Module * Generator) :
  fair g -> Forall shaped (linears m) ->
  module_apply sine_init m g = Ok r ->
  fair (snd r)
  /\ Forall (fun l => shaped l /\ weights_within sine_bound l) (linears (fst r)).
Proof.
  apply (module_apply_linears sine_init shaped
           (fun l => shaped l /\ weights_within sine_bound l)).
  - intros l g0 r0 Hg Hl H. exact (sine_init_linear l g0 r0 Hg Hl H).
  - intros a g0 r0 H. injection H as <-. reflexivity.
  - intros cs g0 r0 H. injection H as <-. reflexivity.
Qed.

Lemma fair_same_stream (g g0 : Generator) :
  uniform_draw g0 = uniform_draw g -> fair g -> fair g0.
Proof.
  unfold fair. intros -> H. exact H.
Qed.

(** C5: with the sine activation, and uniform draws in [[0,1)], after
    construction the weights of the first linear layer lie within
    [1 / fan_in] of zero and the weights of every other linear layer within
    [sqrt (6 / fan_in) / 30], [fan_in] being the layer's number of inputs. *)
Theorem sine_initialised_weights_bounded :
  forall (get_encoder : string -> Result Encoder) (args_dict : Config)
         (pshape : list nat) (num_volumes : nat) (g g' : Generator)
         (self : MLP) (mut : Mut),
    Args.activation_function args_dict = "sine" ->
    fair g ->
    MLP_init get_encoder args_dict pshape num_volumes g = Ok (self, mut, g') ->
    exists (first : Linear) (rest : list Linear),
      linears (mlp self) = first :: rest
      /\ weights_within first_layer_bound first
      /\ Forall (weights_within sine_bound) rest.
Proof.
  intros get_encoder args_dict pshape num_volumes g g' self mut Hact Hg Hinit.
  apply MLP_init_inv in Hinit
    as (first & act & layers & last & g0 & Hsh & Hu & _ & _ & H).
  rewrite Hact, String.eqb_refl in H. destruct H as (r1 & H1 & H2).
  pose proof (fair_same_stream g g0 Hu Hg) as Hg0.
  destruct (module_apply_sine_init _ _ _ Hg0 Hsh H1) as (Hg1 & Hall).
  pose proof (module_apply_preserves_frame _ sine_init_preserves_frame _ _ _ H1)
    as Hframe.
  destruct r1 as [m1 g1]. simpl in *.
  destruct m1 as [l | a | [| c1 cs1]]; try discriminate.
  destruct c1 as [l1 | a | ds]; try discriminate.
  simpl in H2. apply bind_ok in H2 as (r2 & Hr2 & H2).
  injection H2 as H2 _. simpl in Hall.
  apply Forall_inv in Hall as Hl1. destruct Hl1 as (Hl1 & _).
  apply Forall_inv_tail in Hall.
  destruct (first_layer_sine_init_linear l1 g1 r2 Hg1 Hl1 Hr2)
    as (l' & Hl' & Hbound).
  exists l', (flat_map linears cs1).
  rewrite <- H2, Hl'. simpl. repeat split; [exact Hbound |].
  eapply Forall_impl; [| exact Hall]. intros l (_ & Hw). exact Hw.
Qed.

Lemma sine_initialised_weights_bounded_witness :
  exists (self : MLP) (mut : Mut) (g' : Generator),
    fair example_generator
    /\ MLP_init no_encoder (example_args "sine" false) [4; 4]%nat 1
         example_generator = Ok (self, mut, g')
    /\ length (linears (mlp self)) = 3%nat
    /\ exists (first : Linear) (rest : list Linear),
         linears (mlp self) = first :: rest
         /\ weights_within first_layer_bound first
         /\ Forall (weights_within sine_bound) rest.
Proof.
  assert (Hfair : fair example_generator).
  { intros i. simpl. lra. }
  do 3 eexists. split; [exact Hfair |].
  split; [run; reflexivity |]. split; [reflexivity |].
  match goal with
  | |- exists first rest, linears (mlp ?s) = _ /\ _ => set (self := s)
  end.
  refine (sine_initialised_weights_bounded no_encoder
            (example_args "sine" false) [4; 4]%nat 1%nat example_generator _
            self _ eq_refl Hfair _).
  run. reflexivity.
Defined.

(** ** The constructor succeeds on sensible configurations *)

Lemma sine_init_succeeds (m : Module) (g : Generator) :
  Forall (fun l => shaped l /\ in_features l <> 0%nat) (linears m) ->
  exists r, module_apply sine_init m g = Ok r.
Proof.
  revert g. induction m as [l | a | cs IH] using Module_tree_ind; intros g Hall.
  - simpl in Hall. apply Forall_inv in Hall as (Hs & Hn).
    simpl. rewrite (size_last_shaped l Hs). simpl.
    apply Nat.eqb_neq in Hn. rewrite Hn. eauto.
  - simpl. eauto.
  - simpl in Hall |- *.
    assert (Heach : exists r0,
               apply_children (module_apply sine_init) cs g = Ok r0).
    { revert g Hall. induction IH as [| c cs Hc _ IHcs]; intros g Hall.
      - simpl. eauto.
      - simpl in Hall. apply Forall_app in Hall as (Hc' & Hcs').
        simpl. destruct (Hc g Hc') as (r1 & ->). simpl.
        destruct (IHcs (snd r1) Hcs') as (r2 & ->).
        simpl. eauto. }
    destruct Heach as (r0 & ->). simpl. eauto.
Qed.

Lemma hidden_layers_succeed (n : nat) (args_dict : Config) (g : Generator)
    (a : Activation) :
  get_activation_function (Args.activation_function args_dict) args_dict = Ok a ->
  exists r,
    hidden_layers n args_dict g = Ok r
    /\ Forall (fun l => in_features l = Args.num_hidden_features args_dict)
         (flat_map linears (fst r)).
Proof.
  intros Ha. revert g. induction n as [| n IH]; intros g; simpl.
  - eexists. split; [reflexivity | constructor].
  - destruct (Linear_new _ _ g) as [l g1] eqn:Hl.
    rewrite Ha. simpl.
    destruct (IH g1) as (r & -> & Hall). simpl.
    eexists. split; [reflexivity |]. simpl. constructor; [| exact Hall].
    pose proof (Linear_new_shaped (Args.num_hidden_features args_dict)
                  (Args.num_hidden_features args_dict) g) as (_ & Hin & _).
    rewrite Hl in Hin. exact Hin.
Qed.

Lemma MLP_init_sine_succeeds (get_encoder : string -> Result Encoder)
    (args_dict : Config) (pshape : list nat) (num_volumes : nat)
    (g : Generator) :
  Args.activation_function args_dict = "sine" ->
  Args.encoder args_dict = None ->
  Args.imagefit_mode args_dict = false ->
  (1 <= Args.num_hidden_features args_dict)%nat ->
  exists self mut g',
    MLP_init get_encoder args_dict pshape num_volumes g = Ok (self, mut, g').
Proof.
  intros Hact Henc Hmode HH. unfold MLP_init.
  rewrite Henc, Hmode. cbn [bind].
  assert (Ha : get_activation_function (Args.activation_function args_dict)
                 args_dict = Ok Sine) by (rewrite Hact; reflexivity).
  destruct (hidden_layers_succeed (Args.num_hidden_layers args_dict) args_dict
              g Sine Ha) as (layers & Hlayers & Hin).
  rewrite Hlayers. cbn [bind].
  destruct (Linear_new 3 _ (snd layers)) as [first g2] eqn:Hfirst.
  rewrite Ha. cbn [bind].
  destruct (Linear_new _ 1 g2) as [last g3] eqn:Hlast.
  rewrite Hact, String.eqb_refl.
  pose proof (Linear_new_shaped 3 (Args.num_hidden_features args_dict)
                (snd layers)) as (Hs1 & Hi1 & _).
  pose proof (Linear_new_shaped (Args.num_hidden_features args_dict) 1 g2)
    as (Hs2 & Hi2 & _).
  rewrite Hfirst in Hs1, Hi1. rewrite Hlast in Hs2, Hi2. simpl in Hs1, Hi1, Hs2, Hi2.
  destruct (hidden_layers_shaped _ _ _ _ Hlayers) as (Hsh & _).
  set (net := MSequential (MLinear first :: MActivation Sine :: fst layers
                           ++ [MLinear last; MActivation Sigmoid])).
  assert (Hall : Forall (fun l => shaped l /\ in_features l <> 0%nat)
                   (linears net)).
  { unfold net. simpl. constructor; [split; [exact Hs1 | lia] |].
    rewrite flat_map_app. apply Forall_app. split.
    - rewrite Forall_forall in Hsh, Hin |- *. intros l Hl.
      split; [apply Hsh; exact Hl | rewrite (Hin l Hl); lia].
    - simpl. constructor; [split; [exact Hs2 | lia] | constructor]. }
  destruct (sine_init_succeeds net g3 Hall) as (r1 & Hr1).
  rewrite Hr1. cbn [bind].
  pose proof (module_apply_preserves_frame _ sine_init_preserves_frame _ _ _ Hr1)
    as Hframe.
  destruct r1 as [m1 g4]. simpl in Hframe.
  destruct m1 as [l | a | [| c1 cs1]]; try discriminate.
  destruct c1 as [l1 | a | ds]; try discriminate.
  injection Hframe as Hin1 Hout1 Hshape1 Hbias1 _.
  cbn [fst snd apply_first module_apply first_layer_sine_init].
  assert (Hl1 : shaped l1).
  { unfold shaped in *. congruence. }
  rewrite (size_last_shaped l1 Hl1). cbn [bind].
  assert (Hn : (in_features l1 =? 0)%nat = false).
  { apply Nat.eqb_neq. lia. }
  rewrite Hn. unfold uniform_. cbn [bind fst snd]. eauto.
Qed.

(** C10: applying [sine_init] or [first_layer_sine_init] to a module tree
    changes nothing but entries of weight tensors; in particular every bias
    tensor is the one it was before. *)
Theorem sine_initialisation_keeps_biases :
  forall (m m' : Module) (g g' : Generator),
    module_apply sine_init m g = Ok (m', g')
    \/ module_apply first_layer_sine_init m g = Ok (m', g') ->
    frame m' = frame m
    /\ map bias (linears m') = map bias (linears m).
Proof.
  intros m m' g g' H.
  assert (Hframe : frame m' = frame m).
  { destruct H as [H | H].
    - exact (module_apply_preserves_frame _ sine_init_preserves_frame _ _ _ H).
    - exact (module_apply_preserves_frame _
               first_layer_sine_init_preserves_frame _ _ _ H). }
  split; [exact Hframe |].
  apply frame_linears in Hframe.
  apply (f_equal (map bias)) in Hframe.
  rewrite !map_map in Hframe. exact Hframe.
Qed.

Lemma sine_initialisation_keeps_biases_witness :
  exists (m' : Module) (g' : Generator),
    let m := MSequential
               [MLinear (mkLinear 2 1 (mkTensor [1; 2]%nat [5; 7])
                           (mkTensor [1]%nat [9]));
                MActivation Sine] in
    module_apply sine_init m example_generator = Ok (m', g')
    /\ frame m' = frame m
    /\ map bias (linears m') = map bias (linears m).
Proof.
  do 2 eexists. intros m.
  assert (H : module_apply sine_init m example_generator = Ok (_, _))
    by (run; reflexivity).
  split; [exact H |].
  exact (sine_initialisation_keeps_biases m _ example_generator _ (or_introl H)).
Defined.

(** ** Blocks of a contiguous tensor *)

Lemma firstn_block {A : Type} (k : nat) (r l : list A) :
  length r = k -> firstn k (r ++ l) = r.
Proof.
  intros <-. induction r as [| x r IH]; simpl; [reflexivity | now f_equal].
Qed.

Lemma skipn_block {A : Type} (k : nat) (r l : list A) :
  length r = k -> skipn k (r ++ l) = l.
Proof.
  intros <-. induction r as [| x r IH]; simpl; [reflexivity | exact IH].
Qed.

Lemma chunks_concat {A : Type} (k : nat) (rows : list (list A)) :
  Forall (fun r => length r = k) rows ->
  chunks (length rows) k (concat rows) = rows.
Proof.
  induction 1 as [| r rows Hr _ IH]; simpl; [reflexivity |].
  rewrite (firstn_block k r _ Hr), (skipn_block k r _ Hr), IH. reflexivity.
Qed.

Lemma chunks_singletons {A : Type} (l : list A) :
  chunks (length l) 1 l = map (fun x => [x]) l.
Proof.
  induction l as [| x l IH]; simpl; [reflexivity | now f_equal].
Qed.

Lemma concat_singletons {A B : Type} (f : A -> B) (l : list A) :
  concat (map (fun x => [f x]) l) = map f l.
Proof.
  induction l as [| x l IH]; simpl; [reflexivity | now f_equal].
Qed.

(** ** The ray integrator *)

Lemma bzip_row (f : R -> R -> R) (M : nat) (row : list R) (x : R) :
  length row = M ->
  bzip f [M] [1%nat] row [x] = map (fun a => f a x) row.
Proof.
  intros Hlen. simpl.
  destruct (M =? 1)%nat eqn:HM.
  - apply Nat.eqb_eq in HM. subst M.
    destruct row as [| a [| b row]]; try discriminate. reflexivity.
  - rewrite <- Hlen, chunks_singletons, map_map. simpl.
    apply concat_singletons.
Qed.

Lemma bzip_rows (f : R -> R -> R) (M : nat) (rows : list (list R))
    (xs : list R) :
  Forall (fun r => length r = M) rows ->
  length xs = length rows ->
  bzip f [length rows; M] [length rows; 1%nat] (concat rows) xs
  = concat (map (fun p => map (fun a => f a (snd p)) (fst p)) (combine rows xs)).
Proof.
  intros Hrows Hxs.
  cbn [bzip]. rewrite Nat.eqb_refl.
  change (numel [M]) with (M * 1)%nat. rewrite Nat.mul_1_r.
  rewrite (chunks_concat M rows Hrows).
  change (numel [1%nat]) with 1%nat.
  rewrite <- Hxs, chunks_singletons. f_equal.
  clear Hxs. revert xs.
  induction Hrows as [| r rows Hr _ IH]; intros xs; [reflexivity |].
  destruct xs as [| x xs]; [reflexivity |].
  cbn [map combine fst snd]. f_equal; [| apply IH].
  change (bzip f [M] [1%nat] r [x] = map (fun a => f a x) r).
  apply bzip_row. exact Hr.
Qed.

Lemma fold_vadd_singletons (row : list R) (acc : R) :
  fold_left vadd (map (fun x => [x]) row) [acc] = [fold_left Rplus row acc].
Proof.
  revert acc. induction row as [| x row IH]; intros acc; [reflexivity |].
  simpl. apply IH.
Qed.

Lemma sum_dim1_rows (M : nat) (rows : list (list R)) :
  Forall (fun r => length r = M) rows ->
  sum_dim1 (mkTensor [length rows; M] (concat rows))
  = Ok (mkTensor [length rows] (map sum rows)).
Proof.
  intros Hrows. unfold sum_dim1. cbn [shape data].
  change (numel []) with 1%nat. rewrite Nat.mul_1_r.
  rewrite (chunks_concat M rows Hrows).
  do 2 f_equal.
  induction Hrows as [| r rows Hr _ IH]; [reflexivity |].
  cbn [map concat]. rewrite IH. clear IH.
  rewrite <- Hr, chunks_singletons.
  change (repeat 0 1) with [0].
  rewrite fold_vadd_singletons. reflexivity.
Qed.

Lemma broadcast_column (B M : nat) :
  broadcast_shapes [B; M] [B; 1%nat] = Ok [B; M].
Proof.
  unfold broadcast_shapes. simpl. rewrite Nat.eqb_refl. simpl.
  destruct (M =? 1)%nat eqn:HM; [| reflexivity].
  apply Nat.eqb_eq in HM. subst M. reflexivity.
Qed.

Lemma fold_left_Rplus_acc (l : list R) (acc : R) :
  fold_left Rplus l acc = acc + fold_left Rplus l 0.
Proof.
  revert acc. induction l as [| x l IH]; intros acc; simpl; [lra |].
  rewrite (IH (acc + x)), (IH (0 + x)). lra.
Qed.

Lemma sum_cons (x : R) (l : list R) : sum (x :: l) = x + sum l.
Proof.
  unfold sum. simpl. rewrite fold_left_Rplus_acc. lra.
Qed.

Lemma sum_scaled (k : R) (l : list R) :
  sum (map (fun a => a * k) l) = sum l * k.
Proof.
  induction l as [| x l IH]; [unfold sum; simpl; lra |].
  cbn [map]. rewrite !sum_cons, IH. lra.
Qed.


(** The integrator on [B] rays of [M] samples each, as the code computes
    it: for every ray the sum of the products of its samples with the
    spacing [length / num_points]. *)
Lemma compute_projection_values_products (num_points : Z) (M : nat)
    (rows : list (list R)) (ls : list R) :
  Forall (fun r => length r = M) rows ->
  length ls = length rows ->
  compute_projection_values num_points
    (mkTensor [length rows; M] (concat rows)) (mkTensor [length rows] ls)
  = Ok (mkTensor [length rows]
          (map (fun p => sum (map (fun a => a * (snd p / IZR num_points))
                                (fst p)))
             (combine rows ls))).
Proof.
  intros Hrows Hls.
  unfold compute_projection_values, unsqueeze1, div_scalar, binop.
  cbn [shape data bind length Nat.max].
  rewrite broadcast_column. cbn [bind].
  unfold pad_shape. cbn [length Nat.sub repeat app].
  rewrite (bzip_rows Rmult M rows) by
    (try exact Hrows; rewrite length_map; exact Hls).
  set (prod_rows :=
         map (fun p : list R * R => map (fun a => a * snd p) (fst p))
           (combine rows (map (fun x => x / IZR num_points) ls))).
  assert (Hlen : length prod_rows = length rows).
  { unfold prod_rows. rewrite length_map, length_combine, length_map, Hls.
    apply Nat.min_id. }
  assert (Hall : Forall (fun r => length r = M) prod_rows).
  { unfold prod_rows. apply Forall_forall. intros r Hr.
    apply in_map_iff in Hr as ((row & x) & <- & Hin).
    apply in_combine_l in Hin. rewrite length_map.
    rewrite Forall_forall in Hrows. exact (Hrows row Hin). }
  rewrite <- Hlen, (sum_dim1_rows M prod_rows Hall). cbn [bind torchscript].
  rewrite Hlen. do 2 f_equal.
  unfold prod_rows. rewrite map_map. clear.
  revert ls. induction rows as [| r rows IH]; intros ls; [reflexivity |].
  destruct ls as [| l ls]; [reflexivity |].
  cbn [map combine fst snd]. f_equal. apply IH.
Qed.

(** The same with the spacing taken out of the sum (exact arithmetic): no
    comparison of [M] with [num_points] takes place. *)
Lemma compute_projection_values_rows (num_points : Z) (M : nat)
    (rows : list (list R)) (ls : list R) :
  Forall (fun r => length r = M) rows ->
  length ls = length rows ->
  compute_projection_values num_points
    (mkTensor [length rows; M] (concat rows)) (mkTensor [length rows] ls)
  = Ok (mkTensor [length rows]
          (map (fun p => quadrature (IZR num_points) (fst p) (snd p))
             (combine rows ls))).
Proof.
  intros Hrows Hls.
  rewrite (compute_projection_values_products num_points M rows ls Hrows Hls).
  do 2 f_equal. apply map_ext. intros (row & l). cbn [fst snd].
  unfold quadrature. apply sum_scaled.
Qed.







(** C9: the integrator never compares [num_points] with the number [M] of
    samples it is given.  For [N >= 1] and [M >= 1] it returns, without an
    exception, for each ray the sum of its [M] samples times [length / N],
    which is the quadrature over the [M] samples scaled by [M / N] (the
    equalities are those of exact arithmetic). *)
Theorem integrator_ignores_sample_count :
  forall (N : Z) (M : nat) (rows : list (list R)) (ls : list R),
    (1 <= N)%Z ->
    (1 <= M)%nat ->
    Forall (fun r => length r = M) rows ->
    length ls = length rows ->
    compute_projection_values N
      (mkTensor [length rows; M] (concat rows)) (mkTensor [length rows] ls)
    = Ok (mkTensor [length rows]
            (map (fun p => sum (fst p) * (snd p / IZR N)) (combine rows ls)))
    /\ forall (row : list R) (l : R),
         sum row * (l / IZR N) = quadrature (INR M) row l * (INR M / IZR N).
Proof.
  intros N M rows ls HN HM Hrows Hls. split.
  - apply (compute_projection_values_rows N M rows ls Hrows Hls).
  - intros row l. unfold quadrature.
    assert (HM0 : INR M <> 0) by (apply not_0_INR; lia).
    assert (HN0 : IZR N <> 0) by (apply not_0_IZR; lia).
    field. split; assumption.
Qed.

Lemma integrator_ignores_sample_count_witness :
  compute_projection_values 4
    (mkTensor [1; 2]%nat [3; 5]) (mkTensor [1]%nat [8])
  = Ok (mkTensor [1]%nat [sum [3; 5] * (8 / 4)])
  /\ forall (row : list R) (l : R),
       sum row * (l / 4) = quadrature (INR 2) row l * (INR 2 / 4).
Proof.
  apply (integrator_ignores_sample_count 4 2 [[3; 5]] [8]).
  - lia.
  - lia.
  - repeat constructor.
  - reflexivity.
Defined.

(** ** Step actions *)

Lemma sbind_ok {A B : Type} (m : Step A) (k : A -> Step B) (s s' : Mut) (b : B) :
  sbind m k s = (Ok b, s') ->
  exists a s1, m s = (Ok a, s1) /\ k a s1 = (Ok b, s').
Proof.
  unfold sbind. destruct (m s) as [[a | e] s1]; intros H.
  - eauto.
  - discriminate.
Qed.

Lemma keeps_buffers_lift {A : Type} (r : Result A) : keeps_buffers (lift r).
Proof. intros s. split; reflexivity. Qed.

Lemma keeps_buffers_ret {A : Type} (a : A) : keeps_buffers (ret a).
Proof. intros s. split; reflexivity. Qed.

Lemma keeps_buffers_emit (es : list LogEvent) : keeps_buffers (emit es).
Proof. intros s. split; reflexivity. Qed.

Lemma keeps_buffers_set_vol_shape (v : list nat) :
  keeps_buffers (set_vol_shape v).
Proof. intros s. split; reflexivity. Qed.

Lemma keeps_buffers_sbind {A B : Type} (m : Step A) (k : A -> Step B) :
  keeps_buffers m -> (forall a, keeps_buffers (k a)) ->
  keeps_buffers (sbind m k).
Proof.
  intros Hm Hk s. unfold sbind.
  specialize (Hm s). destruct (m s) as [[a | e] s1]; simpl in *.
  - specialize (Hk a s1). destruct Hk as (H1 & H2), Hm as (H3 & H4).
    split; congruence.
  - exact Hm.
Qed.

Lemma raises_sbind_l {A B : Type} (m : Step A) (k : A -> Step B) :
  raises m -> raises (sbind m k).
Proof.
  intros Hm s. unfold sbind. specialize (Hm s).
  destruct (m s) as [[a | e] s1]; simpl in *; [discriminate | reflexivity].
Qed.

Lemma raises_sbind_r {A B : Type} (m : Step A) (k : A -> Step B) :
  (forall a, raises (k a)) -> raises (sbind m k).
Proof.
  intros Hk s. unfold sbind.
  destruct (m s) as [[a | e] s1]; simpl; [apply Hk | reflexivity].
Qed.

Lemma raises_lift {A : Type} (r : Result A) :
  is_ok r = false -> raises (lift r).
Proof. intros H s. exact H. Qed.

Lemma keeps_buffers_log_projections (preds gt : Tensor) (draws : list nat) :
  keeps_buffers (log_projections preds gt draws).
Proof.
  induction draws as [| i draws IH]; simpl.
  - apply keeps_buffers_ret.
  - apply keeps_buffers_sbind; [apply keeps_buffers_lift |]. intros imgs.
    apply keeps_buffers_sbind; [apply keeps_buffers_emit |]. intros _.
    exact IH.
Qed.

(** ** The end-of-epoch reconstruction *)

Lemma bind_not_ok_l {A B : Type} (r : Result A) (k : A -> Result B) :
  is_ok r = false -> is_ok (bind r k) = false.
Proof. destruct r; [discriminate | reflexivity]. Qed.

Lemma bind_not_ok_r {A B : Type} (r : Result A) (k : A -> Result B) :
  (forall a, r = Ok a -> is_ok (k a) = false) -> is_ok (bind r k) = false.
Proof. destruct r as [a | e]; simpl; [intros H; now apply H | reflexivity]. Qed.

Lemma infer_size_grid (n2 len : nat) (s : list nat) :
  infer_size [-1; Z.of_nat n2; 3]%Z len = Ok s ->
  exists k, s = [k; n2; 3%nat] /\ n2 <> 0%nat.
Proof.
  unfold infer_size.
  assert (H1 : (Z.of_nat n2 <? -1)%Z = false) by (apply Z.ltb_ge; lia).
  assert (H2 : (Z.of_nat n2 =? -1)%Z = false) by (apply Z.eqb_neq; lia).
  assert (H3 : count_occ Z.eq_dec [-1; Z.of_nat n2; 3]%Z (-1)%Z = 1%nat).
  { cbn [count_occ]. destruct (Z.eq_dec (-1) (-1)) as [_ | Hne]; [| congruence].
    destruct (Z.eq_dec (Z.of_nat n2) (-1)) as [Heq | _]; [lia |].
    destruct (Z.eq_dec 3 (-1)) as [Heq | _]; [discriminate | reflexivity]. }
  rewrite H3.
  cbn -[Nat.modulo Nat.div Nat.mul Z.of_nat Nat.eqb Nat.ltb].
  rewrite H1, H2.
  cbn -[Nat.modulo Nat.div Nat.mul Z.of_nat Nat.eqb Nat.ltb].
  rewrite Nat2Z.id.
  change (1 <? 1)%nat with false. cbv iota.
  match goal with
  | |- (if ?c then _ else _) = _ -> _ => destruct c; [| discriminate]
  end.
  destruct (n2 * (Pos.to_nat 3 * 1) =? 0)%nat eqn:Hz; [discriminate |].
  intros H. injection H as <-.
  eexists. split; [reflexivity |].
  intros ->. discriminate.
Qed.

Lemma reconstruct_raises (self : MLP) (mgrid outputs : Tensor) (m1 : nat) :
  m1 <> 0%nat ->
  is_ok (reconstruct self mgrid outputs (seq 0 m1)) = false.
Proof.
  destruct m1 as [| m1]; [congruence |]. intros _.
  cbn [seq reconstruct].
  apply bind_not_ok_r. intros x _. reflexivity.
Qed.

Lemma aborts_sbind_l {A B : Type} (m : Step A) (k : A -> Step B) :
  aborts m -> aborts (sbind m k).
Proof.
  intros (Hr & Hk). split; [apply raises_sbind_l; exact Hr |].
  intros s. unfold sbind. specialize (Hr s). specialize (Hk s).
  destruct (m s) as [[a | e] s1]; simpl in *; [discriminate | exact Hk].
Qed.

Lemma aborts_sbind_r {A B : Type} (m : Step A) (k : A -> Step B) :
  keeps_buffers m -> (forall a, aborts (k a)) -> aborts (sbind m k).
Proof.
  intros Hm Hk. split.
  - apply raises_sbind_r. intros a. apply Hk.
  - apply keeps_buffers_sbind; [exact Hm |]. intros a. apply Hk.
Qed.

Lemma aborts_lift {A : Type} (r : Result A) :
  is_ok r = false -> aborts (lift r).
Proof.
  intros H. split; [apply raises_lift; exact H | apply keeps_buffers_lift].
Qed.

Lemma dense_reconstruction_raises (self : MLP) (vol : Tensor)
    (vol_shape : list nat) :
  is_ok (let* n := shape_at (shape vol) 0 in
         let mgrid := meshgrid3 n in
         let* n2 := shape_at (shape vol) 2 in
         let* mgrid := view mgrid [-1; Z.of_nat n2; 3]%Z in
         let* m0 := shape_at (shape mgrid) 0 in
         let* m1 := shape_at (shape mgrid) 1 in
         let outputs := zeros [m0; m1; 1%nat] in
         let* outputs := reconstruct self mgrid outputs (seq 0 m1) in
         view outputs (map Z.of_nat vol_shape)) = false.
Proof.
  apply bind_not_ok_r. intros n _. cbv zeta.
  apply bind_not_ok_r. intros n2 _.
  apply bind_not_ok_r. intros mgrid Hview.
  unfold view in Hview. apply bind_ok in Hview as (sh & Hsh & Hview).
  injection Hview as <-. cbn [shape].
  apply infer_size_grid in Hsh as (k & -> & Hn2).
  cbn [shape_at nth_error bind].
  apply bind_not_ok_l. apply reconstruct_raises. exact Hn2.
Qed.

(** C3, projection mode: the end-of-epoch step never returns.  It ends in
    an exception (at the latest the [TypeError] of the call of [forward]
    with one argument, line 258) and both validation buffers still hold what
    they held before the call. *)
Theorem on_validation_epoch_end_projection_aborts :
  forall (self : MLP) (trainer : Trainer) (s : Mut),
    imagefit_mode self = false ->
    is_ok (fst (on_validation_epoch_end self trainer s)) = false
    /\ validation_step_outputs (snd (on_validation_epoch_end self trainer s))
       = validation_step_outputs s
    /\ validation_step_gt (snd (on_validation_epoch_end self trainer s))
       = validation_step_gt s.
Proof.
  intros self trainer s Hmode.
  assert (H : aborts (on_validation_epoch_end self trainer)).
  { unfold on_validation_epoch_end. rewrite Hmode.
    apply aborts_sbind_r; [intros s0; split; reflexivity |]. intros all_preds.
    apply aborts_sbind_r; [intros s0; split; reflexivity |]. intros all_gt.
    apply aborts_sbind_r; [apply keeps_buffers_set_vol_shape |]. intros _.
    apply aborts_sbind_l.
    apply aborts_sbind_r; [apply keeps_buffers_lift |]. intros mask.
    apply aborts_sbind_r; [apply keeps_buffers_lift |]. intros preds.
    apply aborts_sbind_r; [apply keeps_buffers_lift |]. intros gt.
    apply aborts_sbind_r; [apply keeps_buffers_lift |]. intros high.
    apply aborts_sbind_r; [apply keeps_buffers_lift |]. intros _.
    apply aborts_sbind_r; [apply keeps_buffers_log_projections |]. intros _.
    apply aborts_sbind_l. apply aborts_lift.
    apply dense_reconstruction_raises. }
  destruct H as (Hr & Hk). specialize (Hk s). split; [apply Hr | exact Hk].
Qed.

Lemma on_validation_epoch_end_projection_aborts_witness :
  exists (self : MLP) (mut : Mut) (g' : Generator) (s' : Mut),
    MLP_init no_encoder (example_args "relu" false) [2]%nat 1
      example_generator = Ok (self, mut, g')
    /\ imagefit_mode self = false
    /\ on_validation_epoch_end self example_trainer example_mut
       = (Raise (TypeError "forward() missing 1 required positional argument: 'vecs'"),
          s')
    /\ validation_step_outputs s' = [mkTensor [2]%nat [1; 2]]
    /\ validation_step_gt s' = [mkTensor [2]%nat [3; 4]].
Proof.
  do 4 eexists. split; [run; reflexivity |].
  match goal with
  | |- imagefit_mode ?m = false /\ _ => set (self := m)
  end.
  split; [reflexivity |]. split; [run; reflexivity |].
  pose proof (on_validation_epoch_end_projection_aborts self example_trainer
                example_mut eq_refl) as (_ & Ho & Hg).
  split; [exact Ho | exact Hg].
Defined.

(** Whenever the end-of-epoch step returns, which it can only do in
    imagefit mode, both validation buffers are empty. *)
Lemma on_validation_epoch_end_clears (self : MLP) (trainer : Trainer)
    (s s' : Mut) :
  on_validation_epoch_end self trainer s = (Ok tt, s') ->
  validation_step_outputs s' = [] /\ validation_step_gt s' = [].
Proof.
  unfold on_validation_epoch_end. intros H.
  apply sbind_ok in H as (all_preds & s1 & _ & H).
  apply sbind_ok in H as (all_gt & s2 & _ & H).
  apply sbind_ok in H as (u1 & s3 & _ & H).
  apply sbind_ok in H as (u2 & s4 & _ & H).
  apply sbind_ok in H as (u3 & s5 & Hclear & H).
  unfold clear_outputs in Hclear. injection Hclear as _ <-.
  unfold clear_gt in H. injection H as <-.
  split; reflexivity.
Qed.

Lemma on_validation_epoch_end_imagefit_example :
  exists (self : MLP) (mut : Mut) (g' : Generator) (s' : Mut),
    MLP_init no_encoder (example_args "relu" true) [2]%nat 1
      example_generator = Ok (self, mut, g')
    /\ on_validation_epoch_end self example_volume_trainer example_volume_mut
       = (Ok tt, s')
    /\ validation_step_outputs s' = [] /\ validation_step_gt s' = [].
Proof.
  do 4 eexists. split; [run; reflexivity |].
  split; [run; reflexivity |]. split; reflexivity.
Qed.

(** ** The validation step *)

(** C2: in imagefit mode [validation_step] never completes.  Either the
    forward pass or the loss fails and nothing changes, or the predictions
    and the target are appended to the buffers and the evaluation of the
    dictionary passed to [log_dict] raises [UnboundLocalError] for
    [total_loss]; in both cases nothing is logged, not even the data loss. *)
Theorem validation_step_imagefit_raises :
  forall (self : MLP) (batch : Batch) (batch_idx : nat) (s : Mut),
    imagefit_mode self = true ->
    (exists e, validation_step self batch batch_idx s = (Raise e, s))
    \/ (exists attenuation_values,
          validation_step self batch batch_idx s
          = (Raise (UnboundLocalError "total_loss"),
             mkMut (validation_step_outputs s ++ [attenuation_values])
               (validation_step_gt s ++ [target batch])
               (vol_shape s) (emitted s))).
Proof.
  intros self batch batch_idx s Hmode.
  unfold validation_step. rewrite Hmode.
  unfold sbind, lift.
  destruct (imagefit_pass self batch) as [[att loss] | e].
  - right. exists att. reflexivity.
  - left. exists e. reflexivity.
Qed.

Lemma validation_step_imagefit_raises_witness :
  exists (self : MLP) (mut : Mut) (g' : Generator) (attenuation_values : Tensor),
    MLP_init no_encoder (example_args "relu" true) [2]%nat 1
      example_generator = Ok (self, mut, g')
    /\ imagefit_mode self = true
    /\ validation_step self example_imagefit_batch 0 mut
       = (Raise (UnboundLocalError "total_loss"),
          mkMut [attenuation_values] [target example_imagefit_batch] None [])
    /\ ((exists e, validation_step self example_imagefit_batch 0 mut
                   = (Raise e, mut))
        \/ (exists attenuation_values,
              validation_step self example_imagefit_batch 0 mut
              = (Raise (UnboundLocalError "total_loss"),
                 mkMut (validation_step_outputs mut ++ [attenuation_values])
                   (validation_step_gt mut ++ [target example_imagefit_batch])
                   (vol_shape mut) (emitted mut)))).
Proof.
  do 4 eexists. split; [run; reflexivity |].
  match goal with
  | |- imagefit_mode ?m = true /\ _ => set (self := m)
  end.
  split; [reflexivity |]. split; [run; reflexivity |].
  exact (validation_step_imagefit_raises self example_imagefit_batch 0
           (mkMut [] [] None []) eq_refl).
Defined.

(** ** The projection objective *)

Lemma length_concat_rows {A : Type} (k : nat) (rows : list (list A)) :
  Forall (fun r => length r = k) rows ->
  length (concat rows) = (length rows * k)%nat.
Proof.
  induction 1 as [| r rows Hr _ IH]; simpl; [reflexivity |].
  rewrite length_app, IH, Hr. reflexivity.
Qed.

Lemma infer_size_exact (a b : nat) :
  infer_size [Z.of_nat a; Z.of_nat b] (a * b) = Ok [a; b].
Proof.
  unfold infer_size.
  assert (Ha : (Z.of_nat a <? -1)%Z = false) by (apply Z.ltb_ge; lia).
  assert (Hb : (Z.of_nat b <? -1)%Z = false) by (apply Z.ltb_ge; lia).
  assert (Ha' : (Z.of_nat a =? -1)%Z = false) by (apply Z.eqb_neq; lia).
  assert (Hb' : (Z.of_nat b =? -1)%Z = false) by (apply Z.eqb_neq; lia).
  assert (Hc : count_occ Z.eq_dec [Z.of_nat a; Z.of_nat b] (-1)%Z = 0%nat).
  { cbn [count_occ].
    destruct (Z.eq_dec (Z.of_nat a) (-1)) as [Heq | _]; [lia |].
    destruct (Z.eq_dec (Z.of_nat b) (-1)) as [Heq | _]; [lia | reflexivity]. }
  rewrite Hc.
  cbn -[Nat.modulo Nat.div Nat.mul Z.of_nat Nat.eqb Nat.ltb].
  rewrite Ha, Hb, Ha', Hb'.
  cbn -[Nat.modulo Nat.div Nat.mul Z.of_nat Nat.eqb Nat.ltb].
  rewrite !Nat2Z.id, Nat.mul_1_r, Nat.eqb_refl. reflexivity.
Qed.

Lemma slice_from1_rows (M : nat) (rows : list (list R)) :
  Forall (fun r => length r = M) rows ->
  slice_from1 (mkTensor [length rows; M] (concat rows))
  = Ok (mkTensor [length rows; (M - 1)%nat] (concat (map (skipn 1) rows))).
Proof.
  intros Hrows. unfold slice_from1. cbn [shape data numel fold_right].
  rewrite Nat.mul_1_r, (chunks_concat M rows Hrows). reflexivity.
Qed.

Lemma slice_to_last_rows (M : nat) (rows : list (list R)) :
  Forall (fun r => length r = M) rows ->
  slice_to_last (mkTensor [length rows; M] (concat rows))
  = Ok (mkTensor [length rows; (M - 1)%nat]
          (concat (map (firstn (M - 1)) rows))).
Proof.
  intros Hrows. unfold slice_to_last. cbn [shape data numel fold_right].
  rewrite !Nat.mul_1_r, (chunks_concat M rows Hrows). reflexivity.
Qed.

Lemma broadcast_rev_same (r : list nat) : broadcast_rev r r = Ok r.
Proof.
  induction r as [| a r IH]; [reflexivity |].
  simpl. rewrite IH. simpl. rewrite Nat.eqb_refl. reflexivity.
Qed.

Lemma broadcast_shapes_same (s : list nat) : broadcast_shapes s s = Ok s.
Proof.
  unfold broadcast_shapes. rewrite broadcast_rev_same. simpl.
  rewrite rev_involutive. reflexivity.
Qed.

Lemma bzip_vectors (f : R -> R -> R) (d1 d2 : list R) :
  length d2 = length d1 ->
  bzip f [length d1] [length d1] d1 d2
  = map (fun q => f (fst q) (snd q)) (combine d1 d2).
Proof.
  intros Hlen. cbn [bzip]. rewrite Nat.eqb_refl.
  change (numel []) with 1%nat.
  rewrite chunks_singletons. rewrite <- Hlen, chunks_singletons.
  clear Hlen. revert d2.
  induction d1 as [| x d1 IH]; intros d2; [reflexivity |].
  destruct d2 as [| y d2]; [reflexivity |].
  cbn [map combine concat fst snd app]. f_equal. apply IH.
Qed.

Lemma bzip_matrices (f : R -> R -> R) (M : nat) (rows1 rows2 : list (list R)) :
  Forall (fun r => length r = M) rows1 ->
  Forall (fun r => length r = M) rows2 ->
  length rows2 = length rows1 ->
  bzip f [length rows1; M] [length rows1; M] (concat rows1) (concat rows2)
  = concat (map (fun p => map (fun q => f (fst q) (snd q))
                            (combine (fst p) (snd p)))
              (combine rows1 rows2)).
Proof.
  intros H1 H2 Hlen.
  cbn [bzip]. rewrite Nat.eqb_refl.
  change (numel [M]) with (M * 1)%nat. rewrite Nat.mul_1_r.
  rewrite (chunks_concat M rows1 H1).
  rewrite <- Hlen, (chunks_concat M rows2 H2). f_equal.
  clear Hlen. revert rows2 H2.
  induction H1 as [| r1 rows1 Hr1 _ IH]; intros rows2 H2; [reflexivity |].
  destruct H2 as [| r2 rows2 Hr2 H2]; [reflexivity |].
  cbn [map combine fst snd]. f_equal; [| apply IH; exact H2].
  change (bzip f [M] [M] r1 r2
          = map (fun q => f (fst q) (snd q)) (combine r1 r2)).
  rewrite <- Hr1. apply bzip_vectors. congruence.
Qed.

Lemma adjacent_pairs (x : R) (rest : list R) :
  map (fun q => Rabs (fst q - snd q))
    (combine rest (firstn (length rest) (x :: rest)))
  = map (fun i => Rabs (nth (S i) (x :: rest) 0 - nth i (x :: rest) 0))
      (seq 0 (length rest)).
Proof.
  revert x. induction rest as [| y rest IH]; intros x; [reflexivity |].
  cbn [length firstn combine map seq fst snd]. f_equal.
  rewrite <- seq_shift, map_map. rewrite (IH y). reflexivity.
Qed.

Lemma adjacent_differences_slices (row : list R) :
  map (fun q => Rabs (fst q - snd q))
    (combine (skipn 1 row) (firstn (length row - 1) row))
  = adjacent_differences row.
Proof.
  unfold adjacent_differences.
  destruct row as [| x rest]; [reflexivity |].
  replace (length (x :: rest) - 1)%nat with (length rest) by (simpl; lia).
  apply adjacent_pairs.
Qed.

Lemma map_combine_nth (g : R -> R -> R) (a b : list R) :
  length b = length a ->
  map (fun q => g (fst q) (snd q)) (combine a b)
  = map (fun i => g (nth i a 0) (nth i b 0)) (seq 0 (length a)).
Proof.
  revert b. induction a as [| x a IH]; intros b Hlen; [reflexivity |].
  destruct b as [| y b]; [discriminate |].
  cbn [combine map length seq fst snd nth]. f_equal.
  rewrite <- seq_shift, map_map. apply IH. simpl in Hlen. lia.
Qed.

Lemma smoothness_rows (M : nat) (rows : list (list R)) :
  Forall (fun r => length r = M) rows ->
  concat (map (fun p => map (fun q => Rabs (fst q - snd q))
                          (combine (fst p) (snd p)))
            (combine (map (skipn 1) rows) (map (firstn (M - 1)) rows)))
  = flat_map adjacent_differences rows.
Proof.
  induction 1 as [| r rows Hr _ IH]; [reflexivity |].
  cbn [map combine concat flat_map fst snd]. rewrite IH. f_equal.
  rewrite <- Hr. apply adjacent_differences_slices.
Qed.

Lemma detector_values_rows (M : nat) (rows : list (list R)) (ls : list R) :
  Forall (fun r => length r = M) rows ->
  map (fun p => quadrature (IZR (Z.of_nat M)) (fst p) (snd p)) (combine rows ls)
  = detector_values rows ls.
Proof.
  intros Hrows. unfold detector_values. apply map_ext_in.
  intros (row & l) Hin. apply in_combine_l in Hin.
  rewrite Forall_forall in Hrows. cbn [fst snd].
  rewrite (Hrows row Hin), INR_IZR_INZ. reflexivity.
Qed.

Lemma length_detector_values (rows : list (list R)) (ls : list R) :
  length ls = length rows ->
  length (detector_values rows ls) = length rows.
Proof.
  intros H. unfold detector_values.
  rewrite length_map, length_combine, H. apply Nat.min_id.
Qed.

Lemma loss_fn_vectors (pred tgt : list R) :
  length tgt = length pred ->
  loss_fn (mkTensor [length pred] pred) (mkTensor [length pred] tgt)
  = Ok (mean_squared_error pred tgt).
Proof.
  intros Hlen. unfold loss_fn, binop. cbn [shape data].
  rewrite broadcast_shapes_same. cbn [bind length Nat.max pad_shape Nat.sub repeat app].
  rewrite (bzip_vectors _ pred tgt Hlen).
  unfold mean_squared_error. do 2 f_equal.
  rewrite (map_combine_nth (fun x y => (x - y) * (x - y)) pred tgt Hlen).
  apply map_ext. intros i. simpl. ring.
Qed.

Lemma l1_regularization_rows (M : nat) (rows : list (list R)) :
  Forall (fun r => length r = M) rows ->
  l1_regularization
    (mkTensor [length rows; (M - 1)%nat] (concat (map (skipn 1) rows)))
    (mkTensor [length rows; (M - 1)%nat] (concat (map (firstn (M - 1)) rows)))
  = Ok (mean_adjacent_difference rows).
Proof.
  intros Hrows. unfold l1_regularization, binop. cbn [shape data].
  rewrite broadcast_shapes_same.
  cbn [bind length Nat.max pad_shape Nat.sub repeat app].
  unfold mean_adjacent_difference. do 2 f_equal.
  rewrite <- (smoothness_rows M rows Hrows).
  rewrite <- (length_map (skipn 1) rows).
  apply bzip_matrices.
  - apply Forall_forall. intros r Hr. apply in_map_iff in Hr as (r0 & <- & Hin).
    rewrite Forall_forall in Hrows. rewrite length_skipn, (Hrows r0 Hin).
    reflexivity.
  - apply Forall_forall. intros r Hr. apply in_map_iff in Hr as (r0 & <- & Hin).
    rewrite Forall_forall in Hrows. rewrite length_firstn, (Hrows r0 Hin). lia.
  - rewrite !length_map. reflexivity.
Qed.

Lemma projection_pass_objective (self : MLP) (batch : Batch) (M : nat)
    (rows : list (list R)) (ls ts : list R) (out : Tensor) :
  shape (points batch) = [length rows; M; 3%nat] ->
  Forall (fun r => length r = M) rows ->
  ray_lengths (points batch) = Ok (mkTensor [length rows] ls) ->
  length ls = length rows ->
  forward self (points batch) (Some (to_float (idxs batch))) = Ok out ->
  data out = concat rows ->
  target batch = mkTensor [length rows] ts ->
  length ts = length rows ->
  projection_pass self batch
  = Ok (mkTensor [length rows] (detector_values rows ls),
        mean_squared_error (detector_values rows ls) ts,
        mean_adjacent_difference rows).
Proof.
  intros Hshape Hrows Hlengths Hls Hfwd Hdata Htarget Hts.
  unfold projection_pass. rewrite Hlengths, Hfwd, Hshape.
  cbn [bind shape_at nth_error].
  unfold view at 1. rewrite Hdata, (length_concat_rows M rows Hrows).
  rewrite infer_size_exact. cbn [bind].
  rewrite (compute_projection_values_rows (Z.of_nat M) M rows ls Hrows Hls).
  cbn [bind].
  rewrite (slice_from1_rows M rows Hrows), (slice_to_last_rows M rows Hrows).
  cbn [bind].
  rewrite (l1_regularization_rows M rows Hrows). cbn [bind].
  rewrite (detector_values_rows M rows ls Hrows), Htarget.
  assert (Hloss : loss_fn (mkTensor [length rows] (detector_values rows ls))
                    (mkTensor [length rows] ts)
                  = Ok (mean_squared_error (detector_values rows ls) ts)).
  { rewrite <- (length_detector_values rows ls Hls).
    apply loss_fn_vectors.
    rewrite (length_detector_values rows ls Hls). exact Hts. }
  rewrite Hloss. reflexivity.
Qed.

(** The objective on the batches on which the forward pass returns (for a
    constructed module these are the batches whose index tensor has no
    column): on [B >= 1] rays of [M >= 2] samples, with the densities [rows]
    returned by [forward], the ray lengths [ls] and the targets [ts],
    [training_step] returns the mean squared error between the integrated
    detector values and the targets plus [l1_regularization_weight] times
    the mean absolute difference of adjacent samples of a ray, and logs the
    three scalars (the equalities are those of exact arithmetic). *)
Theorem training_step_projection_total_loss :
  forall (self : MLP) (batch : Batch) (batch_idx : nat) (s : Mut)
         (M : nat) (rows : list (list R)) (ls ts : list R) (out : Tensor),
    imagefit_mode self = false ->
    shape (points batch) = [length rows; M; 3%nat] ->
    rows <> [] ->
    (2 <= M)%nat ->
    Forall (fun r => length r = M) rows ->
    ray_lengths (points batch) = Ok (mkTensor [length rows] ls) ->
    length ls = length rows ->
    forward self (points batch) (Some (to_float (idxs batch))) = Ok out ->
    data out = concat rows ->
    target batch = mkTensor [length rows] ts ->
    length ts = length rows ->
    let loss := mean_squared_error (detector_values rows ls) ts in
    let smoothness_loss := mean_adjacent_difference rows in
    let total_loss := loss + l1_regularization_weight self * smoothness_loss in
    training_step self batch batch_idx s
    = (Ok total_loss,
       mkMut (validation_step_outputs s) (validation_step_gt s) (vol_shape s)
         (emitted s ++ [LogScalar "train/loss" loss;
                        LogScalar "train/loss_total" total_loss;
                        LogScalar "train/l1_regularization" smoothness_loss])).
Proof.
  intros self batch batch_idx s M rows ls ts out Hmode Hshape Hne HM Hrows
    Hlengths Hls Hfwd Hdata Htarget Hts loss smoothness_loss total_loss.
  unfold training_step. rewrite Hmode.
  unfold sbind at 1. unfold lift.
  rewrite (projection_pass_objective self batch M rows ls ts out Hshape Hrows
             Hlengths Hls Hfwd Hdata Htarget Hts).
  reflexivity.
Qed.

Lemma training_step_projection_total_loss_witness :
  exists (self : MLP) (mut : Mut) (g' : Generator)
         (rows : list (list R)) (ls : list R),
    MLP_init no_encoder (example_args "relu" false) [2]%nat 1
      example_generator = Ok (self, mut, g')
    /\ imagefit_mode self = false
    /\ length rows = 1%nat
    /\ Forall (fun r => length r = 2%nat) rows
    /\ ray_lengths (points example_projection_batch)
       = Ok (mkTensor [1]%nat ls)
    /\ (exists out,
          forward self (points example_projection_batch)
            (Some (to_float (idxs example_projection_batch))) = Ok out
          /\ data out = concat rows)
    /\ let loss := mean_squared_error (detector_values rows ls) [1 / 2] in
       let smoothness_loss := mean_adjacent_difference rows in
       let total_loss := loss + l1_regularization_weight self * smoothness_loss in
       training_step self example_projection_batch 0 mut
       = (Ok total_loss,
          mkMut (validation_step_outputs mut) (validation_step_gt mut)
            (vol_shape mut)
            (emitted mut ++ [LogScalar "train/loss" loss;
                             LogScalar "train/loss_total" total_loss;
                             LogScalar "train/l1_regularization" smoothness_loss])).
Proof.
  eexists. exists (mkMut [] [] None []). eexists.
  assert (Hinit : MLP_init no_encoder (example_args "relu" false) [2]%nat 1
                    example_generator = Ok (_, mkMut [] [] None [], _))
    by (run; reflexivity).
  match type of Hinit with _ = Ok (?m, _, _) => set (self := m) in * end.
  assert (Hfwd : forward self (points example_projection_batch)
                   (Some (to_float (idxs example_projection_batch)))
                 = Ok (mkTensor [1; 2; 1]%nat [_; _]))
    by (run; reflexivity).
  assert (Hlen : ray_lengths (points example_projection_batch)
                 = Ok (mkTensor [1]%nat [_]))
    by (run; reflexivity).
  match type of Hfwd with
  | _ = Ok (mkTensor _ [?a; ?b]) => pose (rows := [[a; b]]); exists rows
  end.
  match type of Hlen with
  | _ = Ok (mkTensor _ ?l) => pose (ls := l); exists ls
  end.
  split; [exact Hinit |]. split; [reflexivity |]. split; [reflexivity |].
  split; [repeat constructor |]. split; [exact Hlen |].
  split; [eexists; split; [exact Hfwd | reflexivity] |].
  refine (training_step_projection_total_loss self example_projection_batch 0
            (mkMut [] [] None []) 2 rows ls [1 / 2] _ eq_refl eq_refl _ _ _
            Hlen eq_refl Hfwd eq_refl eq_refl eq_refl).
  - discriminate.
  - lia.
  - repeat constructor.
Defined.

(** ** The projection step on a batch with one volume index per ray *)

(** The concatenation of line 144 with a one-dimensional first operand. *)
Lemma cat_vector_first (n : nat) (d : list R) (t : Tensor) :
  n <> 0%nat ->
  cat_tensors [mkTensor [n] d; t] 1
  = Raise (IndexError "Dimension out of range").
Proof.
  intros Hn. unfold cat_tensors.
  cbn [filter cat_skipped shape negb].
  destruct (Nat.eqb_spec n 0) as [H0 | _]; [contradiction |].
  cbn [negb shape length Nat.eqb Nat.leb]. reflexivity.
Qed.

Lemma forward_index_vector (self : MLP) (pts : Tensor) (idxs : ITensor)
    (n : nat) :
  ishape idxs = [n] -> n <> 0%nat ->
  exists e : PyError, forward self pts (Some (to_float idxs)) = Raise e.
Proof.
  intros Hshape Hn. unfold forward.
  destruct (if (2 <? length (shape pts))%nat then view pts [-1; 3]%Z
            else Ok pts) as [pts' | e]; [| eexists; reflexivity].
  cbn [bind].
  destruct (match encoder self with
            | Some e => encode e pts'
            | None => Ok pts'
            end) as [enc | e]; [| eexists; reflexivity].
  cbn [bind]. unfold torch_cat. cbn [forallb andb flat_map app].
  unfold to_float. rewrite Hshape.
  rewrite (cat_vector_first n _ enc Hn).
  eexists. reflexivity.
Qed.

(** C7: in projection mode [training_step] hands the index tensor of the
    batch to [forward], which concatenates it along dimension 1 with the
    coordinates.  With one volume index per ray, the index tensor is
    one-dimensional and not empty: the forward pass raises, and so does the
    step, which returns no loss and logs nothing. *)
Theorem training_step_projection_raises :
  forall (self : MLP) (batch : Batch) (batch_idx : nat) (s : Mut) (n : nat),
    imagefit_mode self = false ->
    ishape (idxs batch) = [n] ->
    n <> 0%nat ->
    (forall out : Tensor,
        forward self (points batch) (Some (to_float (idxs batch))) <> Ok out)
    /\ exists e : PyError,
         training_step self batch batch_idx s = (Raise e, s).
Proof.
  intros self batch batch_idx s n Hmode Hshape Hn.
  destruct (forward_index_vector self (points batch) (idxs batch) n Hshape Hn)
    as (e & He).
  split; [intros out Hout; congruence |].
  unfold training_step. rewrite Hmode.
  unfold sbind at 1. unfold lift. unfold projection_pass.
  destruct (ray_lengths (points batch)) as [lengths | e'];
    [| eexists; reflexivity].
  cbn [bind]. rewrite He. cbn [bind].
  eexists. reflexivity.
Qed.

Lemma training_step_projection_raises_witness :
  exists (self : MLP) (mut : Mut) (g' : Generator),
    MLP_init no_encoder (example_args "relu" false) [2]%nat 1
      example_generator = Ok (self, mut, g')
    /\ imagefit_mode self = false
    /\ training_step self example_indexed_projection_batch 0 mut
       = (Raise (IndexError "Dimension out of range"), mut)
    /\ (forall out : Tensor,
          forward self (points example_indexed_projection_batch)
            (Some (to_float (idxs example_indexed_projection_batch)))
          <> Ok out)
    /\ exists e : PyError,
         training_step self example_indexed_projection_batch 0 mut
         = (Raise e, mut).
Proof.
  eexists. exists (mkMut [] [] None []). eexists.
  assert (Hinit : MLP_init no_encoder (example_args "relu" false) [2]%nat 1
                    example_generator = Ok (_, mkMut [] [] None [], _))
    by (run; reflexivity).
  match type of Hinit with _ = Ok (?m, _, _) => set (self := m) in * end.
  split; [exact Hinit |]. split; [reflexivity |].
  split; [run; reflexivity |].
  apply (training_step_projection_raises self
           example_indexed_projection_batch 0 (mkMut [] [] None []) 1).
  - reflexivity.
  - reflexivity.
  - discriminate.
Defined.

(** ** The forward pass without a latent tensor, on an example *)

Lemma forward_without_latent_example :
  exists (self : MLP) (mut : Mut) (g' : Generator),
    MLP_init no_encoder (example_args "relu" false) [2]%nat 1
      example_generator = Ok (self, mut, g')
    /\ forward self (mkTensor [2; 3]%nat [0; 0; 0; 1; 1; 1]) None
       = Raise (TypeError
                  "expected Tensor as element of the tensor list, but got NoneType")
    /\ forward self (mkTensor [1; 2; 3]%nat [0; 0; 0; 1; 1; 1]) None
       = Raise (TypeError
                  "expected Tensor as element of the tensor list, but got NoneType").
Proof.
  do 3 eexists. split; [run; reflexivity |]. split; run; reflexivity.
Qed.

(** ** Shapes through the network *)

Lemma length_chunks {A : Type} (n k : nat) (d : list A) :
  length (chunks n k d) = n.
Proof.
  revert d. induction n as [| n IH]; intros d; simpl; [reflexivity | now rewrite IH].
Qed.

Lemma length_concat_map {A B : Type} (f : A -> list B) (k : nat) (l : list A) :
  (forall x, length (f x) = k) ->
  length (concat (map f l)) = (length l * k)%nat.
Proof.
  intros Hf. induction l as [| x l IH]; simpl; [reflexivity |].
  rewrite length_app, Hf, IH. reflexivity.
Qed.

Lemma length_linear_row (l : Linear) (x : list R) :
  biased l -> length (linear_row l x) = out_features l.
Proof.
  unfold biased, linear_row. intros Hb.
  rewrite length_map, length_combine, length_chunks, Hb. apply Nat.min_id.
Qed.


Lemma width_frame (m : Module) (w : nat) : width (frame m) w = width m w.
Proof.
  revert w. induction m as [l | a | cs IH] using Module_tree_ind; intros w;
    try reflexivity.
  simpl. revert w. induction IH as [| c cs Hc _ IHcs]; intros w; [reflexivity |].
  simpl. rewrite Hc. destruct (width c w); [apply IHcs | reflexivity].
Qed.

Lemma frame_width (m m' : Module) (w : nat) :
  frame m' = frame m -> width m' w = width m w.
Proof.
  intros H. rewrite <- (width_frame m'), H. apply width_frame.
Qed.

Lemma frame_biased (m m' : Module) :
  frame m' = frame m ->
  Forall biased (linears m) -> Forall biased (linears m').
Proof.
  intros H Hb. apply frame_linears in H.
  assert (Hmap : Forall biased (map frame_linear (linears m))).
  { rewrite Forall_forall in Hb |- *. intros l Hl.
    apply in_map_iff in Hl as (l0 & <- & Hin). exact (Hb l0 Hin). }
  rewrite <- H in Hmap.
  rewrite Forall_forall in Hmap |- *. intros l Hl.
  exact (Hmap (frame_linear l) (in_map frame_linear _ l Hl)).
Qed.

Lemma sequential_width_app (cs1 cs2 : list Module) (w w1 : nat) :
  sequential_width width cs1 w = Some w1 ->
  sequential_width width (cs1 ++ cs2) w = sequential_width width cs2 w1.
Proof.
  revert w. induction cs1 as [| c cs1 IH]; intros w H; simpl in *.
  - injection H as <-. reflexivity.
  - destruct (width c w); [exact (IH _ H) | discriminate].
Qed.

Lemma Linear_new_sizes (fin fout : nat) (g : Generator) :
  in_features (fst (Linear_new fin fout g)) = fin
  /\ out_features (fst (Linear_new fin fout g)) = fout
  /\ biased (fst (Linear_new fin fout g)).
Proof.
  unfold Linear_new, biased.
  destruct (numel [fout; fin] =? 0)%nat; simpl;
    rewrite length_map, length_seq, repeat_length; repeat split; lia.
Qed.

Lemma hidden_layers_widths (n : nat) (args_dict : Config) (g : Generator)
    (r : list Module * Generator) :
  hidden_layers n args_dict g = Ok r ->
  sequential_width width (fst r) (Args.num_hidden_features args_dict)
  = Some (Args.num_hidden_features args_dict)
  /\ Forall biased (flat_map linears (fst r)).
Proof.
  revert g r. induction n as [| n IH]; intros g r H; simpl in H.
  - injection H as <-. split; [reflexivity | constructor].
  - destruct (Linear_new _ _ g) as [l g1] eqn:Hl.
    apply bind_ok in H as (a & _ & H).
    apply bind_ok in H as (r' & Hr' & H).
    injection H as <-.
    destruct (IH _ _ Hr') as (Hw & Hb).
    pose proof (Linear_new_sizes (Args.num_hidden_features args_dict)
                  (Args.num_hidden_features args_dict) g) as (Hin & Hout & Hbl).
    rewrite Hl in Hin, Hout, Hbl. simpl in Hin, Hout, Hbl.
    split.
    + cbn [fst sequential_width width]. rewrite Hin, Nat.eqb_refl, Hout.
      exact Hw.
    + simpl. constructor; assumption.
Qed.

Lemma MLP_init_widths (get_encoder : string -> Result Encoder)
    (args_dict : Config) (pshape : list nat) (num_volumes : nat)
    (g g' : Generator) (self : MLP) (mut : Mut) :
  MLP_init get_encoder args_dict pshape num_volumes g = Ok (self, mut, g') ->
  Args.encoder args_dict = None ->
  encoder self = None
  /\ width (mlp self)
       (if Args.imagefit_mode args_dict
        then 3 + Args.latent_size args_dict else 3)%nat = Some 1%nat
  /\ Forall biased (linears (mlp self)).
Proof.
  unfold MLP_init. intros H Henc. rewrite Henc in H. cbn [bind] in H.
  apply bind_ok in H as (lat & Hlat & H).
  destruct lat as [[lv nin] g1].
  assert (Hnin : nin = (if Args.imagefit_mode args_dict
                        then 3 + Args.latent_size args_dict else 3)%nat).
  { destruct (Args.imagefit_mode args_dict).
    - destruct (Embedding_new _ _ g) as [emb ge].
      destruct (Args.latent_size args_dict =? 0)%nat; [discriminate |].
      unfold normal_ in Hlat. injection Hlat as _ <- _. reflexivity.
    - injection Hlat as _ <- _. reflexivity. }
  apply bind_ok in H as (layers & Hlayers & H).
  destruct (Linear_new nin _ (snd layers)) as [first g2] eqn:Hfirst.
  apply bind_ok in H as (act & _ & H).
  destruct (Linear_new _ 1 g2) as [last g3] eqn:Hlast.
  apply bind_ok in H as (r & Hr & H).
  injection H as <- <- <-. cbn [encoder mlp].
  split; [reflexivity |].
  destruct (hidden_layers_widths _ _ _ _ Hlayers) as (Hw & Hb).
  pose proof (Linear_new_sizes nin (Args.num_hidden_features args_dict)
                (snd layers)) as (Hi1 & Ho1 & Hb1).
  pose proof (Linear_new_sizes (Args.num_hidden_features args_dict) 1 g2)
    as (Hi2 & Ho2 & Hb2).
  rewrite Hfirst in Hi1, Ho1, Hb1. rewrite Hlast in Hi2, Ho2, Hb2.
  simpl in Hi1, Ho1, Hb1, Hi2, Ho2, Hb2.
  set (net := MSequential (MLinear first :: MActivation act :: fst layers
                           ++ [MLinear last; MActivation Sigmoid])) in *.
  assert (Hnet : width net nin = Some 1%nat /\ Forall biased (linears net)).
  { unfold net. split.
    - cbn [width sequential_width]. rewrite Hi1, Nat.eqb_refl, Ho1.
      rewrite (sequential_width_app _ _ _ _ Hw).
      cbn [sequential_width width]. rewrite Hi2, Nat.eqb_refl, Ho2. reflexivity.
    - simpl. constructor; [exact Hb1 |]. rewrite flat_map_app.
      apply Forall_app. split; [exact Hb |].
      simpl. constructor; [exact Hb2 | constructor]. }
  assert (Hframe : frame (fst r) = frame net).
  { destruct (Args.activation_function args_dict =? "sine")%string.
    - apply bind_ok in Hr as (r1 & Hr1 & Hr).
      apply (apply_first_preserves_frame _
               first_layer_sine_init_preserves_frame) in Hr.
      apply (module_apply_preserves_frame _ sine_init_preserves_frame) in Hr1.
      congruence.
    - injection Hr as <-. reflexivity. }
  destruct Hnet as (Hwn & Hbn). rewrite <- Hnin. split.
  - rewrite (frame_width _ _ _ Hframe). exact Hwn.
  - exact (frame_biased _ _ Hframe Hbn).
Qed.

Lemma concat_chunks {A : Type} (n k : nat) (d : list A) :
  length d = (n * k)%nat -> concat (chunks n k d) = d.
Proof.
  revert d. induction n as [| n IH]; intros d Hd; simpl.
  - destruct d; [reflexivity | discriminate].
  - rewrite IH by (rewrite length_skipn; lia). apply firstn_skipn.
Qed.


Lemma zip_app_nil_r {A : Type} (n : nat) (a : list (list A)) :
  length a = n -> zip_app a (repeat [] n) = a.
Proof.
  intros <-. unfold zip_app. induction a as [| x a IH]; simpl; [reflexivity |].
  rewrite app_nil_r. f_equal. exact IH.
Qed.



Lemma infer_size_points (n : nat) : infer_size [-1; 3]%Z (n * 3) = Ok [n; 3%nat].
Proof.
  unfold infer_size.
  cbn -[Nat.modulo Nat.div Nat.mul Nat.eqb Nat.ltb].
  change (1 <? 1)%nat with false. change (0 <? 3 * 1)%nat with true.
  cbv iota. change (3 * 1)%nat with 3%nat.
  rewrite Nat.Div0.mod_mul, Nat.eqb_refl, orb_true_r.
  change (3 =? 0)%nat with false. cbv iota.
  rewrite Nat.div_mul by discriminate. reflexivity.
Qed.




(** ** Ray lengths *)

Lemma nth_ray_point (M : nat) (ray : list (list R)) (i : nat) :
  is_ray M ray -> (i < M)%nat -> length (nth i ray []) = 3%nat.
Proof.
  intros (Hlen & Hpts) Hi. rewrite Forall_forall in Hpts.
  apply Hpts. apply nth_In. lia.
Qed.

Lemma select_sample (M : nat) (rays : list (list (list R))) (i : Z) (k : nat) :
  Forall (is_ray M) rays ->
  (k < M)%nat ->
  (if i <? 0 then i + Z.of_nat M else i)%Z = Z.of_nat k ->
  select (mkTensor [length rays; M; 3%nat] (concat (map (@concat R) rays)))
    3 1 i
  = Ok (mkTensor [length rays; 3%nat]
          (concat (map (fun ray => nth k ray []) rays))).
Proof.
  intros Hrays Hk Hi. unfold select.
  cbn [shape length Nat.ltb Nat.leb nth]. rewrite Hi.
  assert (H1 : (Z.of_nat k <? 0)%Z = false) by (apply Z.ltb_ge; lia).
  assert (H2 : (Z.of_nat M <=? Z.of_nat k)%Z = false) by (apply Z.leb_gt; lia).
  rewrite H1, H2. cbn [orb firstn skipn app numel fold_right].
  rewrite !Nat.mul_1_r, Nat2Z.id.
  assert (Hblocks : Forall (fun r => length r = (M * 3)%nat)
                      (map (@concat R) rays)).
  { apply Forall_forall. intros r Hr.
    apply in_map_iff in Hr as (ray & <- & Hin).
    rewrite Forall_forall in Hrays. destruct (Hrays ray Hin) as (Hlen & Hpts).
    rewrite (length_concat_rows 3 ray Hpts), Hlen. reflexivity. }
  assert (Hch : chunks (length rays) (M * 3) (concat (map (@concat R) rays))
                = map (@concat R) rays).
  { rewrite <- (length_map (@concat R) rays). apply chunks_concat.
    exact Hblocks. }
  cbn [data]. rewrite Hch, map_map.
  do 3 f_equal. apply map_ext_in. intros ray Hin.
  rewrite Forall_forall in Hrays. destruct (Hrays ray Hin) as (Hlen & Hpts).
  rewrite <- Hlen, (chunks_concat 3 ray Hpts). reflexivity.
Qed.

Lemma norm_dim1_rows (M : nat) (rows : list (list R)) :
  Forall (fun r => length r = M) rows ->
  norm_dim1 (mkTensor [length rows; M] (concat rows))
  = Ok (mkTensor [length rows]
          (map (fun r => sqrt (sum (map (fun x => x * x) r))) rows)).
Proof.
  intros Hrows. unfold norm_dim1. cbn [shape data].
  change (numel []) with 1%nat. rewrite Nat.mul_1_r.
  rewrite (chunks_concat M rows Hrows).
  do 2 f_equal.
  induction Hrows as [| r rows Hr _ IH]; [reflexivity |].
  cbn [map concat]. rewrite IH. clear IH.
  rewrite <- Hr, chunks_singletons, map_map.
  change (repeat 0 1) with [0].
  replace (map (fun x => map (fun x0 => x0 * x0) [x]) r)
    with (map (fun x => [x]) (map (fun x => x * x) r))
    by (rewrite map_map; reflexivity).
  rewrite fold_vadd_singletons. reflexivity.
Qed.

Lemma binop_matrices (f : R -> R -> R) (M : nat) (rows1 rows2 : list (list R)) :
  Forall (fun r => length r = M) rows1 ->
  Forall (fun r => length r = M) rows2 ->
  length rows2 = length rows1 ->
  binop f (mkTensor [length rows1; M] (concat rows1))
    (mkTensor [length rows1; M] (concat rows2))
  = Ok (mkTensor [length rows1; M]
          (concat (map (fun p => map (fun q => f (fst q) (snd q))
                                    (combine (fst p) (snd p)))
                     (combine rows1 rows2)))).
Proof.
  intros H1 H2 Hlen. unfold binop. cbn [shape data].
  rewrite broadcast_shapes_same.
  cbn [bind length Nat.max pad_shape Nat.sub repeat app].
  rewrite (bzip_matrices f M rows1 rows2 H1 H2 Hlen). reflexivity.
Qed.

(** On [B] rays of [M >= 1] points each, line 173 computes for every ray
    the distance between its first and its last point. *)
Lemma ray_lengths_rays (M : nat) (rays : list (list (list R))) :
  (1 <= M)%nat ->
  Forall (is_ray M) rays ->
  ray_lengths (mkTensor [length rays; M; 3%nat] (concat (map (@concat R) rays)))
  = Ok (mkTensor [length rays] (map ray_length rays)).
Proof.
  intros HM Hrays. unfold ray_lengths.
  rewrite (select_sample M rays (-1) (M - 1) Hrays)
    by (try (change (-1 <? 0)%Z with true; cbv iota); lia).
  cbn [bind].
  rewrite (select_sample M rays 0 0 Hrays)
    by (try (change (0 <? 0)%Z with false; cbv iota); lia).
  cbn [bind].
  set (lasts := map (fun ray => nth (M - 1) ray []) rays).
  set (firsts := map (fun ray => nth 0 ray []) rays).
  assert (Hl : length lasts = length rays) by apply length_map.
  assert (Hf : length firsts = length lasts)
    by (unfold firsts, lasts; rewrite !length_map; reflexivity).
  assert (Hlasts : Forall (fun r => length r = 3%nat) lasts).
  { apply Forall_forall. intros r Hr.
    apply in_map_iff in Hr as (ray & <- & Hin).
    rewrite Forall_forall in Hrays.
    apply (nth_ray_point M ray); [exact (Hrays ray Hin) | lia]. }
  assert (Hfirsts : Forall (fun r => length r = 3%nat) firsts).
  { apply Forall_forall. intros r Hr.
    apply in_map_iff in Hr as (ray & <- & Hin).
    rewrite Forall_forall in Hrays.
    apply (nth_ray_point M ray); [exact (Hrays ray Hin) | lia]. }
  rewrite <- Hl.
  rewrite (binop_matrices Rminus 3 lasts firsts Hlasts Hfirsts Hf).
  cbn [bind].
  set (diffs := map (fun p : list R * list R =>
                       map (fun q => fst q - snd q) (combine (fst p) (snd p)))
                  (combine lasts firsts)).
  assert (Hd : length diffs = length lasts).
  { unfold diffs. rewrite length_map, length_combine, Hf. apply Nat.min_id. }
  assert (Hdiffs : Forall (fun r => length r = 3%nat) diffs).
  { apply Forall_forall. intros r Hr.
    apply in_map_iff in Hr as ((a & b) & <- & Hin).
    rewrite length_map, length_combine. cbn [fst snd].
    rewrite Forall_forall in Hlasts, Hfirsts.
    rewrite (Hlasts a (in_combine_l _ _ _ _ Hin)),
      (Hfirsts b (in_combine_r _ _ _ _ Hin)). reflexivity. }
  rewrite <- Hd, (norm_dim1_rows 3 diffs Hdiffs).
  rewrite Hd, Hl. do 2 f_equal.
  unfold diffs, lasts, firsts. clear -Hrays.
  induction Hrays as [| ray rays (Hlen & _) _ IH]; [reflexivity |].
  cbn [map combine fst snd]. f_equal; [| exact IH].
  unfold ray_length. rewrite map_map, Hlen. reflexivity.
Qed.

(** ** The projection steps on a constructed module *)

Lemma Forall_chunks_length {A : Type} (n k : nat) (d : list A) :
  length d = (n * k)%nat -> Forall (fun r => length r = k) (chunks n k d).
Proof.
  revert d. induction n as [| n IH]; intros d Hd; simpl; constructor.
  - rewrite length_firstn. lia.
  - apply IH. rewrite length_skipn. lia.
Qed.





(** * Further properties of the code *)

(** ** The learning-rate factor *)

Lemma pow_097_pos (n : nat) : 0 < 0.97 ^ n.
Proof. apply pow_lt. lra. Qed.

Lemma pow_097_antitone (n m : nat) : (n <= m)%nat -> 0.97 ^ m <= 0.97 ^ n.
Proof.
  induction 1 as [| m _ IH]; [lra |].
  simpl. pose proof (pow_097_pos m). lra.
Qed.

Lemma pow_097_le_1 (n : nat) : 0.97 ^ n <= 1.
Proof.
  replace 1 with (0.97 ^ 0) by reflexivity. apply pow_097_antitone. lia.
Qed.

(** X1: the factor [lr_lambda] never increases with the epoch and stays
    between 0 and 1, both included; it equals 1 up to epoch 50. *)
Theorem lr_lambda_decays :
  forall e1 e2 : Z,
    (e1 <= e2)%Z ->
    0 <= lr_lambda e2 <= lr_lambda e1
    /\ lr_lambda e1 <= 1
    /\ lr_lambda (Z.min e1 50) = 1.
Proof.
  intros e1 e2 Hle.
  assert (Hmin : lr_lambda (Z.min e1 50) = 1).
  { unfold lr_lambda.
    destruct (Z.min e1 50 <=? 50)%Z eqn:H; [reflexivity |].
    apply Z.leb_gt in H. lia. }
  unfold lr_lambda in *.
  destruct (e1 <=? 50)%Z eqn:H1; destruct (e2 <=? 50)%Z eqn:H2;
    try apply Z.leb_le in H1; try apply Z.leb_le in H2;
    try apply Z.leb_gt in H1; try apply Z.leb_gt in H2.
  - repeat split; try lra; exact Hmin.
  - pose proof (pow_097_pos (Z.to_nat (e2 - 50))).
    pose proof (pow_097_le_1 (Z.to_nat (e2 - 50))).
    repeat split; try lra; exact Hmin.
  - lia.
  - pose proof (pow_097_pos (Z.to_nat (e2 - 50))).
    pose proof (pow_097_le_1 (Z.to_nat (e1 - 50))).
    pose proof (pow_097_antitone (Z.to_nat (e1 - 50)) (Z.to_nat (e2 - 50))
                  ltac:(lia)).
    repeat split; try lra; exact Hmin.
Qed.

Lemma lr_lambda_decays_witness :
  0 <= lr_lambda 52 <= lr_lambda 50
  /\ lr_lambda 50 <= 1
  /\ lr_lambda (Z.min 50 50) = 1.
Proof.
  apply (lr_lambda_decays 50 52). lia.
Defined.

(** ** The sine module *)


(** ** The constructor: what it builds *)

Lemma hidden_layers_sizes (n : nat) (args_dict : Config) (g : Generator)
    (r : list Module * Generator) :
  hidden_layers n args_dict g = Ok r ->
  map (fun l => (in_features l, out_features l)) (flat_map linears (fst r))
  = repeat (Args.num_hidden_features args_dict,
            Args.num_hidden_features args_dict) n.
Proof.
  revert g r. induction n as [| n IH]; intros g r H; simpl in H.
  - injection H as <-. reflexivity.
  - destruct (Linear_new _ _ g) as [l g1] eqn:Hl.
    apply bind_ok in H as (a & _ & H).
    apply bind_ok in H as (r' & Hr' & H).
    injection H as <-.
    pose proof (Linear_new_sizes (Args.num_hidden_features args_dict)
                  (Args.num_hidden_features args_dict) g) as (Hin & Hout & _).
    rewrite Hl in Hin, Hout. simpl in Hin, Hout.
    simpl. rewrite (IH _ _ Hr'), Hin, Hout. reflexivity.
Qed.

(** The constructor, step by step. *)
Lemma MLP_init_unfold (get_encoder : string -> Result Encoder)
    (args_dict : Config) (pshape : list nat) (num_volumes : nat)
    (g g' : Generator) (self : MLP) (mut : Mut) :
  MLP_init get_encoder args_dict pshape num_volumes g = Ok (self, mut, g') ->
  exists nin g1 layers first act last g2 g3,
    match Args.encoder args_dict with
    | Some name => exists e, get_encoder name = Ok e /\ encoder self = Some e
    | None => encoder self = None
    end
    /\ (if Args.imagefit_mode args_dict then
          Args.latent_size args_dict <> 0%nat
          /\ exists tbl,
               lat_vecs self
               = Some (mkEmbedding num_volumes (Args.latent_size args_dict) tbl)
               /\ length tbl = (num_volumes * Args.latent_size args_dict)%nat
        else lat_vecs self = None)
    /\ nin = ((match encoder self with Some e => output_dim e | None => 3 end)
              + (if Args.imagefit_mode args_dict
                 then Args.latent_size args_dict else 0))%nat
    /\ hidden_layers (Args.num_hidden_layers args_dict) args_dict g1 = Ok layers
    /\ Linear_new nin (Args.num_hidden_features args_dict) (snd layers)
       = (first, g2)
    /\ get_activation_function (Args.activation_function args_dict) args_dict
       = Ok act
    /\ Linear_new (Args.num_hidden_features args_dict) 1 g2 = (last, g3)
    /\ frame (mlp self) = frame (assembled first act (fst layers) last)
    /\ mut = mkMut [] [] None []
    /\ projection_shape self = pshape
    /\ lr self = Args.learning_rate args_dict
    /\ imagefit_mode self = Args.imagefit_mode args_dict
    /\ l1_regularization_weight self = Args.regularization_weight args_dict
    /\ latent_size self = Args.latent_size args_dict.
Proof.
  unfold MLP_init. intros H.
  apply bind_ok in H as (enc & Henc & H).
  apply bind_ok in H as (lat & Hlat & H).
  destruct lat as [[lv nin] g1].
  apply bind_ok in H as (layers & Hlayers & H).
  destruct (Linear_new nin _ (snd layers)) as [first g2] eqn:Hfirst.
  apply bind_ok in H as (act & Hact & H).
  destruct (Linear_new _ 1 g2) as [last g3] eqn:Hlast.
  apply bind_ok in H as (r & Hr & H).
  injection H as <- <- <-.
  exists nin, g1, layers, first, act, last, g2, g3.
  cbn [encoder lat_vecs mlp projection_shape lr imagefit_mode
       l1_regularization_weight latent_size].
  assert (Hframe : frame (fst r) = frame (assembled first act (fst layers) last)).
  { unfold assembled.
    destruct (Args.activation_function args_dict =? "sine")%string.
    - apply bind_ok in Hr as (r1 & Hr1 & Hr).
      apply (apply_first_preserves_frame _
               first_layer_sine_init_preserves_frame) in Hr.
      apply (module_apply_preserves_frame _ sine_init_preserves_frame) in Hr1.
      congruence.
    - injection Hr as <-. reflexivity. }
  assert (Henc' : match Args.encoder args_dict with
                  | Some name => exists e, get_encoder name = Ok e /\ enc = Some e
                  | None => enc = None
                  end).
  { destruct (Args.encoder args_dict) as [name |].
    - apply bind_ok in Henc as (e & He & Henc). injection Henc as <-. eauto.
    - injection Henc as <-. reflexivity. }
  assert (Hlat' :
            (if Args.imagefit_mode args_dict then
               Args.latent_size args_dict <> 0%nat
               /\ exists tbl,
                    lv = Some (mkEmbedding num_volumes
                                 (Args.latent_size args_dict) tbl)
                    /\ length tbl
                       = (num_volumes * Args.latent_size args_dict)%nat
             else lv = None)
            /\ nin = ((match enc with Some e => output_dim e | None => 3 end)
                      + (if Args.imagefit_mode args_dict
                         then Args.latent_size args_dict else 0))%nat).
  { destruct (Args.imagefit_mode args_dict).
    - destruct (Embedding_new _ _ g) as [emb ge] eqn:He.
      destruct (Args.latent_size args_dict =? 0)%nat eqn:HL; [discriminate |].
      apply Nat.eqb_neq in HL.
      unfold Embedding_new, normal_ in He. injection He as <- <-.
      unfold normal_ in Hlat. cbn [data table shape] in Hlat.
      injection Hlat as <- <- _. split; [| reflexivity].
      split; [exact HL |]. eexists. split; [reflexivity |].
      rewrite !length_map, !length_seq. unfold zeros. cbn [data].
      rewrite repeat_length. cbn [numel fold_right]. lia.
    - injection Hlat as <- <- _. split; [reflexivity | lia]. }
  destruct Hlat' as (Hlv & Hnin).
  repeat split; try assumption; try reflexivity.
Qed.

(** X3: a constructed module has [num_hidden_layers + 2] linear layers, of
    sizes [n_in -> H], then [H -> H] for every hidden block, then [H -> 1],
    where [n_in] is the encoder's output width (3 without encoder) plus, in
    imagefit mode, the latent size; both validation buffers start empty, and
    the latent table exists exactly in imagefit mode. *)
Theorem MLP_init_builds :
  forall (get_encoder : string -> Result Encoder) (args_dict : Config)
         (pshape : list nat) (num_volumes : nat) (g g' : Generator)
         (self : MLP) (mut : Mut),
    MLP_init get_encoder args_dict pshape num_volumes g = Ok (self, mut, g') ->
    let H := Args.num_hidden_features args_dict in
    let n_in :=
      ((match encoder self with Some e => output_dim e | None => 3 end)
       + (if Args.imagefit_mode args_dict
          then Args.latent_size args_dict else 0))%nat in
    map (fun l => (in_features l, out_features l)) (linears (mlp self))
    = (n_in, H) :: repeat (H, H) (Args.num_hidden_layers args_dict)
      ++ [(H, 1%nat)]
    /\ validation_step_outputs mut = [] /\ validation_step_gt mut = []
    /\ imagefit_mode self = Args.imagefit_mode args_dict
    /\ (lat_vecs self = None <-> Args.imagefit_mode args_dict = false).
Proof.
  intros get_encoder args_dict pshape num_volumes g g' self mut Hinit H n_in.
  apply MLP_init_unfold in Hinit
    as (nin & g1 & layers & first & act & last & g2 & g3 & _ & Hlat & Hnin
        & Hlayers & Hfirst & _ & Hlast & Hframe & -> & _ & _ & Hmode & _).
  split; [| split; [reflexivity | split; [reflexivity | split; [exact Hmode |]]]].
  - apply frame_linears in Hframe.
    apply (f_equal (map (fun l => (in_features l, out_features l)))) in Hframe.
    rewrite !map_map in Hframe. cbn [frame_linear in_features out_features] in Hframe.
    rewrite Hframe. unfold assembled. cbn [linears flat_map app map].
    rewrite flat_map_app, map_app, (hidden_layers_sizes _ _ _ _ Hlayers).
    pose proof (Linear_new_sizes nin H (snd layers)) as (Hi1 & Ho1 & _).
    pose proof (Linear_new_sizes H 1 g2) as (Hi2 & Ho2 & _).
    fold H in Hfirst, Hlast. rewrite Hfirst in Hi1, Ho1. rewrite Hlast in Hi2, Ho2.
    cbn [fst] in Hi1, Ho1, Hi2, Ho2.
    cbn [flat_map linears app map]. rewrite Hi1, Ho1, Hi2, Ho2, Hnin.
    reflexivity.
  - destruct (Args.imagefit_mode args_dict).
    + destruct Hlat as (_ & tbl & -> & _). split; discriminate.
    + rewrite Hlat. split; reflexivity.
Qed.

Lemma MLP_init_builds_witness :
  exists (self : MLP) (mut : Mut) (g' : Generator),
    MLP_init no_encoder (example_args "sine" true) [2]%nat 3
      example_generator = Ok (self, mut, g')
    /\ map (fun l => (in_features l, out_features l)) (linears (mlp self))
       = [(5, 2); (2, 2); (2, 1)]%nat
    /\ validation_step_outputs mut = [] /\ validation_step_gt mut = []
    /\ imagefit_mode self = true
    /\ (lat_vecs self = None <-> true = false).
Proof.
  do 3 eexists.
  assert (Hinit : MLP_init no_encoder (example_args "sine" true) [2]%nat 3
                    example_generator = Ok (_, _, _)) by (run; reflexivity).
  split; [exact Hinit |].
  exact (MLP_init_builds _ _ _ _ _ _ _ _ Hinit).
Defined.

(** ** The constructor: when it raises *)

Lemma get_activation_function_unknown (name : string) (args_dict : Config) :
  lookup_activation name supported_activations = None ->
  get_activation_function name args_dict
  = Raise (ValueError ("Unknown activation function: " ++ name)%string).
Proof.
  unfold lookup_activation, supported_activations, get_activation_function.
  repeat match goal with
         | |- context [(name =? ?k)%string] =>
             destruct (name =? k)%string; try discriminate
         end.
  reflexivity.
Qed.

Lemma hidden_layers_unknown (n : nat) (args_dict : Config) (g : Generator) :
  lookup_activation (Args.activation_function args_dict) supported_activations
  = None ->
  n <> 0%nat ->
  hidden_layers n args_dict g
  = Raise (ValueError ("Unknown activation function: "
                       ++ Args.activation_function args_dict)%string).
Proof.
  intros Hname Hn. destruct n as [| n]; [congruence |].
  simpl. destruct (Linear_new _ _ g) as [l g1].
  rewrite (get_activation_function_unknown _ args_dict Hname). reflexivity.
Qed.

(** X4: with an activation name outside the catalogue the constructor
    raises the [ValueError] of [get_activation_function], naming the value,
    whatever the number of hidden layers (no encoder; in imagefit mode the
    latent size is not zero). *)
Theorem MLP_init_unknown_activation :
  forall (get_encoder : string -> Result Encoder) (args_dict : Config)
         (pshape : list nat) (num_volumes : nat) (g : Generator),
    lookup_activation (Args.activation_function args_dict)
      supported_activations = None ->
    Args.encoder args_dict = None ->
    Args.imagefit_mode args_dict = false
    \/ Args.latent_size args_dict <> 0%nat ->
    MLP_init get_encoder args_dict pshape num_volumes g
    = Raise (ValueError ("Unknown activation function: "
                         ++ Args.activation_function args_dict)%string).
Proof.
  intros get_encoder args_dict pshape num_volumes g Hname Henc Hlat.
  unfold MLP_init. rewrite Henc. cbn [bind].
  destruct (Args.imagefit_mode args_dict) eqn:Hmode.
  - destruct Hlat as [Hlat | Hlat]; [discriminate |].
    destruct (Embedding_new _ _ g) as [emb g1].
    apply Nat.eqb_neq in Hlat. rewrite Hlat.
    destruct (normal_ _ _ _ g1) as [w g2]. cbn [bind].
    destruct (Args.num_hidden_layers args_dict) as [| n] eqn:Hn.
    + cbn [hidden_layers bind snd].
      destruct (Linear_new _ _ g2) as [first g3].
      rewrite (get_activation_function_unknown _ args_dict Hname). reflexivity.
    + rewrite (hidden_layers_unknown (S n) args_dict g2 Hname) by discriminate.
      reflexivity.
  - cbn [bind].
    destruct (Args.num_hidden_layers args_dict) as [| n] eqn:Hn.
    + cbn [hidden_layers bind snd].
      destruct (Linear_new _ _ g) as [first g3].
      rewrite (get_activation_function_unknown _ args_dict Hname). reflexivity.
    + rewrite (hidden_layers_unknown (S n) args_dict g Hname) by discriminate.
      reflexivity.
Qed.

Lemma MLP_init_unknown_activation_witness :
  MLP_init no_encoder (example_config "gelu" true 2 2) [2]%nat 1
    example_generator
  = Raise (ValueError "Unknown activation function: gelu").
Proof.
  apply (MLP_init_unknown_activation no_encoder (example_config "gelu" true 2 2)).
  - reflexivity.
  - reflexivity.
  - right. discriminate.
Defined.

(** X5: in imagefit mode a latent size of zero makes the constructor raise
    [ZeroDivisionError]: the standard deviation [1 / math.sqrt(latent_size)]
    of line 104 cannot be computed. *)
Theorem MLP_init_zero_latent_size :
  forall (get_encoder : string -> Result Encoder) (args_dict : Config)
         (pshape : list nat) (num_volumes : nat) (g : Generator),
    Args.encoder args_dict = None ->
    Args.imagefit_mode args_dict = true ->
    Args.latent_size args_dict = 0%nat ->
    MLP_init get_encoder args_dict pshape num_volumes g
    = Raise (ZeroDivisionError "float division by zero").
Proof.
  intros get_encoder args_dict pshape num_volumes g Henc Hmode Hlat.
  unfold MLP_init. rewrite Henc, Hmode, Hlat. cbn [bind].
  destruct (Embedding_new num_volumes 0 g) as [emb g1]. reflexivity.
Qed.

Lemma MLP_init_zero_latent_size_witness :
  MLP_init no_encoder (example_config "relu" true 2 0) [2]%nat 1
    example_generator
  = Raise (ZeroDivisionError "float division by zero").
Proof.
  apply (MLP_init_zero_latent_size no_encoder (example_config "relu" true 2 0));
    reflexivity.
Defined.

Lemma sine_init_zero_fan_in (m : Module) (g : Generator) :
  Forall shaped (linears m) ->
  Exists (fun l => in_features l = 0%nat) (linears m) ->
  module_apply sine_init m g = Raise (ZeroDivisionError "division by zero").
Proof.
  revert g. induction m as [l | a | cs IH] using Module_tree_ind;
    intros g Hsh Hex.
  - simpl in Hsh, Hex. apply Forall_inv in Hsh.
    apply Exists_cons in Hex as [Hz | Hex]; [| inversion Hex].
    simpl. rewrite (size_last_shaped l Hsh), Hz. reflexivity.
  - simpl in Hex. inversion Hex.
  - simpl in Hsh, Hex |- *.
    assert (Heach : apply_children (module_apply sine_init) cs g
                    = Raise (ZeroDivisionError "division by zero")).
    { revert g Hsh Hex. induction IH as [| c cs Hc _ IHcs]; intros g Hsh Hex.
      - inversion Hex.
      - simpl in Hsh, Hex. apply Forall_app in Hsh as (Hsc & Hscs).
        apply Exists_app in Hex.
        destruct (Exists_dec (fun l => in_features l = 0%nat) (linears c)
                    (fun l => Nat.eq_dec (in_features l) 0)) as [Hzc | Hnz].
        + simpl. rewrite (Hc g Hsc Hzc). reflexivity.
        + destruct Hex as [Hzc | Hzcs]; [contradiction |].
          assert (Hall : Forall (fun l => shaped l /\ in_features l <> 0%nat)
                           (linears c)).
          { apply Forall_Exists_neg in Hnz.
            rewrite Forall_forall in Hsc, Hnz |- *. intros l Hl.
            split; [apply Hsc | apply Hnz]; exact Hl. }
          destruct (sine_init_succeeds c g Hall) as (r1 & Hr1).
          simpl. rewrite Hr1. cbn [bind].
          rewrite (IHcs (snd r1) Hscs Hzcs). reflexivity. }
    rewrite Heach. reflexivity.
Qed.

(** X6: with the sine activation (projection mode, no encoder) the
    constructor returns exactly when the hidden width is at least 1; a hidden
    width of zero makes [sine_init] divide [6] by a fan-in of zero and the
    constructor raises [ZeroDivisionError]. *)
Theorem MLP_init_sine_needs_width :
  forall (get_encoder : string -> Result Encoder) (args_dict : Config)
         (pshape : list nat) (num_volumes : nat) (g : Generator),
    Args.activation_function args_dict = "sine" ->
    Args.encoder args_dict = None ->
    Args.imagefit_mode args_dict = false ->
    if (Args.num_hidden_features args_dict =? 0)%nat then
      MLP_init get_encoder args_dict pshape num_volumes g
      = Raise (ZeroDivisionError "division by zero")
    else
      is_ok (MLP_init get_encoder args_dict pshape num_volumes g) = true.
Proof.
  intros get_encoder args_dict pshape num_volumes g Hact Henc Hmode.
  destruct (Args.num_hidden_features args_dict =? 0)%nat eqn:HH.
  - apply Nat.eqb_eq in HH.
    unfold MLP_init. rewrite Henc, Hmode. cbn [bind].
    assert (Ha : get_activation_function (Args.activation_function args_dict)
                   args_dict = Ok Sine) by (rewrite Hact; reflexivity).
    destruct (hidden_layers_succeed (Args.num_hidden_layers args_dict)
                args_dict g Sine Ha) as (layers & Hlayers & _).
    rewrite Hlayers. cbn [bind].
    destruct (Linear_new 3 _ (snd layers)) as [first g2] eqn:Hfirst.
    rewrite Ha. cbn [bind].
    destruct (Linear_new _ 1 g2) as [last g3] eqn:Hlast.
    rewrite Hact, String.eqb_refl.
    pose proof (Linear_new_shaped 3 (Args.num_hidden_features args_dict)
                  (snd layers)) as (Hs1 & _).
    pose proof (Linear_new_shaped (Args.num_hidden_features args_dict) 1 g2)
      as (Hs2 & Hi2 & _).
    rewrite Hfirst in Hs1. rewrite Hlast in Hs2, Hi2. cbn [fst] in Hs1, Hs2, Hi2.
    destruct (hidden_layers_shaped _ _ _ _ Hlayers) as (Hsh & _).
    rewrite sine_init_zero_fan_in; [reflexivity | |].
    + simpl. constructor; [exact Hs1 |]. rewrite flat_map_app.
      apply Forall_app. split; [exact Hsh |].
      simpl. constructor; [exact Hs2 | constructor].
    + simpl. apply Exists_cons_tl. rewrite flat_map_app.
      apply Exists_app. right. simpl. apply Exists_cons_hd. congruence.
  - apply Nat.eqb_neq in HH.
    destruct (MLP_init_sine_succeeds get_encoder args_dict pshape num_volumes g
                Hact Henc Hmode ltac:(lia)) as (self & mut & g' & ->).
    reflexivity.
Qed.

Lemma MLP_init_sine_needs_width_witness :
  MLP_init no_encoder (example_config "sine" false 0 2) [2]%nat 1
    example_generator
  = Raise (ZeroDivisionError "division by zero")
  /\ is_ok (MLP_init no_encoder (example_config "sine" false 2 2) [2]%nat 1
              example_generator) = true.
Proof.
  split.
  - exact (MLP_init_sine_needs_width no_encoder
             (example_config "sine" false 0 2) [2]%nat 1 example_generator
             eq_refl eq_refl eq_refl).
  - exact (MLP_init_sine_needs_width no_encoder
             (example_config "sine" false 2 2) [2]%nat 1 example_generator
             eq_refl eq_refl eq_refl).
Defined.


(** ** The forward pass with a latent tensor *)

Lemma length_zip_app {A : Type} (n k1 k2 : nat) (a b : list (list A)) :
  length a = n -> length b = n ->
  Forall (fun r => length r = k1) a ->
  Forall (fun r => length r = k2) b ->
  length (zip_app a b) = n
  /\ Forall (fun r => length r = (k1 + k2)%nat) (zip_app a b).
Proof.
  intros Ha Hb Hfa. revert n b Ha Hb.
  induction Hfa as [| x a Hx _ IH]; intros n b Ha Hb Hfb.
  - destruct b; simpl in *; [| congruence]. split; [exact Ha | constructor].
  - destruct Hfb as [| y b Hy Hfb]; [simpl in *; congruence |].
    destruct n as [| n]; [discriminate |].
    simpl in Ha, Hb. injection Ha as Ha. injection Hb as Hb.
    destruct (IH n b Ha Hb Hfb) as (Hl & Hf).
    unfold zip_app in *. simpl. split; [now rewrite Hl |].
    constructor; [rewrite length_app; congruence | exact Hf].
Qed.

(** Concatenation of [n] latent rows of width [k] with [n] coordinate rows
    of width [w]. *)
Lemma cat_columns (n k w : nat) (v d : list R) :
  length v = (n * k)%nat ->
  length d = (n * w)%nat ->
  exists x,
    torch_cat [Some (mkTensor [n; k] v); Some (mkTensor [n; w] d)] 1
    = Ok (mkTensor [n; (k + w)%nat] x)
    /\ length x = (n * (k + w))%nat.
Proof.
  intros Hv Hd. unfold torch_cat. cbn [forallb andb flat_map app].
  unfold cat_tensors. cbn [filter cat_skipped shape negb length].
  cbn [Nat.eqb Nat.leb forallb same_except shape length seq nth orb andb negb].
  rewrite !Nat.eqb_refl.
  cbn [andb orb negb firstn skipn numel fold_right map nth data app shape].
  rewrite !Nat.mul_1_r, Nat.add_0_r.
  eexists. split; [reflexivity |].
  rewrite (zip_app_nil_r n) by apply length_chunks.
  destruct (length_zip_app n k w (chunks n k v) (chunks n w d)
              (length_chunks n k v) (length_chunks n w d)
              (Forall_chunks_length n k v Hv) (Forall_chunks_length n w d Hd))
    as (Hl & Hf).
  rewrite (length_concat_rows (k + w) _ Hf), Hl. reflexivity.
Qed.

Lemma infer_size_rows (n w : nat) :
  w <> 0%nat -> infer_size [-1; Z.of_nat w]%Z (n * w) = Ok [n; w].
Proof.
  intros Hw. unfold infer_size.
  assert (H1 : (Z.of_nat w <? -1)%Z = false) by (apply Z.ltb_ge; lia).
  assert (H2 : (Z.of_nat w =? -1)%Z = false) by (apply Z.eqb_neq; lia).
  assert (H3 : count_occ Z.eq_dec [-1; Z.of_nat w]%Z (-1)%Z = 1%nat).
  { cbn [count_occ]. destruct (Z.eq_dec (-1) (-1)) as [_ | Hne]; [| congruence].
    destruct (Z.eq_dec (Z.of_nat w) (-1)) as [Heq | _]; [lia | reflexivity]. }
  rewrite H3.
  cbn -[Nat.modulo Nat.div Nat.mul Z.of_nat Nat.eqb Nat.ltb].
  rewrite H1, H2.
  cbn -[Nat.modulo Nat.div Nat.mul Z.of_nat Nat.eqb Nat.ltb].
  rewrite Nat2Z.id, Nat.mul_1_r.
  change (1 <? 1)%nat with false. cbv iota.
  rewrite Nat.Div0.mod_mul, Nat.eqb_refl, andb_true_r.
  assert (Hpos : (0 <? w)%nat = true) by (apply Nat.ltb_lt; lia).
  rewrite Hpos, orb_true_r.
  assert (Hz : (w =? 0)%nat = false) by (apply Nat.eqb_neq; exact Hw).
  rewrite Hz, Nat.div_mul by exact Hw. reflexivity.
Qed.

(** [view] with the sizes of a shape, and with the leading sizes of a shape
    followed by [-1]. *)
Lemma sizes_of_shape (s : list nat) :
  existsb (fun z => (z <? -1)%Z) (map Z.of_nat s) = false
  /\ existsb (fun z => (z =? -1)%Z) (map Z.of_nat s) = false
  /\ count_occ Z.eq_dec (map Z.of_nat s) (-1)%Z = 0%nat
  /\ filter (fun z => negb (z =? -1)%Z) (map Z.of_nat s) = map Z.of_nat s
  /\ map Z.to_nat (map Z.of_nat s) = s.
Proof.
  induction s as [| a s (H1 & H2 & H3 & H4 & H5)]; [repeat split |].
  assert (Ha : (Z.of_nat a <? -1)%Z = false) by (apply Z.ltb_ge; lia).
  assert (Ha' : (Z.of_nat a =? -1)%Z = false) by (apply Z.eqb_neq; lia).
  cbn [map existsb count_occ filter].
  rewrite Ha, Ha', H1, H2, H4, H5, Nat2Z.id. cbn [orb negb].
  repeat split; try reflexivity.
  destruct (Z.eq_dec (Z.of_nat a) (-1)) as [Heq | _]; [lia | exact H3].
Qed.


Lemma infer_size_shape (s : list nat) :
  infer_size (map Z.of_nat s) (numel s) = Ok s.
Proof.
  destruct (sizes_of_shape s) as (H1 & H2 & H3 & H4 & H5).
  unfold infer_size. rewrite H1, H2, H3, H4, H5.
  cbn [Nat.ltb Nat.leb andb]. rewrite Nat.eqb_refl. reflexivity.
Qed.


(** Coordinates of shape [lead ++ [3]] with a latent row per coordinate:
    the concatenated rows and what the network makes of them. *)
Lemma forward_unfold (self : MLP) (lead : list nat) (k : nat) (d v x : list R)
    (r : Result Tensor) :
  encoder self = None ->
  lead <> [] ->
  length d = (numel lead * 3)%nat ->
  torch_cat [Some (mkTensor [numel lead; k] v);
             Some (mkTensor [numel lead; 3%nat] d)] 1
  = Ok (mkTensor [numel lead; (k + 3)%nat] x) ->
  module_forward (mlp self) (mkTensor [numel lead; (k + 3)%nat] x) = r ->
  forward self (mkTensor (lead ++ [3%nat]) d)
    (Some (mkTensor [numel lead; k] v))
  = match lead with
    | [_] => r
    | _ => let* out := r in view out (map Z.of_nat lead ++ [-1]%Z)
    end.
Proof.
  intros Henc Hne Hd Hcat Hr.
  destruct lead as [| a [| b lead]]; [congruence | |].
  - assert (Ha : numel [a] = a) by (cbn [numel fold_right]; lia).
    rewrite Ha in *.
    unfold forward. cbn [shape app length Nat.ltb Nat.leb bind].
    rewrite Henc. cbn [bind]. rewrite Hcat. cbn [bind]. rewrite Hr.
    destruct r; reflexivity.
  - assert (Hlen : (2 <? length ((a :: b :: lead) ++ [3%nat]))%nat = true).
    { apply Nat.ltb_lt. rewrite length_app. simpl. lia. }
    unfold forward. cbn [shape]. rewrite Hlen.
    unfold view at 1. cbn [data]. rewrite Hd, infer_size_points. cbn [bind].
    rewrite Henc. cbn [bind]. rewrite Hcat. cbn [bind]. rewrite Hr.
    rewrite removelast_last. reflexivity.
Qed.






(** A stack of modules either maps rows of width [w] to rows of the width
    computed by [width], or a linear layer rejects its input. *)
Lemma module_forward_width (m : Module) :
  forall (n w : nat) (d : list R),
    match width m w with
    | Some w' =>
        exists d', module_forward m (mkTensor [n; w] d) = Ok (mkTensor [n; w'] d')
    | None =>
        module_forward m (mkTensor [n; w] d)
        = Raise (RuntimeError "mat1 and mat2 shapes cannot be multiplied")
    end.
Proof.
  induction m as [l | a | cs IH] using Module_tree_ind; intros n w d.
  - simpl. unfold linear_forward. cbn [shape rev app].
    destruct (w =? in_features l)%nat; [eexists |]; reflexivity.
  - simpl. eexists. reflexivity.
  - simpl. revert w d. induction IH as [| c cs Hc _ IHcs]; intros w d.
    + simpl. eexists. reflexivity.
    + simpl. specialize (Hc n w d). destruct (width c w) as [w1 |].
      * destruct Hc as (d1 & ->). cbn [bind]. apply IHcs.
      * rewrite Hc. reflexivity.
Qed.

Lemma MLP_init_first_width (get_encoder : string -> Result Encoder)
    (args_dict : Config) (pshape : list nat) (num_volumes : nat)
    (g g' : Generator) (self : MLP) (mut : Mut) (w : nat) :
  MLP_init get_encoder args_dict pshape num_volumes g = Ok (self, mut, g') ->
  w <> ((match encoder self with Some e => output_dim e | None => 3 end)
        + (if Args.imagefit_mode args_dict
           then Args.latent_size args_dict else 0))%nat ->
  width (mlp self) w = None.
Proof.
  intros Hinit Hw.
  apply MLP_init_unfold in Hinit
    as (nin & g1 & layers & first & act & last & g2 & g3 & _ & _ & Hnin
        & _ & Hfirst & _ & _ & Hframe & _).
  rewrite (frame_width _ _ w Hframe). unfold assembled.
  cbn [width sequential_width].
  pose proof (Linear_new_sizes nin (Args.num_hidden_features args_dict)
                (snd layers)) as (Hin & _).
  rewrite Hfirst in Hin. cbn [fst] in Hin. rewrite Hin, Hnin.
  apply Nat.eqb_neq in Hw. rewrite Hw. reflexivity.
Qed.

(** X8: a constructed module without encoder rejects a latent tensor whose
    number of columns differs from the configured one (the latent size in
    imagefit mode, none in projection mode), whatever the leading
    dimensions of the coordinates: the first linear layer raises the shape
    error of the matrix product. *)
Theorem forward_rejects_latent_width :
  forall (get_encoder : string -> Result Encoder) (args_dict : Config)
         (pshape : list nat) (num_volumes : nat) (g g' : Generator)
         (self : MLP) (mut : Mut) (lead : list nat) (k' : nat) (d v : list R),
    MLP_init get_encoder args_dict pshape num_volumes g = Ok (self, mut, g') ->
    Args.encoder args_dict = None ->
    k' <> (if Args.imagefit_mode args_dict
           then Args.latent_size args_dict else 0)%nat ->
    lead <> [] ->
    length d = (numel lead * 3)%nat ->
    length v = (numel lead * k')%nat ->
    forward self (mkTensor (lead ++ [3%nat]) d)
      (Some (mkTensor [numel lead; k'] v))
    = Raise (RuntimeError "mat1 and mat2 shapes cannot be multiplied").
Proof.
  intros get_encoder args_dict pshape num_volumes g g' self mut lead k' d v
    Hinit Henc Hk Hne Hd Hv.
  destruct (MLP_init_widths _ _ _ _ _ _ _ _ Hinit Henc) as (He & _ & _).
  assert (Hw : width (mlp self) (k' + 3) = None).
  { apply (MLP_init_first_width _ _ _ _ _ _ _ _ _ Hinit).
    rewrite He. lia. }
  destruct (cat_columns (numel lead) k' 3 v d Hv Hd) as (x & Hcat & _).
  pose proof (module_forward_width (mlp self) (numel lead) (k' + 3) x) as Hf.
  rewrite Hw in Hf.
  rewrite (forward_unfold self lead k' d v x _ He Hne Hd Hcat Hf).
  destruct lead as [| a [| b lead]]; reflexivity.
Qed.

Lemma forward_rejects_latent_width_witness :
  exists (self : MLP) (mut : Mut) (g' : Generator),
    MLP_init no_encoder (example_args "relu" false) [4; 4]%nat 1
      example_generator = Ok (self, mut, g')
    /\ forward self (mkTensor [1; 2; 3]%nat [0; 0; 0; 1; 1; 1])
         (Some (mkTensor [2; 1]%nat [0; 0]))
       = Raise (RuntimeError "mat1 and mat2 shapes cannot be multiplied").
Proof.
  do 3 eexists. split; [run; reflexivity |].
  match goal with
  | |- forward ?s _ _ = _ => set (self := s)
  end.
  exact (forward_rejects_latent_width no_encoder
           (example_args "relu" false) [4; 4]%nat 1%nat example_generator _
           self _ [1; 2]%nat 1%nat [0; 0; 0; 1; 1; 1] [0; 0]
           ltac:(run; reflexivity) eq_refl ltac:(discriminate)
           ltac:(discriminate) eq_refl eq_refl).
Defined.

(** ** The latent rows of the imagefit branches *)

Lemma chunks_one {A : Type} (k : nat) (d : list A) :
  length d = k -> chunks 1 k d = [d].
Proof.
  intros H. simpl. rewrite firstn_all2 by lia. reflexivity.
Qed.

Lemma tile_cons (n r : nat) (s reps : list nat) (d : list R) :
  tile (n :: s) (r :: reps) d
  = concat (repeat (concat (map (tile s reps) (chunks n (numel s) d))) r).
Proof. reflexivity. Qed.

Lemma tile_row (L : nat) (row : list R) :
  length row = L -> tile [L] [1%nat] row = row.
Proof.
  intros H. cbn [tile repeat concat numel fold_right].
  rewrite app_nil_r, map_id. apply concat_chunks. lia.
Qed.

Lemma tile_matrix (B L w : nat) (d : list R) :
  length d = (B * L)%nat ->
  tile [B; L] [w; 1%nat] d = concat (repeat d w).
Proof.
  intros H. rewrite tile_cons. do 2 f_equal.
  change (numel [L]) with (L * 1)%nat. rewrite Nat.mul_1_r.
  rewrite <- (concat_chunks B L d H) at 2. f_equal.
  rewrite <- (map_id (chunks B L d)) at 2.
  apply map_ext_in. intros row Hrow.
  pose proof (Forall_chunks_length B L d H) as Hf.
  rewrite Forall_forall in Hf.
  exact (tile_row L row (Hf row Hrow)).
Qed.

Lemma tile_latent (B L h w : nat) (d : list R) :
  length d = (B * L)%nat ->
  tile [1%nat; 1%nat; B; L] [1%nat; h; w; 1%nat] d
  = concat (repeat (concat (repeat d w)) h).
Proof.
  intros H.
  assert (H1 : numel [1%nat; B; L] = (B * L)%nat) by (cbn [numel fold_right]; lia).
  assert (H2 : numel [B; L] = (B * L)%nat) by (cbn [numel fold_right]; lia).
  rewrite tile_cons, H1, (chunks_one (B * L) d H).
  cbn [map concat repeat]. rewrite !app_nil_r.
  rewrite tile_cons, H2, (chunks_one (B * L) d H).
  cbn [map concat]. rewrite !app_nil_r.
  rewrite (tile_matrix B L w d H). reflexivity.
Qed.

Lemma concat_repeat_concat {A : Type} (rows : list (list A)) (n : nat) :
  concat (repeat (concat rows) n) = concat (concat (repeat rows n)).
Proof.
  induction n as [| n IH]; [reflexivity |].
  simpl. rewrite concat_app, IH. reflexivity.
Qed.

Lemma concat_repeat_mul {A : Type} (d : list A) (w h : nat) :
  concat (repeat (concat (repeat d w)) h) = concat (repeat d (h * w)).
Proof.
  induction h as [| h IH]; [reflexivity |].
  simpl. rewrite IH, repeat_app, concat_app. reflexivity.
Qed.

Lemma nth_concat_repeat {A : Type} (rows : list A) (n r : nat) (a : A) :
  (r < n * length rows)%nat ->
  nth r (concat (repeat rows n)) a = nth (r mod length rows) rows a.
Proof.
  revert r. induction n as [| n IH]; intros r Hr; [simpl in Hr; lia |].
  simpl. destruct (Nat.lt_ge_cases r (length rows)) as [Hlt | Hge].
  - rewrite app_nth1 by exact Hlt. rewrite Nat.mod_small by exact Hlt.
    reflexivity.
  - rewrite app_nth2 by exact Hge. rewrite IH by (simpl in Hr; lia).
    f_equal.
    replace r with ((r - length rows) + 1 * length rows)%nat at 2 by lia.
    rewrite Nat.Div0.mod_add. reflexivity.
Qed.

(** The rows of the latent table selected by the indices. *)
Lemma embedding_lookup_rows (e : Embedding) (zs : list Z) (s : list nat) :
  length (table e) = (num_embeddings e * embedding_dim e)%nat ->
  Forall (fun z => (0 <= z < Z.of_nat (num_embeddings e))%Z) zs ->
  let rows :=
    map (fun z => nth (Z.to_nat z)
                    (chunks (num_embeddings e) (embedding_dim e) (table e)) [])
      zs in
  embedding_lookup e (mkITensor s zs)
  = Ok (mkTensor (s ++ [embedding_dim e]) (concat rows))
  /\ Forall (fun r => length r = embedding_dim e) rows
  /\ length rows = length zs.
Proof.
  intros Htbl Hzs rows. unfold embedding_lookup. cbn [idata ishape].
  assert (Hall : forallb (fun z => (0 <=? z)%Z
                                   && (z <? Z.of_nat (num_embeddings e))%Z) zs
                 = true).
  { apply forallb_forall. intros z Hz. rewrite Forall_forall in Hzs.
    specialize (Hzs z Hz). apply andb_true_iff. split.
    - apply Z.leb_le. lia.
    - apply Z.ltb_lt. lia. }
  rewrite Hall. split; [| split].
  - rewrite flat_map_concat_map. reflexivity.
  - apply Forall_forall. intros r Hr. unfold rows in Hr.
    apply in_map_iff in Hr as (z & <- & Hz).
    rewrite Forall_forall in Hzs. specialize (Hzs z Hz).
    pose proof (Forall_chunks_length (num_embeddings e) (embedding_dim e)
                  (table e) Htbl) as Hf.
    rewrite Forall_forall in Hf. apply Hf. apply nth_In.
    rewrite length_chunks. lia.
  - unfold rows. apply length_map.
Qed.

Lemma latent_for_embedding (self : MLP) (e : Embedding) (pts : Tensor)
    (zs : list Z) (h w : nat) (rest : list nat) :
  lat_vecs self = Some e ->
  embedding_dim e = latent_size self ->
  latent_size self <> 0%nat ->
  length (table e) = (num_embeddings e * embedding_dim e)%nat ->
  shape pts = length zs :: h :: w :: rest ->
  Forall (fun z => (0 <= z < Z.of_nat (num_embeddings e))%Z) zs ->
  let rows :=
    map (fun z => nth (Z.to_nat z)
                    (chunks (num_embeddings e) (embedding_dim e) (table e)) [])
      zs in
  latent_for self pts (mkITensor [length zs] zs)
  = Ok (mkTensor [(h * w * length zs)%nat; latent_size self]
          (concat (concat (repeat rows (h * w)))))
  /\ Forall (fun r => length r = latent_size self)
       (concat (repeat rows (h * w)))
  /\ length (concat (repeat rows (h * w))) = (h * w * length zs)%nat.
Proof.
  intros Hlat Hdim HL Htbl Hshape Hzs rows.
  destruct (embedding_lookup_rows e zs [length zs] Htbl Hzs)
    as (Hlook & Hrows & Hlen).
  fold rows in Hlook, Hrows, Hlen.
  assert (Hrep : Forall (fun r => length r = latent_size self)
                   (concat (repeat rows (h * w)))).
  { apply Forall_forall. intros r Hr. apply in_concat in Hr as (l & Hl & Hr).
    apply repeat_spec in Hl. subst l. rewrite Forall_forall in Hrows.
    rewrite <- Hdim. exact (Hrows r Hr). }
  assert (Hreplen : length (concat (repeat rows (h * w)))
                    = (h * w * length zs)%nat).
  { rewrite (length_concat_rows (length zs)).
    - rewrite repeat_length. reflexivity.
    - apply Forall_forall. intros l Hl. apply repeat_spec in Hl. now subst l. }
  split; [| split; assumption].
  unfold latent_for. rewrite Hlat. cbn [bind]. rewrite Hlook. cbn [bind].
  rewrite Hshape. cbn [shape_at nth_error bind].
  unfold repeat_tensor. cbn [shape length app Nat.ltb Nat.leb].
  cbn [pad_shape length Nat.sub repeat app data].
  assert (Hd : length (concat rows) = (length zs * embedding_dim e)%nat).
  { rewrite (length_concat_rows (embedding_dim e) rows Hrows), Hlen.
    reflexivity. }
  rewrite (tile_latent (length zs) (embedding_dim e) h w (concat rows) Hd).
  rewrite concat_repeat_mul, concat_repeat_concat.
  cbn [bind]. unfold view. cbn [data].
  rewrite (length_concat_rows (latent_size self) _ Hrep), Hreplen.
  rewrite (infer_size_rows (h * w * length zs) (latent_size self) HL).
  reflexivity.
Qed.

(** X9: for a constructed imagefit module, points of shape [B; h; w; ...]
    and [B] volume indices within the table, the latent argument of the
    forward pass has [h * w * B] rows of the latent size, and row [r] is the
    table row of the index at position [r mod B]: the [B] latent vectors are
    laid out cyclically, not in blocks of [h * w] rows per volume. *)
Theorem latent_for_rows_cycle :
  forall (get_encoder : string -> Result Encoder) (args_dict : Config)
         (pshape : list nat) (num_volumes : nat) (g g' : Generator)
         (self : MLP) (mut : Mut) (pts : Tensor) (zs : list Z)
         (h w : nat) (rest : list nat),
    MLP_init get_encoder args_dict pshape num_volumes g = Ok (self, mut, g') ->
    Args.imagefit_mode args_dict = true ->
    shape pts = length zs :: h :: w :: rest ->
    Forall (fun z => (0 <= z < Z.of_nat num_volumes)%Z) zs ->
    exists (e : Embedding) (lat : list (list R)),
      lat_vecs self = Some e
      /\ latent_for self pts (mkITensor [length zs] zs)
         = Ok (mkTensor [(h * w * length zs)%nat; latent_size self]
                 (concat lat))
      /\ length lat = (h * w * length zs)%nat
      /\ Forall (fun r => length r = latent_size self) lat
      /\ forall r : nat,
           (r < h * w * length zs)%nat ->
           nth r lat []
           = nth (Z.to_nat (nth (r mod length zs) zs 0%Z))
               (chunks num_volumes (latent_size self) (table e)) [].
Proof.
  intros get_encoder args_dict pshape num_volumes g g' self mut pts zs h w rest
    Hinit Hmode Hshape Hzs.
  apply MLP_init_unfold in Hinit
    as (nin & g1 & layers & first & act & last & g2 & g3 & _ & Hlat & _
        & _ & _ & _ & _ & _ & _ & _ & _ & _ & _ & HL).
  rewrite Hmode in Hlat. destruct Hlat as (HL0 & tbl & Hlat & Htbl).
  rewrite <- HL in Hlat, Htbl, HL0.
  set (e := mkEmbedding num_volumes (latent_size self) tbl) in *.
  destruct (latent_for_embedding self e pts zs h w rest Hlat eq_refl HL0 Htbl
              Hshape Hzs) as (Hfor & Hrows & Hlen).
  cbn [num_embeddings embedding_dim table e] in Hfor, Hrows, Hlen.
  eexists e, _. split; [exact Hlat |]. split; [exact Hfor |].
  split; [exact Hlen |]. split; [exact Hrows |].
  intros r Hr.
  assert (Hr' : (r < h * w * length (map (fun z => nth (Z.to_nat z)
                     (chunks num_volumes (latent_size self) tbl) []) zs))%nat)
    by (rewrite length_map; exact Hr).
  rewrite (nth_concat_repeat _ (h * w) r [] Hr'), length_map.
  assert (Hpos : (r mod length zs < length zs)%nat).
  { apply Nat.mod_upper_bound. intros H0. rewrite H0 in Hr. lia. }
  rewrite (nth_indep _ [] (nth (Z.to_nat 0)
             (chunks num_volumes (latent_size self) tbl) []))
    by (rewrite length_map; exact Hpos).
  rewrite (map_nth (fun z => nth (Z.to_nat z)
             (chunks num_volumes (latent_size self) tbl) [])).
  reflexivity.
Qed.

Lemma latent_for_rows_cycle_witness :
  exists (self : MLP) (mut : Mut) (g' : Generator),
    MLP_init no_encoder (example_args "relu" true) [2]%nat 2
      example_generator = Ok (self, mut, g')
    /\ exists (e : Embedding) (lat : list (list R)),
         lat_vecs self = Some e
         /\ latent_for self (mkTensor [2; 1; 2; 3]%nat (repeat 0 12))
              (mkITensor [2]%nat [1; 0]%Z)
            = Ok (mkTensor [4; latent_size self]%nat (concat lat))
         /\ length lat = 4%nat
         /\ Forall (fun r => length r = latent_size self) lat
         /\ forall r : nat,
              (r < 4)%nat ->
              nth r lat []
              = nth (Z.to_nat (nth (r mod 2) [1; 0]%Z 0%Z))
                  (chunks 2 (latent_size self) (table e)) [].
Proof.
  do 3 eexists. split; [run; reflexivity |].
  match goal with
  | |- exists e lat, lat_vecs ?s = _ /\ _ => set (self := s)
  end.
  exact (latent_for_rows_cycle no_encoder (example_args "relu" true)
           [2]%nat 2%nat example_generator _ self _
           (mkTensor [2; 1; 2; 3]%nat (repeat 0 12)) [1; 0]%Z 1%nat 2%nat
           [3%nat] ltac:(run; reflexivity) eq_refl eq_refl
           ltac:(repeat constructor; lia)).
Defined.

(** ** The imagefit branch of the training step *)

Lemma combine_app_same {A B : Type} (a a' : list A) (b b' : list B) :
  length a = length b ->
  combine (a ++ a') (b ++ b') = combine a b ++ combine a' b'.
Proof.
  revert b. induction a as [| x a IH]; intros [| y b] H; try discriminate.
  - reflexivity.
  - simpl. f_equal. apply IH. simpl in H. lia.
Qed.

Lemma combine_chunks {A B : Type} (n k : nat) (d1 : list A) (d2 : list B) :
  length d1 = (n * k)%nat -> length d2 = (n * k)%nat ->
  concat (map (fun p => combine (fst p) (snd p))
            (combine (chunks n k d1) (chunks n k d2)))
  = combine d1 d2.
Proof.
  revert d1 d2. induction n as [| n IH]; intros d1 d2 H1 H2.
  - destruct d1; [reflexivity | discriminate].
  - cbn [chunks combine map concat fst snd].
    rewrite IH by (rewrite length_skipn; lia).
    rewrite <- combine_app_same by (rewrite !length_firstn; lia).
    rewrite !firstn_skipn. reflexivity.
Qed.

(** Elementwise operation on two tensors of the same shape. *)
Lemma bzip_same (f : R -> R -> R) (s : list nat) :
  forall d1 d2 : list R,
    length d1 = numel s -> length d2 = numel s ->
    bzip f s s d1 d2 = map (fun q => f (fst q) (snd q)) (combine d1 d2).
Proof.
  induction s as [| n r IH]; intros d1 d2 H1 H2.
  - destruct d1 as [| x [| ? ?]]; try discriminate.
    destruct d2 as [| y [| ? ?]]; try discriminate. reflexivity.
  - cbn [bzip]. rewrite Nat.eqb_refl.
    change (numel (n :: r)) with (n * numel r)%nat in H1, H2.
    rewrite <- (combine_chunks n (numel r) d1 d2 H1 H2).
    rewrite concat_map, map_map. f_equal.
    apply map_ext_in. intros (c1 & c2) Hin. cbn [fst snd].
    pose proof (Forall_chunks_length n (numel r) d1 H1) as Hf1.
    pose proof (Forall_chunks_length n (numel r) d2 H2) as Hf2.
    rewrite Forall_forall in Hf1, Hf2.
    apply IH.
    + apply Hf1. exact (in_combine_l _ _ _ _ Hin).
    + apply Hf2. exact (in_combine_r _ _ _ _ Hin).
Qed.

Lemma pad_shape_same (s : list nat) : pad_shape (length s) s = s.
Proof. unfold pad_shape. rewrite Nat.sub_diag. reflexivity. Qed.





(** ** What the steps do to the state *)

(** X11: in imagefit mode a batch with a volume index outside of the latent
    table ends both steps with the [IndexError] of the embedding lookup,
    whatever the points and targets are, and the state is left as it was:
    nothing is appended and nothing is logged. *)
Theorem imagefit_steps_reject_unknown_volume :
  forall (self : MLP) (e : Embedding) (batch : Batch) (batch_idx : nat)
         (s : Mut) (z : Z),
    imagefit_mode self = true ->
    lat_vecs self = Some e ->
    In z (idata (idxs batch)) ->
    (z < 0 \/ Z.of_nat (num_embeddings e) <= z)%Z ->
    training_step self batch batch_idx s
    = (Raise (IndexError "index out of range in self"), s)
    /\ validation_step self batch batch_idx s
       = (Raise (IndexError "index out of range in self"), s).
Proof.
  intros self e batch batch_idx s z Hmode Hlat Hin Hz.
  assert (Hlook : embedding_lookup e (idxs batch)
                  = Raise (IndexError "index out of range in self")).
  { unfold embedding_lookup.
    destruct (forallb _ (idata (idxs batch))) eqn:Hall; [| reflexivity].
    rewrite forallb_forall in Hall. specialize (Hall z Hin).
    apply andb_true_iff in Hall as (H1 & H2).
    apply Z.leb_le in H1. apply Z.ltb_lt in H2. lia. }
  assert (Hpass : imagefit_pass self batch
                  = Raise (IndexError "index out of range in self")).
  { unfold imagefit_pass, latent_for. rewrite Hlat. cbn [bind].
    rewrite Hlook. reflexivity. }
  unfold training_step, validation_step. rewrite Hmode.
  unfold sbind, lift. rewrite Hpass. split; reflexivity.
Qed.

Lemma imagefit_steps_reject_unknown_volume_witness :
  training_step
    (mkMLP [2]%nat 0 true 0 2 None (Some (mkEmbedding 1 2 [0; 0]))
       (MSequential []))
    (mkBatch (mkTensor [1; 1; 2; 3]%nat [0; 0; 0; 1; 1; 1])
       (mkTensor [1; 1; 2]%nat [0; 1]) (mkITensor [1]%nat [1%Z]))
    0 (mkMut [] [] None [])
  = (Raise (IndexError "index out of range in self"), mkMut [] [] None [])
  /\ validation_step
       (mkMLP [2]%nat 0 true 0 2 None (Some (mkEmbedding 1 2 [0; 0]))
          (MSequential []))
       (mkBatch (mkTensor [1; 1; 2; 3]%nat [0; 0; 0; 1; 1; 1])
          (mkTensor [1; 1; 2]%nat [0; 1]) (mkITensor [1]%nat [1%Z]))
       0 (mkMut [] [] None [])
     = (Raise (IndexError "index out of range in self"), mkMut [] [] None []).
Proof.
  apply (imagefit_steps_reject_unknown_volume
           (mkMLP [2]%nat 0 true 0 2 None (Some (mkEmbedding 1 2 [0; 0]))
              (MSequential []))
           (mkEmbedding 1 2 [0; 0])
           (mkBatch (mkTensor [1; 1; 2; 3]%nat [0; 0; 0; 1; 1; 1])
              (mkTensor [1; 1; 2]%nat [0; 1]) (mkITensor [1]%nat [1%Z]))
           0%nat (mkMut [] [] None []) 1%Z).
  - reflexivity.
  - reflexivity.
  - left. reflexivity.
  - right. cbn. lia.
Defined.

(** X12: [training_step] never touches the validation buffers nor the
    recorded volume shape.  When it raises, the state is exactly what it
    was; when it returns, it has added its log entries, one in imagefit
    mode and three in projection mode, and nothing else. *)
Theorem training_step_frame :
  forall (self : MLP) (batch : Batch) (batch_idx : nat) (s : Mut),
    let r := training_step self batch batch_idx s in
    validation_step_outputs (snd r) = validation_step_outputs s
    /\ validation_step_gt (snd r) = validation_step_gt s
    /\ vol_shape (snd r) = vol_shape s
    /\ match fst r with
       | Raise _ => snd r = s
       | Ok _ =>
           exists es,
             emitted (snd r) = emitted s ++ es
             /\ length es = (if imagefit_mode self then 1 else 3)%nat
       end.
Proof.
  intros self batch batch_idx s. cbv zeta.
  unfold training_step. destruct (imagefit_mode self).
  - unfold sbind, lift. destruct (imagefit_pass self batch) as [[a l] | e].
    + cbn. repeat split. eexists. split; reflexivity.
    + cbn. repeat split.
  - unfold sbind, lift.
    destruct (projection_pass self batch) as [[[dv l] sm] | e].
    + cbn. repeat split. eexists. split; reflexivity.
    + cbn. repeat split.
Qed.

(** X13: [validation_step] only ever appends to the validation buffers, to
    both of them or to none: the prediction and the batch target are added
    together, also in the runs that end in an exception, so buffers of equal
    length stay of equal length; the recorded volume shape is not
    touched. *)
Theorem validation_step_appends_in_pairs :
  forall (self : MLP) (batch : Batch) (batch_idx : nat) (s : Mut),
    let s' := snd (validation_step self batch batch_idx s) in
    vol_shape s' = vol_shape s
    /\ ((validation_step_outputs s' = validation_step_outputs s
         /\ validation_step_gt s' = validation_step_gt s
         /\ emitted s' = emitted s)
        \/ exists pred,
             validation_step_outputs s' = validation_step_outputs s ++ [pred]
             /\ validation_step_gt s'
                = validation_step_gt s ++ [target batch]).
Proof.
  intros self batch batch_idx s. cbv zeta.
  unfold validation_step. destruct (imagefit_mode self).
  - unfold sbind, lift. destruct (imagefit_pass self batch) as [[a l] | e].
    + cbn. split; [reflexivity |]. right. eexists. split; reflexivity.
    + cbn. split; [reflexivity |]. left. repeat split.
  - unfold sbind, lift.
    destruct (projection_pass self batch) as [[[dv l] sm] | e].
    + cbn. split; [reflexivity |]. right. eexists. split; reflexivity.
    + cbn. split; [reflexivity |]. left. repeat split.
Qed.

(** ** The end of a validation epoch *)

Lemma select_first_dim (a b c k : nat) (d : list R) :
  length d = (a * b * c)%nat ->
  select (mkTensor [a; b; c] d) 3 0 (Z.of_nat k)
  = if (k <? a)%nat
    then Ok (mkTensor [b; c] (nth k (chunks a (b * c) d) []))
    else Raise (IndexError "index is out of bounds for dimension").
Proof.
  intros Hd.
  assert (H0 : (Z.of_nat k <? 0)%Z = false) by (apply Z.ltb_ge; lia).
  destruct (Nat.ltb_spec k a) as [Hlt | Hge].
  - assert (H1 : (Z.of_nat a <=? Z.of_nat k)%Z = false)
      by (apply Z.leb_gt; lia).
    unfold select. cbn [shape length nth data].
    change (3 <? 3)%nat with false. cbv iota zeta.
    rewrite !H0, H1. cbn [orb firstn skipn app numel fold_right].
    rewrite !Nat.mul_1_r, Nat2Z.id.
    rewrite chunks_one by (rewrite Hd; ring).
    cbn [map concat]. rewrite app_nil_r. reflexivity.
  - assert (H1 : (Z.of_nat a <=? Z.of_nat k)%Z = true)
      by (apply Z.leb_le; lia).
    unfold select. cbn [shape length nth data].
    change (3 <? 3)%nat with false. cbv iota zeta.
    rewrite !H0, H1. reflexivity.
Qed.

(** The end-of-epoch step in imagefit mode, once both buffers concatenate
    to as many entries as the volume has. *)
Lemma on_validation_epoch_end_imagefit_run (self : MLP) (trainer : Trainer)
    (s : Mut) (all_preds all_gt : Tensor) (a b c : nat) :
  imagefit_mode self = true ->
  cat_tensors (validation_step_outputs s) 0 = Ok all_preds ->
  cat_tensors (validation_step_gt s) 0 = Ok all_gt ->
  shape (vol trainer) = [a; b; c] ->
  length (data all_preds) = (a * b * c)%nat ->
  length (data all_gt) = (a * b * c)%nat ->
  on_validation_epoch_end self trainer s
  = if (c / 2 <? a)%nat then
      let image :=
        LogImage "val/reconstruction"
          [mkTensor [b; c] (nth (c / 2) (chunks a (b * c) (data all_preds)) []);
           mkTensor [b; c] (nth (c / 2) (chunks a (b * c) (data all_gt)) [])]
          ["pred"; "gt"] in
      match psnr trainer (mkTensor [1; 1; a; b; c]%nat (data all_preds))
              (mkTensor [1; 1; a; b; c]%nat (data all_gt)) with
      | Ok value =>
          (Ok tt,
           mkMut [] [] (Some [a; b; c])
             (emitted s ++ [image; LogScalar "val/reconstruction" value]))
      | Raise e =>
          (Raise e,
           mkMut (validation_step_outputs s) (validation_step_gt s)
             (Some [a; b; c]) (emitted s ++ [image]))
      end
    else
      (Raise (IndexError "index is out of bounds for dimension"),
       mkMut (validation_step_outputs s) (validation_step_gt s)
         (Some [a; b; c]) (emitted s)).
Proof.
  intros Hmode Hp Hg Hvol Hlp Hlg.
  assert (Hn : numel [a; b; c] = (a * b * c)%nat)
    by (cbn [numel fold_right]; lia).
  unfold on_validation_epoch_end. rewrite Hmode, Hvol.
  unfold sbind at 1. rewrite Hp.
  unfold sbind at 1. rewrite Hg.
  unfold sbind at 1. unfold set_vol_shape at 1.
  unfold sbind at 1. unfold sbind at 1. unfold lift at 1.
  unfold view at 1. rewrite Hlp, <- Hn, infer_size_shape. cbn [bind].
  unfold sbind at 1. unfold lift at 1.
  unfold view at 1. rewrite Hlg, <- Hn, infer_size_shape. cbn [bind].
  unfold sbind at 1. unfold lift at 1.
  cbn [shape_at nth_error bind].
  rewrite (select_first_dim a b c (c / 2) (data all_preds) Hlp).
  rewrite (select_first_dim a b c (c / 2) (data all_gt) Hlg).
  destruct (c / 2 <? a)%nat; [| reflexivity].
  cbn [bind]. unfold sbind at 1. unfold log_image, emit at 1.
  unfold sbind at 1. unfold lift at 1.
  unfold unsqueeze0. cbn [shape data].
  destruct (psnr trainer _ _) as [value | e]; [| reflexivity].
  unfold log, emit, clear_outputs, clear_gt, sbind.
  cbn [validation_step_outputs validation_step_gt vol_shape emitted].
  rewrite <- app_assoc. reflexivity.
Qed.

(** X15: in imagefit mode, with buffers that concatenate to as many entries
    as the volume of shape [a; b; c] has, an index [c / 2] that exists in
    the first dimension and a metric that returns, the end-of-epoch step
    returns: it records the volume shape, logs one pair of images (the
    slices of index [c / 2], half of the LAST size, along the FIRST
    dimension of prediction and ground truth) and the metric, and leaves
    both buffers empty. *)
Theorem on_validation_epoch_end_imagefit_returns :
  forall (self : MLP) (trainer : Trainer) (s : Mut)
         (all_preds all_gt : Tensor) (a b c : nat) (value : R),
    imagefit_mode self = true ->
    cat_tensors (validation_step_outputs s) 0 = Ok all_preds ->
    cat_tensors (validation_step_gt s) 0 = Ok all_gt ->
    shape (vol trainer) = [a; b; c] ->
    length (data all_preds) = (a * b * c)%nat ->
    length (data all_gt) = (a * b * c)%nat ->
    (c / 2 < a)%nat ->
    psnr trainer (mkTensor [1; 1; a; b; c]%nat (data all_preds))
      (mkTensor [1; 1; a; b; c]%nat (data all_gt)) = Ok value ->
    on_validation_epoch_end self trainer s
    = (Ok tt,
       mkMut [] [] (Some [a; b; c])
         (emitted s
          ++ [LogImage "val/reconstruction"
                [mkTensor [b; c]
                   (nth (c / 2) (chunks a (b * c) (data all_preds)) []);
                 mkTensor [b; c]
                   (nth (c / 2) (chunks a (b * c) (data all_gt)) [])]
                ["pred"; "gt"];
              LogScalar "val/reconstruction" value])).
Proof.
  intros self trainer s all_preds all_gt a b c value
    Hmode Hp Hg Hvol Hlp Hlg Hmid Hpsnr.
  rewrite (on_validation_epoch_end_imagefit_run self trainer s all_preds
             all_gt a b c Hmode Hp Hg Hvol Hlp Hlg).
  apply Nat.ltb_lt in Hmid. rewrite Hmid. cbv zeta. rewrite Hpsnr.
  reflexivity.
Qed.

Lemma on_validation_epoch_end_imagefit_returns_witness :
  on_validation_epoch_end
    (mkMLP [2]%nat 0 true 0 2 None None (MSequential []))
    example_volume_trainer example_volume_mut
  = (Ok tt,
     mkMut [] [] (Some [2; 1; 2]%nat)
       ([] ++ [LogImage "val/reconstruction"
                 [mkTensor [1; 2]%nat
                    (nth (2 / 2) (chunks 2 (1 * 2)
                                    [1 / 2; 1 / 2; 1 / 2; 1 / 2]) []);
                  mkTensor [1; 2]%nat
                    (nth (2 / 2) (chunks 2 (1 * 2) [0; 1; 0; 1]) [])]
                 ["pred"; "gt"];
               LogScalar "val/reconstruction" 0])).
Proof.
  apply (on_validation_epoch_end_imagefit_returns
           (mkMLP [2]%nat 0 true 0 2 None None (MSequential []))
           example_volume_trainer example_volume_mut
           (mkTensor [2; 1; 2]%nat [1 / 2; 1 / 2; 1 / 2; 1 / 2])
           (mkTensor [2; 1; 2]%nat [0; 1; 0; 1]) 2%nat 1%nat 2%nat 0).
  - reflexivity.
  - run. reflexivity.
  - run. reflexivity.
  - reflexivity.
  - reflexivity.
  - reflexivity.
  - cbn. lia.
  - reflexivity.
Defined.

(** X16: in imagefit mode, for a volume of shape [a; b; c] whose first size
    is at most [c / 2], the end-of-epoch step ends with an [IndexError]:
    the slice that is logged is taken along the first dimension at an index
    computed from the last one.  The volume shape has been recorded by then,
    nothing is logged, and the buffers are not cleared. *)
Theorem on_validation_epoch_end_imagefit_slice_out_of_range :
  forall (self : MLP) (trainer : Trainer) (s : Mut)
         (all_preds all_gt : Tensor) (a b c : nat),
    imagefit_mode self = true ->
    cat_tensors (validation_step_outputs s) 0 = Ok all_preds ->
    cat_tensors (validation_step_gt s) 0 = Ok all_gt ->
    shape (vol trainer) = [a; b; c] ->
    length (data all_preds) = (a * b * c)%nat ->
    length (data all_gt) = (a * b * c)%nat ->
    (a <= c / 2)%nat ->
    on_validation_epoch_end self trainer s
    = (Raise (IndexError "index is out of bounds for dimension"),
       mkMut (validation_step_outputs s) (validation_step_gt s)
         (Some [a; b; c]) (emitted s)).
Proof.
  intros self trainer s all_preds all_gt a b c
    Hmode Hp Hg Hvol Hlp Hlg Hmid.
  rewrite (on_validation_epoch_end_imagefit_run self trainer s all_preds
             all_gt a b c Hmode Hp Hg Hvol Hlp Hlg).
  apply Nat.ltb_ge in Hmid. rewrite Hmid. reflexivity.
Qed.

Lemma on_validation_epoch_end_imagefit_slice_out_of_range_witness :
  on_validation_epoch_end
    (mkMLP [2]%nat 0 true 0 2 None None (MSequential []))
    (mkTrainer (mkTensor [1; 1; 4]%nat [0; 1; 0; 1])
       (mkBTensor [0]%nat []) [] (fun _ _ => Ok 0))
    (mkMut [mkTensor [1; 1; 4]%nat [1 / 2; 1 / 2; 1 / 2; 1 / 2]]
       [mkTensor [1; 1; 4]%nat [0; 1; 0; 1]] None [])
  = (Raise (IndexError "index is out of bounds for dimension"),
     mkMut [mkTensor [1; 1; 4]%nat [1 / 2; 1 / 2; 1 / 2; 1 / 2]]
       [mkTensor [1; 1; 4]%nat [0; 1; 0; 1]] (Some [1; 1; 4]%nat) []).
Proof.
  apply (on_validation_epoch_end_imagefit_slice_out_of_range
           (mkMLP [2]%nat 0 true 0 2 None None (MSequential []))
           (mkTrainer (mkTensor [1; 1; 4]%nat [0; 1; 0; 1])
              (mkBTensor [0]%nat []) [] (fun _ _ => Ok 0))
           (mkMut [mkTensor [1; 1; 4]%nat [1 / 2; 1 / 2; 1 / 2; 1 / 2]]
              [mkTensor [1; 1; 4]%nat [0; 1; 0; 1]] None [])
           (mkTensor [1; 1; 4]%nat [1 / 2; 1 / 2; 1 / 2; 1 / 2])
           (mkTensor [1; 1; 4]%nat [0; 1; 0; 1]) 1%nat 1%nat 4%nat).
  - reflexivity.
  - run. reflexivity.
  - run. reflexivity.
  - reflexivity.
  - reflexivity.
  - reflexivity.
  - cbn. lia.
Defined.

(** ** The projection branch: ray lengths, detector values, losses *)


Lemma sum_squares_diagonal (p : list R) :
  sum (map (fun q => (fst q - snd q) * (fst q - snd q)) (combine p p)) = 0.
Proof.
  induction p as [| x p IH]; [reflexivity |].
  cbn [combine map fst snd]. rewrite sum_cons, IH. ring.
Qed.

Lemma ray_length_nonneg (ray : list (list R)) : 0 <= ray_length ray.
Proof. unfold ray_length. apply sqrt_pos. Qed.

Lemma ray_length_single (ray : list (list R)) :
  length ray = 1%nat -> ray_length ray = 0.
Proof.
  intros H. unfold ray_length. rewrite H. cbn [Nat.sub].
  rewrite sum_squares_diagonal. apply sqrt_0.
Qed.

Lemma ray_length_endpoints (M : nat) (ray ray' : list (list R)) :
  length ray = M -> length ray' = M ->
  nth 0 ray' [] = nth 0 ray [] ->
  nth (M - 1) ray' [] = nth (M - 1) ray [] ->
  ray_length ray' = ray_length ray.
Proof.
  intros H H' H0 H1. unfold ray_length. rewrite H, H', H0, H1. reflexivity.
Qed.

(** X17: on [B] rays of [M >= 1] sample points, line 173 computes for every
    ray the Euclidean distance between its first and its last point.  The
    lengths are not negative, they are zero for rays of a single sample, and
    they do not depend on the samples in between: two batches whose rays
    start and end at the same points have the same lengths. *)
Theorem ray_lengths_chord :
  forall (M : nat) (rays rays' : list (list (list R))),
    (1 <= M)%nat ->
    Forall (is_ray M) rays ->
    Forall (is_ray M) rays' ->
    map (fun ray => (nth 0 ray [], nth (M - 1) ray [])) rays'
    = map (fun ray => (nth 0 ray [], nth (M - 1) ray [])) rays ->
    ray_lengths (mkTensor [length rays; M; 3%nat]
                   (concat (map (@concat R) rays)))
    = Ok (mkTensor [length rays] (map ray_length rays))
    /\ ray_lengths (mkTensor [length rays'; M; 3%nat]
                      (concat (map (@concat R) rays')))
       = Ok (mkTensor [length rays] (map ray_length rays))
    /\ Forall (fun l => 0 <= l) (map ray_length rays)
    /\ (M = 1%nat -> Forall (fun l => l = 0) (map ray_length rays)).
Proof.
  intros M rays rays' HM Hrays Hrays' Hends.
  split; [exact (ray_lengths_rays M rays HM Hrays) |].
  split; [| split].
  - rewrite (ray_lengths_rays M rays' HM Hrays').
    assert (Hlen : length rays' = length rays).
    { apply (f_equal (@length _)) in Hends. rewrite !length_map in Hends.
      exact Hends. }
    rewrite Hlen. do 2 f_equal.
    clear HM Hlen. revert rays' Hrays' Hends.
    induction Hrays as [| ray rays (Hl & _) _ IH]; intros rays' Hrays' Hends.
    + destruct rays'; [reflexivity | discriminate].
    + destruct Hrays' as [| ray' rays' (Hl' & _) Hrays']; [discriminate |].
      cbn [map] in Hends |- *. injection Hends as H0 H1 Hends.
      f_equal; [| exact (IH rays' Hrays' Hends)].
      exact (ray_length_endpoints M ray ray' Hl Hl' H0 H1).
  - apply Forall_forall. intros l Hl.
    apply in_map_iff in Hl as (ray & <- & _). apply ray_length_nonneg.
  - intros ->. apply Forall_forall. intros l Hl.
    apply in_map_iff in Hl as (ray & <- & Hin).
    rewrite Forall_forall in Hrays. destruct (Hrays ray Hin) as (Hlen & _).
    exact (ray_length_single ray Hlen).
Qed.

Lemma ray_lengths_chord_witness :
  ray_lengths (mkTensor [length [[[0; 0; 0]; [5; 5; 5]; [0; 3; 4]]]; 3; 3]%nat
                 (concat (map (@concat R) [[[0; 0; 0]; [5; 5; 5]; [0; 3; 4]]])))
  = Ok (mkTensor [length [[[0; 0; 0]; [5; 5; 5]; [0; 3; 4]]]]
          (map ray_length [[[0; 0; 0]; [5; 5; 5]; [0; 3; 4]]]))
  /\ ray_lengths (mkTensor [length [[[0; 0; 0]; [1; 1; 1]; [0; 3; 4]]]; 3; 3]%nat
                    (concat (map (@concat R)
                               [[[0; 0; 0]; [1; 1; 1]; [0; 3; 4]]])))
     = Ok (mkTensor [length [[[0; 0; 0]; [5; 5; 5]; [0; 3; 4]]]]
             (map ray_length [[[0; 0; 0]; [5; 5; 5]; [0; 3; 4]]]))
  /\ Forall (fun l => 0 <= l)
       (map ray_length [[[0; 0; 0]; [5; 5; 5]; [0; 3; 4]]])
  /\ (3%nat = 1%nat ->
      Forall (fun l => l = 0)
        (map ray_length [[[0; 0; 0]; [5; 5; 5]; [0; 3; 4]]])).
Proof.
  apply (ray_lengths_chord 3 [[[0; 0; 0]; [5; 5; 5]; [0; 3; 4]]]
           [[[0; 0; 0]; [1; 1; 1]; [0; 3; 4]]]).
  - lia.
  - repeat constructor.
  - repeat constructor.
  - reflexivity.
Defined.















(** ** The ray integrator: mismatched operands *)

(** X20: the integrator given [B] rows of densities and [B'] ray lengths,
    with [B' <> B] and neither of them 1, ends with the [RuntimeError] of
    the broadcast; with a tensor of lengths without dimension the subscript
    [dx[:, None]] fails, which the compiled function reports as a
    [RuntimeError] too. *)
Theorem integrator_rejects_mismatched_lengths :
  forall (num_points : Z) (B B' M : nat) (d ls : list R),
    B' <> B -> B <> 1%nat -> B' <> 1%nat ->
    compute_projection_values num_points (mkTensor [B; M] d) (mkTensor [B'] ls)
    = Raise (RuntimeError "The size of tensor a must match the size of tensor b")
    /\ compute_projection_values num_points (mkTensor [B; M] d)
         (mkTensor [] (firstn 1 ls))
       = Raise (RuntimeError "too many indices for tensor of dimension 0").
Proof.
  intros num_points B B' M d ls Hne HB HB'. split; [| reflexivity].
  unfold compute_projection_values, torchscript, unsqueeze1, div_scalar, binop.
  cbn [shape data bind]. unfold broadcast_shapes.
  cbn [rev app broadcast_rev bind].
  apply Nat.eqb_neq in HB, HB'.
  assert (Hne' : (B =? B')%nat = false) by (apply Nat.eqb_neq; congruence).
  rewrite Hne', HB, HB'.
  destruct (M =? 1)%nat; reflexivity.
Qed.

Lemma integrator_rejects_mismatched_lengths_witness :
  compute_projection_values 2 (mkTensor [2; 2]%nat [1; 2; 3; 4])
    (mkTensor [3]%nat [1; 1; 1])
  = Raise (RuntimeError "The size of tensor a must match the size of tensor b")
  /\ compute_projection_values 2 (mkTensor [2; 2]%nat [1; 2; 3; 4])
       (mkTensor [] (firstn 1 [1; 1; 1]))
     = Raise (RuntimeError "too many indices for tensor of dimension 0").
Proof.
  apply (integrator_rejects_mismatched_lengths 2 2 3 2 [1; 2; 3; 4] [1; 1; 1]);
    discriminate.
Defined.

(** ** Projection steps on points without a sample dimension *)

(** X21: in projection mode both steps subscript the points with three
    indices before anything else; on points of fewer than three dimensions
    they end with an [IndexError] and the state is left as it was. *)
Theorem projection_steps_reject_flat_points :
  forall (self : MLP) (batch : Batch) (batch_idx : nat) (s : Mut),
    imagefit_mode self = false ->
    (length (shape (points batch)) < 3)%nat ->
    training_step self batch batch_idx s
    = (Raise (IndexError "too many indices for tensor"), s)
    /\ validation_step self batch batch_idx s
       = (Raise (IndexError "too many indices for tensor"), s).
Proof.
  intros self batch batch_idx s Hmode Hrank.
  assert (Hpass : projection_pass self batch
                  = Raise (IndexError "too many indices for tensor")).
  { unfold projection_pass, ray_lengths, select.
    apply Nat.ltb_lt in Hrank. rewrite Hrank. reflexivity. }
  unfold training_step, validation_step. rewrite Hmode.
  unfold sbind, lift. rewrite Hpass. split; reflexivity.
Qed.

Lemma projection_steps_reject_flat_points_witness :
  training_step (mkMLP [2]%nat 0 false 0 2 None None (MSequential []))
    (mkBatch (mkTensor [2; 3]%nat [0; 0; 0; 0; 0; 1])
       (mkTensor [2]%nat [1; 1]) (mkITensor [2; 0]%nat []))
    0 example_mut
  = (Raise (IndexError "too many indices for tensor"), example_mut)
  /\ validation_step (mkMLP [2]%nat 0 false 0 2 None None (MSequential []))
       (mkBatch (mkTensor [2; 3]%nat [0; 0; 0; 0; 0; 1])
          (mkTensor [2]%nat [1; 1]) (mkITensor [2; 0]%nat []))
       0 example_mut
     = (Raise (IndexError "too many indices for tensor"), example_mut).
Proof.
  apply (projection_steps_reject_flat_points
           (mkMLP [2]%nat 0 false 0 2 None None (MSequential []))
           (mkBatch (mkTensor [2; 3]%nat [0; 0; 0; 0; 0; 1])
              (mkTensor [2]%nat [1; 1]) (mkITensor [2; 0]%nat []))
           0%nat example_mut).
  - reflexivity.
  - cbn. lia.
Defined.

(** ** The optimiser of a constructed module *)

(** X22: for a constructed module, [configure_optimizers] hands over AdamW
    with the configured learning rate and [amsgrad], and cosine annealing
    with warm restarts stepped per epoch, doubling its period from 10
    epochs in imagefit mode and from 50 epochs in projection mode. *)
Theorem configure_optimizers_of_constructed :
  forall (get_encoder : string -> Result Encoder) (args_dict : Config)
         (pshape : list nat) (num_volumes : nat) (g g' : Generator)
         (self : MLP) (mut : Mut),
    MLP_init get_encoder args_dict pshape num_volumes g = Ok (self, mut, g') ->
    configure_optimizers self
    = (mkOptimizer "AdamW" (Args.learning_rate args_dict) true,
       mkScheduler "CosineAnnealingWarmRestarts"
         (if Args.imagefit_mode args_dict then 10 else 50) 2 "epoch").
Proof.
  intros get_encoder args_dict pshape num_volumes g g' self mut Hinit.
  apply MLP_init_unfold in Hinit
    as (nin & g1 & layers & first & act & last & g2 & g3 & _ & _ & _
        & _ & _ & _ & _ & _ & _ & _ & Hlr & Hmode & _).
  unfold configure_optimizers. rewrite Hlr, Hmode.
  destruct (Args.imagefit_mode args_dict); reflexivity.
Qed.

Lemma configure_optimizers_of_constructed_witness :
  exists (self : MLP) (mut : Mut) (g' : Generator),
    MLP_init no_encoder (example_args "relu" true) [2]%nat 1
      example_generator = Ok (self, mut, g')
    /\ configure_optimizers self
       = (mkOptimizer "AdamW" (1 / 1000) true,
          mkScheduler "CosineAnnealingWarmRestarts" 10 2 "epoch").
Proof.
  do 3 eexists.
  assert (Hinit : MLP_init no_encoder (example_args "relu" true) [2]%nat 1
                    example_generator = Ok (_, _, _)) by (run; reflexivity).
  split; [exact Hinit |].
  exact (configure_optimizers_of_constructed _ _ _ _ _ _ _ _ Hinit).
Defined.

(** ** The imagefit branch of the validation step *)



(** ** The network acts on every row by itself *)

Lemma sequential_forward_rows (cs : list Module) :
  Forall (fun m =>
            forall (w w' : nat) (rows : list (list R)),
              Forall biased (linears m) ->
              width m w = Some w' ->
              Forall (fun r => length r = w) rows ->
              module_forward m (mkTensor [length rows; w] (concat rows))
              = Ok (mkTensor [length rows; w']
                      (concat (map (module_row m) rows)))
              /\ Forall (fun r => length r = w') (map (module_row m) rows)) cs ->
  forall (w w' : nat) (rows : list (list R)),
    Forall biased (flat_map linears cs) ->
    sequential_width width cs w = Some w' ->
    Forall (fun r => length r = w) rows ->
    sequential_forward module_forward cs
      (mkTensor [length rows; w] (concat rows))
    = Ok (mkTensor [length rows; w']
            (concat (map (sequential_row module_row cs) rows)))
    /\ Forall (fun r => length r = w')
         (map (sequential_row module_row cs) rows).
Proof.
  induction 1 as [| c cs Hc _ IH]; intros w w' rows Hb Hw Hrows.
  - cbn in Hw. injection Hw as <-. cbn [sequential_forward sequential_row].
    rewrite map_id. split; [reflexivity | exact Hrows].
  - cbn [flat_map] in Hb. apply Forall_app in Hb as (Hb1 & Hb2).
    cbn [sequential_width] in Hw.
    destruct (width c w) as [w1 |] eqn:Hw1; [| discriminate].
    destruct (Hc w w1 rows Hb1 Hw1 Hrows) as (Hfwd & Hlen).
    cbn [sequential_forward sequential_row]. rewrite Hfwd. cbn [bind].
    rewrite <- (length_map (module_row c) rows).
    destruct (IH w1 w' (map (module_row c) rows) Hb2 Hw Hlen) as (Hseq & Hl).
    rewrite Hseq, !map_map in *. split; [reflexivity | exact Hl].
Qed.

Lemma module_forward_rowwise (m : Module) :
  forall (w w' : nat) (rows : list (list R)),
    Forall biased (linears m) ->
    width m w = Some w' ->
    Forall (fun r => length r = w) rows ->
    module_forward m (mkTensor [length rows; w] (concat rows))
    = Ok (mkTensor [length rows; w'] (concat (map (module_row m) rows)))
    /\ Forall (fun r => length r = w') (map (module_row m) rows).
Proof.
  induction m as [l | a | cs IH] using Module_tree_ind;
    intros w w' rows Hb Hw Hrows.
  - cbn [width] in Hw. cbn [linears] in Hb. apply Forall_inv in Hb.
    destruct (w =? in_features l)%nat eqn:Hin; [| discriminate].
    injection Hw as <-. apply Nat.eqb_eq in Hin. subst w.
    cbn [module_forward module_row]. unfold linear_forward.
    cbn [shape rev app data numel fold_right]. rewrite Nat.eqb_refl.
    rewrite Nat.mul_1_r, (chunks_concat _ rows Hrows). split; [reflexivity |].
    apply Forall_forall. intros r Hr. apply in_map_iff in Hr as (x & <- & _).
    apply length_linear_row. exact Hb.
  - cbn [width] in Hw. injection Hw as <-.
    cbn [module_forward module_row shape data]. rewrite concat_map.
    split; [reflexivity |].
    apply Forall_forall. intros r Hr. apply in_map_iff in Hr as (x & <- & Hx).
    rewrite length_map. rewrite Forall_forall in Hrows. exact (Hrows x Hx).
  - cbn [module_forward module_row width linears] in *.
    exact (sequential_forward_rows cs IH w w' rows Hb Hw Hrows).
Qed.

Lemma cat_columns_rows (k w : nat) (vrows drows : list (list R)) :
  Forall (fun r => length r = k) vrows ->
  Forall (fun r => length r = w) drows ->
  length drows = length vrows ->
  torch_cat [Some (mkTensor [length vrows; k] (concat vrows));
             Some (mkTensor [length vrows; w] (concat drows))] 1
  = Ok (mkTensor [length vrows; (k + w)%nat] (concat (zip_app vrows drows)))
  /\ Forall (fun r => length r = (k + w)%nat) (zip_app vrows drows)
  /\ length (zip_app vrows drows) = length vrows.
Proof.
  intros Hv Hd Hlen.
  destruct (length_zip_app (length vrows) k w vrows drows eq_refl Hlen Hv Hd)
    as (Hl & Hf).
  split; [| split; assumption].
  unfold torch_cat. cbn [forallb andb flat_map app].
  unfold cat_tensors. cbn [filter cat_skipped shape negb length].
  cbn [Nat.eqb Nat.leb forallb same_except shape length seq nth orb andb negb].
  rewrite !Nat.eqb_refl.
  cbn [andb orb negb firstn skipn numel fold_right map nth data app shape].
  rewrite !Nat.mul_1_r, Nat.add_0_r.
  assert (Hc : chunks (length vrows) w (concat drows) = drows)
    by (rewrite <- Hlen; apply chunks_concat; exact Hd).
  rewrite (chunks_concat k vrows Hv), Hc.
  rewrite (zip_app_nil_r (length vrows)) by exact Hlen.
  reflexivity.
Qed.

Lemma nth_concat_singletons (rows : list (list R)) (i : nat) :
  Forall (fun r => length r = 1%nat) rows ->
  (i < length rows)%nat ->
  nth i rows [] = [nth i (concat rows) 0].
Proof.
  intros H. revert i. induction H as [| r rows Hr _ IH]; intros i Hi.
  - simpl in Hi. lia.
  - destruct r as [| x [| ? ?]]; try discriminate.
    destruct i as [| i]; [reflexivity |].
    cbn [nth concat app]. apply IH. simpl in Hi. lia.
Qed.

Lemma zip_app_nth {A : Type} (a b : list (list A)) (i : nat) :
  length b = length a -> (i < length a)%nat ->
  nth i (zip_app a b) [] = nth i a [] ++ nth i b [].
Proof.
  revert b i. induction a as [| x a IH]; intros [| y b] i Hlen Hi;
    try discriminate; [simpl in Hi; lia |].
  destruct i as [| i]; [reflexivity |].
  cbn [zip_app combine map nth fst snd]. apply (IH b i).
  - simpl in Hlen. lia.
  - simpl in Hi. lia.
Qed.

(** X24: the forward pass treats every coordinate by itself.  For a
    constructed module without encoder, [B] coordinates and [B] latent rows
    of the configured width, the value returned for coordinate [i] is the
    value returned by the forward pass on that coordinate and its latent
    row alone: no entry of the output depends on another row of the
    batch. *)
Theorem forward_is_pointwise :
  forall (get_encoder : string -> Result Encoder) (args_dict : Config)
         (pshape : list nat) (num_volumes : nat) (g g' : Generator)
         (self : MLP) (mut : Mut) (vrows drows : list (list R)),
    MLP_init get_encoder args_dict pshape num_volumes g = Ok (self, mut, g') ->
    Args.encoder args_dict = None ->
    let k := (if Args.imagefit_mode args_dict
              then Args.latent_size args_dict else 0)%nat in
    Forall (fun r => length r = k) vrows ->
    Forall (fun r => length r = 3%nat) drows ->
    length drows = length vrows ->
    exists out : list R,
      length out = length vrows
      /\ forward self (mkTensor [length vrows; 3%nat] (concat drows))
           (Some (mkTensor [length vrows; k] (concat vrows)))
         = Ok (mkTensor [length vrows; 1%nat] out)
      /\ forall i : nat,
           (i < length vrows)%nat ->
           forward self (mkTensor [1; 3]%nat (nth i drows []))
             (Some (mkTensor [1%nat; k] (nth i vrows [])))
           = Ok (mkTensor [1; 1]%nat [nth i out 0]).
Proof.
  intros get_encoder args_dict pshape num_volumes g g' self mut vrows drows
    Hinit Henc k Hv Hd Hlen.
  destruct (MLP_init_widths _ _ _ _ _ _ _ _ Hinit Henc) as (He & Hw & Hb).
  assert (Hw' : width (mlp self) (k + 3) = Some 1%nat).
  { unfold k. destruct (Args.imagefit_mode args_dict);
      [rewrite Nat.add_comm |]; exact Hw. }
  assert (Hfwd : forall vs ds : list (list R),
             Forall (fun r => length r = k) vs ->
             Forall (fun r => length r = 3%nat) ds ->
             length ds = length vs ->
             forward self (mkTensor [length vs; 3%nat] (concat ds))
               (Some (mkTensor [length vs; k] (concat vs)))
             = Ok (mkTensor [length vs; 1%nat]
                     (concat (map (module_row (mlp self)) (zip_app vs ds))))
             /\ Forall (fun r => length r = 1%nat)
                  (map (module_row (mlp self)) (zip_app vs ds))).
  { intros vs ds Hvs Hds Hl.
    destruct (cat_columns_rows k 3 vs ds Hvs Hds Hl) as (Hcat & Hrows & Hn).
    destruct (module_forward_rowwise (mlp self) (k + 3) 1 (zip_app vs ds)
                Hb Hw' Hrows) as (Hm & Hone).
    rewrite Hn in Hm. split; [| exact Hone].
    unfold forward. cbn [shape length Nat.ltb Nat.leb bind]. rewrite He.
    cbn [bind]. rewrite Hcat. cbn [bind]. rewrite Hm. reflexivity. }
  destruct (Hfwd vrows drows Hv Hd Hlen) as (Hall & Hone).
  set (outs := map (module_row (mlp self)) (zip_app vrows drows)) in *.
  assert (Houts : length outs = length vrows).
  { unfold outs, zip_app. rewrite !length_map, length_combine, Hlen.
    apply Nat.min_id. }
  exists (concat outs). split; [| split; [exact Hall |]].
  - rewrite (length_concat_rows 1 outs Hone), Houts. lia.
  - intros i Hi.
    assert (Hvi : Forall (fun r => length r = k) [nth i vrows []]).
    { constructor; [| constructor]. rewrite Forall_forall in Hv.
      apply Hv, nth_In. exact Hi. }
    assert (Hdi : Forall (fun r => length r = 3%nat) [nth i drows []]).
    { constructor; [| constructor]. rewrite Forall_forall in Hd.
      apply Hd, nth_In. lia. }
    destruct (Hfwd [nth i vrows []] [nth i drows []] Hvi Hdi eq_refl)
      as (Hsingle & _).
    cbn [length concat zip_app combine map fst snd] in Hsingle.
    rewrite !app_nil_r in Hsingle. rewrite Hsingle. do 2 f_equal.
    rewrite <- (nth_concat_singletons outs i Hone) by lia.
    rewrite (nth_indep outs [] (module_row (mlp self) [])) by lia.
    unfold outs.
    rewrite map_nth, (zip_app_nth vrows drows i Hlen Hi). reflexivity.
Qed.

Lemma forward_is_pointwise_witness :
  exists (self : MLP) (mut : Mut) (g' : Generator),
    MLP_init no_encoder (example_args "relu" true) [2]%nat 1
      example_generator = Ok (self, mut, g')
    /\ exists out : list R,
         length out = 2%nat
         /\ forward self (mkTensor [2; 3]%nat [0; 0; 0; 1; 1; 1])
              (Some (mkTensor [2; 2]%nat [1; 2; 3; 4]))
            = Ok (mkTensor [2; 1]%nat out)
         /\ forall i : nat,
              (i < 2)%nat ->
              forward self
                (mkTensor [1; 3]%nat (nth i [[0; 0; 0]; [1; 1; 1]] []))
                (Some (mkTensor [1; 2]%nat (nth i [[1; 2]; [3; 4]] [])))
              = Ok (mkTensor [1; 1]%nat [nth i out 0]).
Proof.
  do 3 eexists. split; [run; reflexivity |].
  match goal with
  | |- exists out, _ /\ forward ?m _ _ = _ /\ _ => set (self := m)
  end.
  exact (forward_is_pointwise no_encoder (example_args "relu" true)
           [2]%nat 1%nat example_generator _ self _
           [[1; 2]; [3; 4]] [[0; 0; 0]; [1; 1; 1]]
           ltac:(run; reflexivity) eq_refl ltac:(repeat constructor)
           ltac:(repeat constructor) eq_refl).
Defined.

(** ** The projection branch of the end-of-epoch step *)

Lemma length_scatter (dst : list R) :
  forall (mask : list bool) (vals : list R),
    length (scatter dst mask vals) = length dst.
Proof.
  induction dst as [| x dst IH]; intros mask vals; [reflexivity |].
  destruct mask as [| [|] mask]; [reflexivity | |].
  - destruct vals as [| v vals]; cbn [scatter length]; now rewrite IH.
  - cbn [scatter length]. now rewrite IH.
Qed.

Lemma masked_assign_zeros (s : list nat) (mask : BTensor) (value out : Tensor) :
  masked_assign (zeros s) mask value = Ok out ->
  shape out = s /\ length (data out) = numel s.
Proof.
  unfold masked_assign. cbn [shape data zeros].
  destruct (negb _); [discriminate |].
  destruct (shape_eqb _ _).
  - intros H. injection H as <-. cbn [shape data].
    rewrite length_scatter, repeat_length. split; reflexivity.
  - destruct (_ && _); [| discriminate].
    intros H. injection H as <-. cbn [shape data].
    rewrite length_scatter, repeat_length. split; reflexivity.
Qed.

Lemma select_index (n0 : nat) (rest : list nat) (d : list R) (i : nat) :
  length d = (n0 * numel rest)%nat ->
  (i < n0)%nat ->
  select (mkTensor (n0 :: rest) d) 1 0 (Z.of_nat i)
  = Ok (mkTensor rest (nth i (chunks n0 (numel rest) d) [])).
Proof.
  intros Hd Hi.
  assert (H0 : (Z.of_nat i <? 0)%Z = false) by (apply Z.ltb_ge; lia).
  assert (H1 : (Z.of_nat n0 <=? Z.of_nat i)%Z = false) by (apply Z.leb_gt; lia).
  unfold select. cbn [shape length nth data Nat.ltb Nat.leb].
  cbv iota zeta. rewrite !H0, H1.
  cbn [orb firstn skipn app]. change (numel []) with 1%nat.
  rewrite Nat2Z.id, (chunks_one _ d Hd).
  cbn [map concat]. rewrite app_nil_r. reflexivity.
Qed.

Lemma length_nth_chunks (n k i : nat) (d : list R) :
  length d = (n * k)%nat -> (i < n)%nat ->
  length (nth i (chunks n k d) []) = k.
Proof.
  intros Hd Hi. pose proof (Forall_chunks_length n k d Hd) as Hf.
  rewrite Forall_forall in Hf. apply Hf, nth_In.
  rewrite length_chunks. exact Hi.
Qed.

Lemma binop_same_shape (f : R -> R -> R) (s : list nat) (d1 d2 : list R) :
  length d1 = numel s -> length d2 = numel s ->
  binop f (mkTensor s d1) (mkTensor s d2)
  = Ok (mkTensor s (map (fun q => f (fst q) (snd q)) (combine d1 d2))).
Proof.
  intros H1 H2. unfold binop. cbn [shape data].
  rewrite broadcast_shapes_same. cbn [bind].
  rewrite Nat.max_id, pad_shape_same, (bzip_same f s d1 d2 H1 H2).
  reflexivity.
Qed.

Lemma log_projections_run (preds gt : Tensor) (n0 : nat) (rest : list nat)
    (draws : list nat) :
  shape preds = n0 :: rest -> shape gt = n0 :: rest ->
  length (data preds) = (n0 * numel rest)%nat ->
  length (data gt) = (n0 * numel rest)%nat ->
  Forall (fun i => (i < n0)%nat) draws ->
  forall s : Mut,
    log_projections preds gt draws s
    = (Ok tt,
       mkMut (validation_step_outputs s) (validation_step_gt s) (vol_shape s)
         (emitted s ++ map (projection_images preds gt n0 rest) draws)).
Proof.
  intros Hsp Hsg Hlp Hlg Hdraws.
  destruct preds as [sp dp], gt as [sg dg]. cbn [shape data] in *. subst sp sg.
  induction Hdraws as [| i draws Hi _ IH]; intros s.
  - cbn [log_projections map]. rewrite app_nil_r. destruct s; reflexivity.
  - cbn [log_projections].
    unfold sbind at 1. unfold lift at 1.
    rewrite (select_index n0 rest dp i Hlp Hi),
      (select_index n0 rest dg i Hlg Hi). cbn [bind].
    rewrite (binop_same_shape Rminus rest)
      by (apply length_nth_chunks; assumption).
    cbn [bind]. unfold sbind at 1. unfold log_image, emit at 1.
    rewrite IH.
    cbn [validation_step_outputs validation_step_gt vol_shape emitted map].
    rewrite <- app_assoc. reflexivity.
Qed.

Lemma length_linspace (n : nat) : length (linspace n) = n.
Proof. unfold linspace. rewrite length_map, length_seq. reflexivity. Qed.

Lemma length_flat_map_constant {A B : Type} (f : A -> list B) (k : nat)
    (l : list A) :
  (forall x, length (f x) = k) -> length (flat_map f l) = (length l * k)%nat.
Proof.
  intros Hf. rewrite flat_map_concat_map. apply length_concat_map. exact Hf.
Qed.

Lemma length_meshgrid3 (n : nat) :
  length (data (meshgrid3 n)) = (n * n * n * 3)%nat.
Proof.
  unfold meshgrid3. cbn [data].
  rewrite (length_flat_map_constant _ (n * (n * 3))), length_linspace; [lia |].
  intros a. rewrite (length_flat_map_constant _ (n * 3)), length_linspace;
    [reflexivity |].
  intros b. rewrite (length_flat_map_constant _ 3), length_linspace;
    [reflexivity |].
  intros c. reflexivity.
Qed.

Lemma infer_size_grid_divides (c n : nat) :
  (1 <= c)%nat -> (n mod c = 0)%nat ->
  exists k, infer_size [-1; Z.of_nat c; 3]%Z (n * 3) = Ok [k; c; 3%nat].
Proof.
  intros Hc Hmod. unfold infer_size.
  assert (H1 : (Z.of_nat c <? -1)%Z = false) by (apply Z.ltb_ge; lia).
  assert (H2 : (Z.of_nat c =? -1)%Z = false) by (apply Z.eqb_neq; lia).
  assert (H3 : count_occ Z.eq_dec [-1; Z.of_nat c; 3]%Z (-1)%Z = 1%nat).
  { cbn [count_occ]. destruct (Z.eq_dec (-1) (-1)) as [_ | Hne]; [| congruence].
    destruct (Z.eq_dec (Z.of_nat c) (-1)) as [Heq | _]; [lia |].
    destruct (Z.eq_dec 3 (-1)) as [Heq | _]; [discriminate | reflexivity]. }
  rewrite H3.
  cbn -[Nat.modulo Nat.div Nat.mul Z.of_nat Nat.eqb Nat.ltb].
  rewrite H1, H2.
  cbn -[Nat.modulo Nat.div Nat.mul Z.of_nat Nat.eqb Nat.ltb].
  rewrite Nat2Z.id.
  change (1 <? 1)%nat with false. cbv iota.
  change (Pos.to_nat 3) with 3%nat. rewrite Nat.mul_1_r.
  rewrite Nat.Div0.mul_mod_distr_r, Hmod. cbn [Nat.mul].
  rewrite Nat.eqb_refl, andb_true_r.
  assert (Hpos : (0 <? c * 3)%nat = true) by (apply Nat.ltb_lt; lia).
  assert (Hz : (c * 3 =? 0)%nat = false) by (apply Nat.eqb_neq; lia).
  rewrite Hpos, Hz, orb_true_r. eexists. reflexivity.
Qed.

Lemma select_first_column (k c : nat) (d : list R) :
  (1 <= c)%nat -> is_ok (select (mkTensor [k; c; 3%nat] d) 3 1 0) = true.
Proof.
  intros Hc. unfold select. cbn [shape length nth].
  change (3 <? 3)%nat with false. cbv iota zeta.
  change (0 <? 0)%Z with false. cbv iota.
  assert (H1 : (Z.of_nat c <=? 0)%Z = false) by (apply Z.leb_gt; lia).
  rewrite H1. reflexivity.
Qed.

(** The dense reconstruction of lines 252-262 on a volume of shape
    [a; b; c] whose last size divides [a * a * a]: the grid is built and
    reshaped, and the first call of [forward] raises. *)
Lemma dense_reconstruction_type_error (self : MLP) (vol : Tensor)
    (a b c : nat) (vol_shape : list nat) :
  shape vol = [a; b; c] ->
  (1 <= c)%nat -> ((a * a * a) mod c = 0)%nat ->
  (let* n := shape_at (shape vol) 0 in
   let mgrid := meshgrid3 n in
   let* n2 := shape_at (shape vol) 2 in
   let* mgrid := view mgrid [-1; Z.of_nat n2; 3]%Z in
   let* m0 := shape_at (shape mgrid) 0 in
   let* m1 := shape_at (shape mgrid) 1 in
   let outputs := zeros [m0; m1; 1%nat] in
   let* outputs := reconstruct self mgrid outputs (seq 0 m1) in
   view outputs (map Z.of_nat vol_shape))
  = Raise (TypeError "forward() missing 1 required positional argument: 'vecs'").
Proof.
  intros Hvol Hc Hmod. rewrite Hvol. cbn [shape_at nth_error bind]. cbv zeta.
  unfold view at 1. rewrite length_meshgrid3.
  destruct (infer_size_grid_divides c (a * a * a) Hc Hmod) as (k & ->).
  cbn [bind shape shape_at nth_error].
  destruct c as [| c]; [lia |].
  cbn [seq reconstruct].
  pose proof (select_first_column k (S c) (data (meshgrid3 a)) Hc) as Hsel.
  change (Z.of_nat 0) with 0%Z.
  destruct (select _ 3 1 0) as [x |]; [| discriminate]. reflexivity.
Qed.

(** X25: in projection mode, with buffers that concatenate, a validity
    mask and values that fit the projection shape [n0 :: rest], draws below
    [n0] and a volume of shape [a; b; c] whose last size divides
    [a * a * a], the end-of-epoch step records the volume shape, logs for
    every draw [i] the slices [preds[i]], [gt[i]] and their difference under
    the captions [pred_i], [gt_i] and [residual_i] ([projection_images]),
    and then ends with the [TypeError] of the call of [forward] with one
    argument: the reconstruction loss and images are never logged and the
    buffers are not cleared. *)
Theorem on_validation_epoch_end_projection_trace :
  forall (self : MLP) (trainer : Trainer) (s : Mut)
         (all_preds all_gt preds gt : Tensor) (mask : BTensor)
         (n0 : nat) (rest : list nat) (a b c : nat),
    imagefit_mode self = false ->
    cat_tensors (validation_step_outputs s) 0 = Ok all_preds ->
    cat_tensors (validation_step_gt s) 0 = Ok all_gt ->
    projection_shape self = n0 :: rest ->
    bview (valid_rays trainer) (map Z.of_nat (n0 :: rest)) = Ok mask ->
    masked_assign (zeros (n0 :: rest)) mask all_preds = Ok preds ->
    masked_assign (zeros (n0 :: rest)) mask all_gt = Ok gt ->
    Forall (fun i => (i < n0)%nat) (randint trainer) ->
    (1 <= n0)%nat ->
    shape (vol trainer) = [a; b; c] ->
    (1 <= c)%nat ->
    ((a * a * a) mod c = 0)%nat ->
    on_validation_epoch_end self trainer s
    = (Raise (TypeError "forward() missing 1 required positional argument: 'vecs'"),
       mkMut (validation_step_outputs s) (validation_step_gt s)
         (Some [a; b; c])
         (emitted s
          ++ map (projection_images preds gt n0 rest) (randint trainer))).
Proof.
  intros self trainer s all_preds all_gt preds gt mask n0 rest a b c
    Hmode Hp Hg Hshape Hmask Hpreds Hgt Hdraws Hn0 Hvol Hc Hmod.
  destruct (masked_assign_zeros _ _ _ _ Hpreds) as (Hsp & Hlp).
  destruct (masked_assign_zeros _ _ _ _ Hgt) as (Hsg & Hlg).
  change (numel (n0 :: rest)) with (n0 * numel rest)%nat in Hlp, Hlg.
  unfold on_validation_epoch_end. cbv zeta. rewrite Hmode, Hshape.
  unfold sbind at 1. rewrite Hp.
  unfold sbind at 1. rewrite Hg.
  unfold sbind at 1. unfold set_vol_shape at 1.
  unfold sbind at 1. unfold sbind at 1. unfold lift at 1. rewrite Hmask.
  unfold sbind at 1. unfold lift at 1. rewrite Hpreds.
  unfold sbind at 1. unfold lift at 1. rewrite Hgt.
  unfold sbind at 1. unfold lift at 1. cbn [shape_at nth_error].
  unfold sbind at 1. unfold lift at 1.
  assert (Hz : (n0 =? 0)%nat = false) by (apply Nat.eqb_neq; lia).
  rewrite Hz.
  unfold sbind at 1.
  rewrite (log_projections_run preds gt n0 rest (randint trainer)
             Hsp Hsg Hlp Hlg Hdraws).
  unfold sbind at 1. unfold lift at 1.
  pose proof (dense_reconstruction_type_error self (vol trainer) a b c
                (shape (vol trainer)) Hvol Hc Hmod) as Hdense.
  cbv zeta in Hdense. rewrite Hdense.
  cbn [validation_step_outputs validation_step_gt vol_shape emitted].
  rewrite Hvol. reflexivity.
Qed.

Lemma on_validation_epoch_end_projection_trace_witness :
  on_validation_epoch_end
    (mkMLP [2]%nat 0 false 0 2 None None (MSequential []))
    example_trainer example_mut
  = (Raise (TypeError "forward() missing 1 required positional argument: 'vecs'"),
     mkMut (validation_step_outputs example_mut)
       (validation_step_gt example_mut) (Some [1; 1; 1]%nat)
       (emitted example_mut
        ++ map (projection_images (mkTensor [2]%nat [1; 2])
                  (mkTensor [2]%nat [3; 4]) 2 [])
             (randint example_trainer)))
  /\ projection_images (mkTensor [2]%nat [1; 2]) (mkTensor [2]%nat [3; 4])
       2 [] 1
     = LogImage "val/projection"
         [mkTensor [] [2]; mkTensor [] [4]; mkTensor [] [4 - 2]]
         ["pred_1"; "gt_1"; "residual_1"].
Proof.
  split; [| reflexivity].
  apply (on_validation_epoch_end_projection_trace
           (mkMLP [2]%nat 0 false 0 2 None None (MSequential []))
           example_trainer example_mut
           (mkTensor [2]%nat [1; 2]) (mkTensor [2]%nat [3; 4])
           (mkTensor [2]%nat [1; 2]) (mkTensor [2]%nat [3; 4])
           (mkBTensor [2]%nat [true; true]) 2%nat [] 1%nat 1%nat 1%nat).
  - reflexivity.
  - run. reflexivity.
  - run. reflexivity.
  - reflexivity.
  - reflexivity.
  - run. reflexivity.
  - run. reflexivity.
  - repeat constructor.
  - lia.
  - reflexivity.
  - lia.
  - reflexivity.
Defined.
